(** * GeoScripts: nearest-river matching and its batch driver

    A shallow embedding of [spatial_layer_processor.py], of
    [multithread_interesect_as_layer_bar.py] (selection by intersection,
    with the same batch loop) and of the file listing and the path
    arithmetic of [qgis_buffer_folder.py].

    Conventions of the embedding.
    - In the matcher and the pipeline Python floats are idealised as real
      numbers ([R]); [np.cos] is [cos] and [np.radians] is multiplication
      by [PI / 180]. The converter [meters_to_degrees] is also given in
      binary64, the arithmetic it runs in, for what is said of its
      values.
    - shapely, geopandas and the file codec are external to the repository:
      they are the operations of the class [GeoLib], and every statement
      below is about the scripts' code for an arbitrary such library.
    - Effects (printing, reading and writing files, raising) are the
      constructors of the program type [prog]; a thread pool interleaves
      the events of several programs over one shared file system. *)

From Stdlib Require Import Floats.
From Stdlib Require Import Ascii String Reals Lra.
From stdpp Require Import gmap strings list.

(** ** Python values that reach the radius parameter *)

(** [argparse] without [type=] stores the option as the command-line
    string; a caller of the functions may also pass a number. *)
Inductive pyval : Type :=
| PyStr (s : string)
| PyFloat (x : R).

(** Exceptions the embedded code can meet. *)
Inductive exn : Type :=
| TypeError                        (* unsupported operand type(s) for /: 'str' and 'int' *)
| DataSourceError (path : string)  (* gpd.read_file could not open or parse [path] *)
| CRSError                         (* GeoDataFrame.to_crs refused the transformation *)
| ValueError                       (* Series.idxmin of an empty Series *)
| KeyError.                        (* DataFrame.loc of an absent label *)

Inductive result (A : Type) : Type :=
| Ok (a : A)
| Err (e : exn).
Arguments Ok {A} a.
Arguments Err {A} e.

Definition result_bind {A B} (r : result A) (f : A → result B) : result B :=
  match r with
  | Ok a => f a
  | Err e => Err e
  end.

(** ** [os.path] on POSIX path strings *)

Module ospath.

Definition sep : ascii := "/"%char.
Definition extsep : ascii := "."%char.

(** [s.rfind(c)]: the last index of [c], [-1] when absent. *)
Fixpoint rfind_from (c : ascii) (s : string) (i : Z) (last : Z) : Z :=
  match s with
  | EmptyString => last
  | String a s' =>
      rfind_from c s' (i + 1) (if Ascii.eqb a c then i else last)
  end.

Definition rfind (c : ascii) (s : string) : Z := rfind_from c s 0 (-1).

(** Slices [p[i:]] and [p[:i]] for [0 <= i]. *)
Fixpoint drop_str (n : nat) (s : string) : string :=
  match n, s with
  | O, _ => s
  | S n', String _ s' => drop_str n' s'
  | S _, EmptyString => EmptyString
  end.

Fixpoint take_str (n : nat) (s : string) : string :=
  match n, s with
  | O, _ => EmptyString
  | S n', String a s' => String a (take_str n' s')
  | S _, EmptyString => EmptyString
  end.

(** [posixpath.basename]: [i = p.rfind('/') + 1; return p[i:]]. *)
Definition basename (p : string) : string :=
  drop_str (Z.to_nat (rfind sep p + 1)) p.

(** The [while] loop of [genericpath._splitext]: looks for a character
    other than the dot in [p[filenameIndex:dotIndex]]. *)
Fixpoint has_non_dot (s : string) : bool :=
  match s with
  | EmptyString => false
  | String a s' => if Ascii.eqb a extsep then has_non_dot s' else true
  end.

(** [posixpath.splitext], through [genericpath._splitext(p, '/', None, '.')]. *)
Definition splitext (p : string) : string * string :=
  let sepIndex := rfind sep p in
  let dotIndex := rfind extsep p in
  if bool_decide (sepIndex < dotIndex)%Z then
    let filenameIndex := Z.to_nat (sepIndex + 1) in
    let stem := take_str (Z.to_nat dotIndex - filenameIndex) (drop_str filenameIndex p) in
    if has_non_dot stem
    then (take_str (Z.to_nat dotIndex) p, drop_str (Z.to_nat dotIndex) p)
    else (p, EmptyString)
  else (p, EmptyString).

Definition startswith_sep (s : string) : bool :=
  match s with
  | String a _ => Ascii.eqb a sep
  | EmptyString => false
  end.

Fixpoint endswith_sep (s : string) : bool :=
  match s with
  | EmptyString => false
  | String a EmptyString => Ascii.eqb a sep
  | String _ s' => endswith_sep s'
  end.

(** [posixpath.join(a, b)] for two components. *)
Definition join (a b : string) : string :=
  if startswith_sep b then b
  else if bool_decide (a = EmptyString) || endswith_sep a then a +:+ b
  else a +:+ "/" +:+ b.

End ospath.

(** [c in s]. *)
Fixpoint str_contains (c : ascii) (s : string) : bool :=
  match s with
  | EmptyString => false
  | String a s' => Ascii.eqb a c || str_contains c s'
  end.

(** ** [qgis_buffer_folder.py]: the files it lists and the paths it makes *)

Module qgis.

(** [list_files] of this script keeps every file. *)
Definition list_files (os_walk : string → list (string * list string * list string))
    (directory : string) : list string :=
  flat_map (λ entry : string * list string * list string,
              map (ospath.join entry.1.1) entry.2)
           (os_walk directory).

(** Line 115: the name of the layer made of a listed file. *)
Definition layer_name (file : string) : string :=
  (ospath.splitext (ospath.basename file)).1.

(** Line 95: the path [save_layer_as_geojson] hands to the file writer,
    [output_path + name + '.geojson']. *)
Definition geojson_path (output_path name : string) : string :=
  (output_path +:+ name) +:+ ".geojson".

End qgis.

(** ** The geometry library and feature collections *)

(** A row of a GeoDataFrame: its geometry and its attribute columns. *)
Record Feature (G : Type) : Type := mkFeature {
  feat_geometry : G;
  feat_properties : list (string * string);
}.
Arguments mkFeature {G} _ _.
Arguments feat_geometry {G} _.
Arguments feat_properties {G} _.

(** A GeoDataFrame as [gpd.read_file] returns it: the rows in file order
    (their index is the [RangeIndex] 0, 1, ...) and the frame's CRS,
    [None] when the source declares none. *)
Record GeoDataFrame (G : Type) : Type := mkGDF {
  gdf_crs : option string;
  gdf_rows : list (Feature G);
}.
Arguments mkGDF {G} _ _.
Arguments gdf_crs {G} _.
Arguments gdf_rows {G} _.

(** What the scripts import: shapely's geometry operations, geopandas'
    reprojection and the GeoJSON codec behind [read_file] and [to_file].
    Points are taken non-empty, so that [point.y] is a number. *)
Class GeoLib : Type := {
  geometry : Type;
  content : Type;
  isinstance_Point : geometry → bool;
  isinstance_MultiPolygon : geometry → bool;
  centroid : geometry → geometry;
  point_y : geometry → R;
  buffer : geometry → R → geometry;
  intersects : geometry → geometry → bool;
  nearest_points : geometry → geometry → geometry * geometry;
  distance : geometry → geometry → R;
  to_crs : GeoDataFrame geometry → option string → result (GeoDataFrame geometry);
  decode : content → option (GeoDataFrame geometry);
  encode : GeoDataFrame geometry → content;
}.

(** ** Radius conversion *)

(** [np.radians]. *)
Definition radians (x : R) : R := (x * PI / 180)%R.

(** [meters / d] for a numeric divisor: a [str] numerator has no [/]. *)
Definition py_truediv (meters : pyval) (d : R) : result R :=
  match meters with
  | PyFloat x => Ok (x / d)%R
  | PyStr _ => Err TypeError
  end.

Definition meters_to_degrees (meters : pyval) (latitude : R) : result (R * R) :=
  result_bind (py_truediv meters 111000) (λ degrees_lat,
  result_bind (py_truediv meters (111000 * cos (radians latitude))) (λ degrees_lon,
  Ok (degrees_lat, degrees_lon))).

(** Python's [max(a, b)]: [b] when [b > a], otherwise [a]. *)
Definition py_max (a b : R) : R := if Rlt_dec a b then b else a.

(** The metres in [degrees] of latitude along a meridian, by the scale
    of [meters_to_degrees]. *)
Definition meridian_meters (degrees : R) : R := (degrees * 111000)%R.

(** ** The converter in binary64

    Python's [float] and NumPy's [float64] are the IEEE 754 binary64
    numbers, here the primitive [float]; [/] and [*] round to nearest in
    both, and dividing by zero gives an infinity, not an exception, once
    an operand is a NumPy scalar. *)











(** ** pandas: boolean masks, [idxmin] and [loc] over an indexed frame *)

(** The rows of a frame beside their index labels, the [RangeIndex]
    that [gpd.read_file] gives a frame. *)
Fixpoint range_index_from {A} (start : nat) (l : list A) : list (nat * A) :=
  match l with
  | [] => []
  | x :: l' => (start, x) :: range_index_from (S start) l'
  end.

Definition indexed {G} (g : GeoDataFrame G) : list (nat * Feature G) :=
  range_index_from 0 (gdf_rows g).

(** [df[mask]]: the rows whose mask entry is [True], labels kept. *)
Definition mask_select {G} (mask : Feature G → bool) (df : list (nat * Feature G))
  : list (nat * Feature G) :=
  filter (λ r, mask r.2 = true) df.

(** [df.geometry.apply(f)]: a Series over the same labels. *)
Definition geometry_apply {G} (f : G → R) (df : list (nat * Feature G)) : list (nat * R) :=
  map (λ r, (r.1, f (feat_geometry r.2))) df.

(** The scan behind [Series.idxmin]: the entry kept so far is replaced
    only by a strictly smaller one, so the first minimum wins. *)
Fixpoint argmin_from (best : nat * R) (s : list (nat * R)) : nat * R :=
  match s with
  | [] => best
  | e :: s' => argmin_from (if Rlt_dec e.2 best.2 then e else best) s'
  end.

(** [Series.idxmin()]: [None] stands for the [ValueError] of an empty Series. *)
Definition idxmin (s : list (nat * R)) : option nat :=
  match s with
  | [] => None
  | e :: s' => Some (argmin_from e s').1
  end.

(** [df.loc[label]]: [None] stands for [KeyError]. *)
Fixpoint loc {G} (df : list (nat * Feature G)) (label : nat) : option (Feature G) :=
  match df with
  | [] => None
  | r :: df' => if Nat.eqb r.1 label then Some r.2 else loc df' label
  end.

(** ** A library instance: points, rectangles and discs in the plane

    Coordinates are (longitude, latitude) in degrees. The instance gives
    shapely's answers on what the runs below ask of it: the buffer of a
    Point (taken as the disc that shapely approximates by a polygon with
    vertices on the circle), whether a Point or a rectangle meets such a
    buffer, and the distance between Points. *)

Module Planar.

Inductive shape : Type :=
| Pt (x y : R)                 (* a Point *)
| Rect (x0 y0 x1 y1 : R)       (* a MultiPolygon of one rectangle, x0 <= x1 and y0 <= y1 *)
| Disc (x y r : R).            (* a Polygon: the buffer of a Point *)

Definition euclid (p q : R * R) : R :=
  sqrt ((p.1 - q.1) * (p.1 - q.1) + (p.2 - q.2) * (p.2 - q.2)).

Definition clamp (lo hi v : R) : R := Rmax lo (Rmin hi v).

(** The point of a shape nearest to [p]. *)
Definition nearest_on (g : shape) (p : R * R) : R * R :=
  match g with
  | Pt x y => (x, y)
  | Rect x0 y0 x1 y1 => (clamp x0 x1 p.1, clamp y0 y1 p.2)
  | Disc x y r =>
      let d := euclid p (x, y) in
      if Rle_dec d r then p
      else ((x + r * (p.1 - x) / d)%R, (y + r * (p.2 - y) / d)%R)
  end.

Definition center (g : shape) : R * R :=
  match g with
  | Pt x y => (x, y)
  | Rect x0 y0 x1 y1 => (((x0 + x1) / 2)%R, ((y0 + y1) / 2)%R)
  | Disc x y _ => (x, y)
  end.

Definition is_Pt (g : shape) : bool :=
  match g with
  | Pt _ _ => true
  | _ => false
  end.

Definition is_Rect (g : shape) : bool :=
  match g with
  | Rect _ _ _ _ => true
  | _ => false
  end.

(** The scripts buffer Points only; a disc grows, a rectangle is left. *)
Definition buffer_shape (g : shape) (r : R) : shape :=
  match g with
  | Pt x y => Disc x y r
  | Disc x y r0 => Disc x y (r0 + r)
  | Rect _ _ _ _ => g
  end.

(** The scripts ask whether a shape meets a buffer: a disc of positive
    radius within whose radius the shape comes (the buffer of radius
    zero or less is empty and meets nothing). *)
Definition meets (g b : shape) : bool :=
  match b with
  | Disc x y r =>
      if Rlt_dec 0 r
      then if Rle_dec (euclid (nearest_on g (x, y)) (x, y)) r then true else false
      else false
  | _ => false
  end.

(** GeoJSON in geopandas is longitude first under both names, so going
    from one to the other changes the CRS and no coordinate; no other
    CRS is known to this instance. *)
Definition known_crs (c : string) : bool :=
  String.eqb c "EPSG:4326" || String.eqb c "OGC:CRS84".

Definition reproject (g : GeoDataFrame shape) (target : option string)
  : result (GeoDataFrame shape) :=
  match gdf_crs g, target with
  | Some source, Some c =>
      if known_crs source && known_crs c then Ok (mkGDF (Some c) (gdf_rows g))
      else Err CRSError
  | _, _ => Err CRSError
  end.

(** A file is a layer, or something [gpd.read_file] cannot read. *)
#[export] Instance planar : GeoLib := {|
  geometry := shape;
  content := option (GeoDataFrame shape);
  isinstance_Point := is_Pt;
  isinstance_MultiPolygon := is_Rect;
  centroid := λ g, Pt (center g).1 (center g).2;
  point_y := λ g, (center g).2;
  buffer := buffer_shape;
  intersects := meets;
  nearest_points := λ a b,
    (Pt (nearest_on a (center b)).1 (nearest_on a (center b)).2,
     Pt (nearest_on b (center a)).1 (nearest_on b (center a)).2);
  distance := λ a b, euclid (nearest_on a (center b)) (nearest_on b (center a));
  to_crs := reproject;
  decode := λ c, c;
  encode := Some;
|}.

(** ** Layers, a disk and a directory tree on the instance *)

Definition epsg4326 : option string := Some "EPSG:4326".
Definition crs84 : option string := Some "OGC:CRS84".

(** A point layer with one town at the origin. *)
Definition town : Feature shape := mkFeature (Pt 0 0) [("name", "town")].
Definition points_layer : GeoDataFrame shape := mkGDF epsg4326 [town].

(** Two river layers that differ in the name of their one river, which
    passes through the town, and a third one in the other CRS. *)
Definition river_A : Feature shape := mkFeature (Pt 0 0) [("name", "A")].
Definition river_B : Feature shape := mkFeature (Pt 0 0) [("name", "B")].
Definition rivers_a : GeoDataFrame shape := mkGDF epsg4326 [river_A].
Definition rivers_b : GeoDataFrame shape := mkGDF epsg4326 [river_B].
Definition rivers_c : GeoDataFrame shape := mkGDF crs84 [river_A].

(** A river five degrees east of the town, along the equator. *)
Definition river_far : Feature shape := mkFeature (Pt 5 0) [("name", "far")].
Definition rivers_far : GeoDataFrame shape := mkGDF epsg4326 [river_far].

(** A point layer of a rectangle, a point and a disc. *)
Definition mixed_layer : GeoDataFrame shape :=
  mkGDF epsg4326
    [mkFeature (Rect 0 0 2 2) []; mkFeature (Pt 0 0) []; mkFeature (Disc 5 5 1) []].

Definition disk : gmap string (option (GeoDataFrame shape)) :=
  <["points/x.geojson" := Some points_layer]>
  (<["rivers/a/r.geojson" := Some rivers_a]>
  (<["rivers/b/r.geojson" := Some rivers_b]>
  (<["rivers/c/r.geojson" := Some rivers_c]>
  (<["rivers/far.geojson" := Some rivers_far]>
  (<["rivers/broken.geojson" := None]> ∅))))).

(** [os.walk] over that disk. *)
Definition walk (directory : string) : list (string * list string * list string) :=
  if String.eqb directory "points" then [("points", [], ["x.geojson"; "README.txt"])]
  else if String.eqb directory "rivers" then
    [("rivers", ["a"; "b"], ["notes.md"]);
     ("rivers/a", [], ["r.geojson"]);
     ("rivers/b", [], ["r.geojson"])]
  else [].

Definition distinct_rivers : list string := ["rivers/a/r.geojson"; "rivers/far.geojson"].

(** A village at latitude 60 and a river one and a half degrees north. *)
Definition village : shape := Pt 0 60.
Definition river_north : Feature shape := mkFeature (Pt 0 (123 / 2)) [("name", "north")].

(** [unary_union] on the instance: the union of one geometry is that
    geometry, the union of none is empty (a disc of radius zero, which
    meets nothing). The runs below ask for no other union, and of a
    union that is a Point only whether geometries away from it meet it. *)
Definition union_of (gs : list shape) : shape :=
  match gs with
  | [g] => g
  | _ => Disc 0 0 0
  end.

(** A layer of one lake around the origin, and the disk with that layer. *)
Definition lake : Feature shape := mkFeature (Disc 0 0 1) [("name", "lake")].
Definition lakes_layer : GeoDataFrame shape := mkGDF epsg4326 [lake].

(** A layer of one hamlet that lies on no river of the disk. *)
Definition hamlet : Feature shape := mkFeature (Pt 1 1) [("name", "hamlet")].
Definition hamlets_layer : GeoDataFrame shape := mkGDF epsg4326 [hamlet].

Definition disk_with_lake : gmap string (option (GeoDataFrame shape)) :=
  <["points/lake.geojson" := Some lakes_layer]>
  (<["points/h.geojson" := Some hamlets_layer]> disk).

(** [os.walk] over the hamlets and two of the rivers. *)
Definition walk_hamlets (directory : string) : list (string * list string * list string) :=
  if String.eqb directory "points" then [("points", [], ["h.geojson"])]
  else if String.eqb directory "rivers" then
    [("rivers", ["a"], ["far.geojson"]);
     ("rivers/a", [], ["r.geojson"])]
  else [].

End Planar.

(** ** Programs: the effects of the scripts *)

Section Scripts.

Set Default Proof Using "Type".

Context {L : GeoLib}.

Local Abbreviation feature := (Feature geometry).
Local Abbreviation frame := (GeoDataFrame geometry).

(** What the scripts print, one constructor per [print] call. *)
Inductive line : Type :=
| LayerSaved (name : string)
| BufferCreated (radius_degrees : R)
| RiversInBuffer (n : nat)
| Processing (point_path river_path : string)
| UsingRadius (radius : pyval)
| NumberOfPoints (n : nat)
| NumberOfRivers (n : nat)
| SkippingNonPoint (g : geometry)
| NoFeaturesSelected (name : string)
| NumberOfSelected (n : nat)
| ErrorOccurred (e : exn)
| FinishedCalculation.

(** A program is a tree of events ending in a value or an exception. *)
Inductive prog (A : Type) : Type :=
| Ret (a : A)
| Raise (e : exn)
| Print (l : line) (k : prog A)
| ReadFile (path : string) (k : option content → prog A)
| ToFile (path : string) (c : content) (k : prog A).
Arguments Ret {A} a.
Arguments Raise {A} e.
Arguments Print {A} l k.
Arguments ReadFile {A} path k.
Arguments ToFile {A} path c k.

Fixpoint bind {A B} (p : prog A) (f : A → prog B) : prog B :=
  match p with
  | Ret a => f a
  | Raise e => Raise e
  | Print l k => Print l (bind k f)
  | ReadFile path k => ReadFile path (λ c, bind (k c) f)
  | ToFile path c k => ToFile path c (bind k f)
  end.

Local Notation "x <- p ;; q" := (bind p (λ x, q))
  (at level 100, p at next level, right associativity, only parsing).
Local Notation "p ;;; q" := (bind p (λ _, q))
  (at level 100, right associativity, only parsing).

Definition lift {A} (r : result A) : prog A :=
  match r with
  | Ok a => Ret a
  | Err e => Raise e
  end.

(** The module-level flag [verbose], assigned once by [main] before any
    task is submitted and only read afterwards. *)
Variable verbose : bool.

(** [if verbose: print(...)]. *)
Definition print_if_verbose (l : line) : prog unit :=
  if verbose then Print l (Ret tt) else Ret tt.

(** ** [find_nearest_river] *)

Definition find_nearest_river (point : geometry) (rivers : frame) (radius_meters : pyval)
  : prog (option feature) :=
  let latitude := point_y point in
  degrees <- lift (meters_to_degrees radius_meters latitude) ;;
  let degrees_lat := degrees.1 in
  let degrees_lon := degrees.2 in
  let buffer := buffer point (py_max degrees_lat degrees_lon) in
  print_if_verbose (BufferCreated (py_max degrees_lat degrees_lon)) ;;;
  let rivers_in_buffer := mask_select (λ f, intersects (feat_geometry f) buffer) (indexed rivers) in
  print_if_verbose (RiversInBuffer (length rivers_in_buffer)) ;;;
  match rivers_in_buffer with
  | _ :: _ =>
      let distances :=
        geometry_apply (λ geom, distance point (nearest_points point geom).2) rivers_in_buffer in
      match idxmin distances with
      | None => Raise ValueError
      | Some label =>
          match loc rivers_in_buffer label with
          | None => Raise KeyError
          | Some nearest_river => Ret (Some nearest_river)
          end
      end
  | [] => Ret None
  end.

(** ** [create_new_layer] and [process_layers] *)

(** [gpd.read_file(path)]. *)
Definition read_file (path : string) : prog frame :=
  ReadFile path (λ c,
    match c ≫= decode with
    | Some gdf => Ret gdf
    | None => Raise (DataSourceError path)
    end).

Definition save_layer_as_geojson (gdf : frame) (output_path name : string) : prog unit :=
  let output_file := ospath.join output_path (name +:+ ".geojson") in
  ToFile output_file (encode gdf) (print_if_verbose (LayerSaved name)).

(** [gdf['geometry'] = gdf['geometry'].apply(f)]. *)
Definition assign_geometry (f : geometry → geometry) (gdf : frame) : frame :=
  mkGDF (gdf_crs gdf) (map (λ r, mkFeature (f (feat_geometry r)) (feat_properties r)) (gdf_rows gdf)).

Definition centroid_of_MultiPolygon (geom : geometry) : geometry :=
  if isinstance_MultiPolygon geom then centroid geom else geom.

(** The loop [for point in point_gdf.geometry], with [selected_rivers]
    as its accumulator. *)
Fixpoint for_each_point (points : list geometry) (river_gdf : frame) (radius : pyval)
    (selected_rivers : list feature) : prog (list feature) :=
  match points with
  | [] => Ret selected_rivers
  | point :: points' =>
      if isinstance_Point point then
        nearest_river <- find_nearest_river point river_gdf radius ;;
        match nearest_river with
        | Some river => for_each_point points' river_gdf radius (selected_rivers ++ [river])
        | None => for_each_point points' river_gdf radius selected_rivers
        end
      else
        print_if_verbose (SkippingNonPoint point) ;;;
        for_each_point points' river_gdf radius selected_rivers
  end.

(** Lines 120-122, "Ensure the CRS is the same". *)
Definition ensure_same_crs (river_gdf point_gdf : frame) : prog frame :=
  if bool_decide (gdf_crs river_gdf ≠ gdf_crs point_gdf)
  then lift (to_crs point_gdf (gdf_crs river_gdf))
  else Ret point_gdf.

(** Lines 124-143: the centroids, then the loop over the points. *)
Definition select_rivers (river_gdf point_gdf : frame) (radius : pyval)
  : prog (list feature) :=
  print_if_verbose (UsingRadius radius) ;;;
  print_if_verbose (NumberOfPoints (length (gdf_rows point_gdf))) ;;;
  print_if_verbose (NumberOfRivers (length (gdf_rows river_gdf))) ;;;
  let point_gdf := assign_geometry centroid_of_MultiPolygon point_gdf in
  for_each_point (map feat_geometry (gdf_rows point_gdf)) river_gdf radius [].

(** Lines 145-157: nothing selected, or the new frame and its file. *)
Definition save_selected (river_gdf : frame) (selected_rivers : list feature)
    (new_layer_name save_path : string) : prog unit :=
  match selected_rivers with
  | [] => print_if_verbose (NoFeaturesSelected new_layer_name)
  | _ :: _ =>
      let selected_rivers_gdf := mkGDF (gdf_crs river_gdf) selected_rivers in
      print_if_verbose (NumberOfSelected (length (gdf_rows selected_rivers_gdf))) ;;;
      save_layer_as_geojson selected_rivers_gdf save_path new_layer_name
  end.

Definition create_new_layer (river_path point_path new_layer_name save_path : string)
    (radius : pyval) : prog unit :=
  print_if_verbose (Processing point_path river_path) ;;;
  river_gdf <- read_file river_path ;;
  point_gdf <- read_file point_path ;;
  point_gdf <- ensure_same_crs river_gdf point_gdf ;;
  selected_rivers <- select_rivers river_gdf point_gdf radius ;;
  save_selected river_gdf selected_rivers new_layer_name save_path.

Definition process_layers (river_path point_path save_path : string) (radius : pyval)
  : prog unit :=
  let layer_name := (ospath.splitext (ospath.basename point_path)).1 in
  let river_name := (ospath.splitext (ospath.basename river_path)).1 in
  let new_layer_name := layer_name +:+ "_" +:+ river_name in
  create_new_layer river_path point_path new_layer_name save_path radius.

(** ** Running one program alone *)

(** The state the programs act on: the files by path and what was printed. *)
Record world : Type := mkWorld {
  fs : gmap string content;
  stdout : list line;
}.

(** One event of a program against the world; [None] when the program
    has already finished. *)
Definition step {A} (p : prog A) (w : world) : option (prog A * world) :=
  match p with
  | Ret _ | Raise _ => None
  | Print l k => Some (k, mkWorld (fs w) (stdout w ++ [l]))
  | ReadFile path k => Some (k (fs w !! path), w)
  | ToFile path c k => Some (k, mkWorld (<[path := c]> (fs w)) (stdout w))
  end.

(** A program run to its end with no other program in between. *)
Fixpoint run {A} (p : prog A) (w : world) : result A * world :=
  match p with
  | Ret a => (Ok a, w)
  | Raise e => (Err e, w)
  | Print l k => run k (mkWorld (fs w) (stdout w ++ [l]))
  | ReadFile path k => run (k (fs w !! path)) w
  | ToFile path c k => run k (mkWorld (<[path := c]> (fs w)) (stdout w))
  end.

(** What [if verbose: print(l)] leaves on the output. *)
Definition printed (l : line) : list line := if verbose then [l] else [].

(** ** Events of a program, whatever the files hold *)

Inductive event : Type :=
| EPrint (l : line)
| ERead (path : string)
| EWrite (path : string) (c : content).

(** Every event the program can perform, for every content a read may
    return, satisfies [P]. *)
Fixpoint all_events {A} (P : event → Prop) (p : prog A) : Prop :=
  match p with
  | Ret _ | Raise _ => True
  | Print l k => P (EPrint l) ∧ all_events P k
  | ReadFile path k => P (ERead path) ∧ ∀ c, all_events P (k c)
  | ToFile path c k => P (EWrite path c) ∧ all_events P k
  end.

Definition is_print (e : event) : Prop :=
  match e with
  | EPrint _ => True
  | _ => False
  end.

(** The value and the output of a program run where there is no file:
    of a program that touches none, they are its value and output anywhere. *)
Definition value {A} (p : prog A) : result A := (run p (mkWorld ∅ [])).1.
Definition output {A} (p : prog A) : list line := stdout (run p (mkWorld ∅ [])).2.

(** The river [find_nearest_river] returns, [None] also when it raises. *)
Definition nearest_of (point : geometry) (rivers : frame) (radius : pyval) : option feature :=
  match value (find_nearest_river point rivers radius) with
  | Ok nearest_river => nearest_river
  | Err _ => None
  end.

(** ** The normalisation step as the specification words it *)

(** What becomes of one geometry of the point layer: it goes to the
    matcher (as it is, or as a centroid), or it is skipped. *)
Inductive disposition : Type :=
| Matched (point : geometry)
| Skipped (geom : geometry).

Definition spec_normalize (geom : geometry) : disposition :=
  if isinstance_MultiPolygon geom then Matched (centroid geom)
  else if isinstance_Point geom then Matched geom
  else Skipped geom.

(** ** The thread pool of [main] *)

(** A submitted task: what is left of its program, whether a worker has
    taken it from the queue, and whether [as_completed] has yielded it. *)
Record future : Type := mkFuture {
  remaining : prog unit;
  started : bool;
  collected : bool;
}.

(** [future.done()]: the program has returned or raised. *)
Definition finished {A} (p : prog A) : bool :=
  match p with
  | Ret _ | Raise _ => true
  | _ => false
  end.

Record pool : Type := mkPool {
  shared : world;
  futures : list future;
  pbar : nat;
}.

(** The tasks that hold a worker thread. *)
Definition running (fts : list future) : nat :=
  length (filter (λ f, started f && negb (finished (remaining f)) = true) fts).

(** The queue of the executor is first in, first out: a task may take
    its first step once every task submitted before it has been taken and
    one of the [max_workers] threads is free. *)
Definition may_work (max_workers : nat) (fts : list future) (i : nat) (f : future) : bool :=
  negb (finished (remaining f))
  && (started f
      || (forallb (λ g, started g || finished (remaining g)) (take i fts)
          && (running fts <? max_workers))).

(** The body of the loop over [as_completed(futures)]: [future.result()]
    re-raises the task's exception, [except Exception] prints it when
    [verbose]; [pbar.update()] follows either way. *)
Definition on_completed (p : prog unit) : list line :=
  match p with
  | Raise e => printed (ErrorOccurred e)
  | _ => []
  end.

(** What can happen next: a worker performs the next event of task [i],
    or the main thread receives the finished task [i] from [as_completed]. *)
Inductive action : Type :=
| Work (i : nat)
| Collect (i : nat).

Definition exec (max_workers : nat) (a : action) (s : pool) : option pool :=
  match a with
  | Work i =>
      match futures s !! i with
      | Some f =>
          if may_work max_workers (futures s) i f then
            match step (remaining f) (shared s) with
            | Some (p', w') =>
                Some (mkPool w' (<[i := mkFuture p' true (collected f)]> (futures s)) (pbar s))
            | None => None
            end
          else None
      | None => None
      end
  | Collect i =>
      match futures s !! i with
      | Some f =>
          if finished (remaining f) && negb (collected f) then
            Some (mkPool
                    (mkWorld (fs (shared s)) (stdout (shared s) ++ on_completed (remaining f)))
                    (<[i := mkFuture (remaining f) (started f) true]> (futures s))
                    (S (pbar s)))
          else None
      | None => None
      end
  end.

(** A schedule is the order in which these actions happen; [None] when
    it asks for an action that cannot happen then. *)
Fixpoint exec_all (max_workers : nat) (sched : list action) (s : pool) : option pool :=
  match sched with
  | [] => Some s
  | a :: sched' =>
      match exec max_workers a s with
      | Some s' => exec_all max_workers sched' s'
      | None => None
      end
  end.

(** The loop over [as_completed] ends, and the [with] block of the
    executor is left, when every future has been yielded. *)
Definition all_collected (s : pool) : bool := forallb collected (futures s).

(** The pool when every task has been submitted and none has started. *)
Definition submitted (tasks : list (prog unit)) (w : world) : pool :=
  mkPool w (map (λ task, mkFuture task false false) tasks) 0.

(** ** [list_files] and [main] *)

Definition lower_ascii (a : ascii) : ascii :=
  let n := nat_of_ascii a in
  if (65 <=? n) && (n <=? 90) then ascii_of_nat (n + 32) else a.

(** [str.lower()] on ASCII text. *)
Fixpoint lower (s : string) : string :=
  match s with
  | EmptyString => EmptyString
  | String a s' => String (lower_ascii a) (lower s')
  end.

(** [s.endswith(suffix)]. *)
Definition endswith (s suffix : string) : bool :=
  (String.length suffix <=? String.length s)
  && String.eqb (ospath.drop_str (String.length s - String.length suffix) s) suffix.

(** [os_walk directory] is [os.walk(directory)]: the (root, dirs, files)
    triples in the order the operating system lists them. *)
Definition list_files (os_walk : string → list (string * list string * list string))
    (directory : string) : list string :=
  flat_map (λ entry : string * list string * list string,
              map (ospath.join entry.1.1)
                  (filter (λ file, endswith (lower file) ".geojson" = true) entry.2))
           (os_walk directory).

(** The two nested loops of [executor.submit]: point files outside,
    river files inside. *)
Definition submit_all (files rivers : list string) (save_path : string) (radius : pyval)
  : list future :=
  flat_map (λ file,
              map (λ river, mkFuture (process_layers river file save_path radius) false false)
                  rivers)
           files.

(** The (point file, river file) pairs in the order [main] submits them. *)
Definition pairs (files rivers : list string) : list (string * string) :=
  flat_map (λ file, map (λ river, (file, river)) rivers) files.

(** The file a task writes: [save_layer_as_geojson] joins [save_path]
    with the name [process_layers] makes of the two file stems. *)
Definition output_file (save_path : string) (task : string * string) : string :=
  ospath.join save_path
    (((ospath.splitext (ospath.basename task.1)).1 +:+ "_"
        +:+ (ospath.splitext (ospath.basename task.2)).1)
       +:+ ".geojson").

(** [main] up to the last [submit]: [args.radius] is the string argparse
    stored, and it is passed on as it is. Directories are not part of the
    file system of the model, so [os.makedirs] has nothing to do. *)
Definition main_submitted (os_walk : string → list (string * list string * list string))
    (input_path river_path save_path radius : string) (w : world) : pool :=
  let files := list_files os_walk input_path in
  let rivers := list_files os_walk river_path in
  mkPool w (submit_all files rivers save_path (PyStr radius)) 0.

(** [main] after the pool: the last [print]. *)
Definition main_returns (s : pool) : world :=
  mkWorld (fs (shared s)) (stdout (shared s) ++ printed FinishedCalculation).

(** ** The two sentences of the specification about the whole batch *)

(** "Each failure is recorded in the report": the only report of the
    code is what it prints, so at the least the line of the failure is
    among the lines printed when the batch is over. *)
Definition failures_reported (s0 : pool) : Prop :=
  ∀ max_workers sched s,
    exec_all max_workers sched s0 = Some s → all_collected s = true →
    ∀ i f e, futures s !! i = Some f → remaining f = Raise e →
      ErrorOccurred e ∈ stdout (main_returns s).

(** "One thread and eight threads leave the same files". *)
Definition same_files_1_and_8 (s0 : pool) : Prop :=
  ∀ sched1 sched8 s1 s8,
    exec_all 1 sched1 s0 = Some s1 → all_collected s1 = true →
    exec_all 8 sched8 s0 = Some s8 → all_collected s8 = true →
    fs (shared s1) = fs (shared s8).

(** ** What the statements below speak of *)

(** What one turn of the loop adds to [selected_rivers] on a numeric radius. *)
Definition turn_selects (river_gdf : frame) (meters : R) (point : geometry) : list feature :=
  if isinstance_Point point
  then option_list (nearest_of point river_gdf (PyFloat meters))
  else [].

(** What one turn of the loop prints. *)
Definition turn_prints (river_gdf : frame) (radius : pyval) (point : geometry) : list line :=
  if isinstance_Point point
  then output (find_nearest_river point river_gdf radius)
  else printed (SkippingNonPoint point).

(** The effect of one event on the world. *)
Definition apply_event (e : event) (w : world) : world :=
  match e with
  | EPrint l => mkWorld (fs w) (stdout w ++ [l])
  | ERead _ => w
  | EWrite path c => mkWorld (<[path := c]> (fs w)) (stdout w)
  end.

(** The values a program can return, for some contents of the files. *)
Fixpoint can_return {A} (p : prog A) (a : A) : Prop :=
  match p with
  | Ret a' => a' = a
  | Raise _ => False
  | Print _ k => can_return k a
  | ReadFile _ k => ∃ c, can_return (k c) a
  | ToFile _ _ k => can_return k a
  end.

(** The radius is a number, not the string of the command line. *)
Definition is_number (radius : pyval) : Prop :=
  match radius with
  | PyFloat _ => True
  | PyStr _ => False
  end.

(** [as_completed] yields finished futures only. *)
Definition collected_are_finished (s : pool) : Prop :=
  Forall (λ f, collected f = true → finished (remaining f) = true) (futures s).

(** The progress bar counts the futures yielded so far. *)
Definition pbar_counts (s : pool) : Prop :=
  pbar s = length (filter (λ f, collected f = true) (futures s)).

(** A row whose geometry is a Point. *)
Definition is_point_row (r : feature) : Prop := isinstance_Point (feat_geometry r) = true.

(** The paths task [i] may read are [reads i], those it may write [writes i]. *)
Definition footprint (reads writes : nat → string → Prop) (i : nat) (e : event) : Prop :=
  match e with
  | EPrint _ => True
  | ERead path => reads i path
  | EWrite path _ => writes i path
  end.

(** No task writes where another task reads or writes. *)
Definition disjoint_footprints (reads writes : nat → string → Prop) (n : nat) : Prop :=
  ∀ i j path, i < n → j < n → i ≠ j → writes j path → ¬ reads i path ∧ ¬ writes i path.

(** The pool state [s] is one in which every task still stands where its
    run alone from [s0] would lead it: same remaining footprint, same
    result to come, same content to come in the files it writes; files
    outside every write footprint are as in [s0]. *)
Definition isolated (reads writes : nat → string → Prop) (s0 s : pool) : Prop :=
  length (futures s) = length (futures s0)
  ∧ (∀ i f f0, futures s !! i = Some f → futures s0 !! i = Some f0 →
       all_events (footprint reads writes i) (remaining f)
       ∧ (run (remaining f) (shared s)).1 = (run (remaining f0) (shared s0)).1
       ∧ ∀ path, writes i path →
           fs (run (remaining f) (shared s)).2 !! path
           = fs (run (remaining f0) (shared s0)).2 !! path)
  ∧ (∀ path, (∀ i, i < length (futures s0) → ¬ writes i path) →
       fs (shared s) !! path = fs (shared s0) !! path).

(** [total_tasks] of [main], the total of the progress bar. *)
Definition total_tasks (files rivers : list string) : nat := length files * length rivers.

(** ** [multithread_interesect_as_layer_bar.py]: selection by intersection *)

(** [GeoDataFrame.unary_union] of geopandas, which only this script asks
    for: the union of the geometries of a frame. *)
Variable unary_union : list geometry → geometry.

(** [list_files] of this script compares the extension as it is written. *)
Definition intersect_list_files (os_walk : string → list (string * list string * list string))
    (directory : string) : list string :=
  flat_map (λ entry : string * list string * list string,
              map (ospath.join entry.1.1)
                  (filter (λ file, endswith file ".geojson" = true) entry.2))
           (os_walk directory).

(** Line 70: the rows of the river frame whose geometry meets the union
    of the points. *)
Definition intersect_select (river_gdf point_gdf : frame) : list (nat * feature) :=
  mask_select (λ f, intersects (feat_geometry f)
                      (unary_union (map feat_geometry (gdf_rows point_gdf))))
              (indexed river_gdf).

Definition intersect_create_new_layer (river_path point_path new_layer_name save_path : string)
  : prog unit :=
  river_gdf <- read_file river_path ;;
  point_gdf <- read_file point_path ;;
  point_gdf <- ensure_same_crs river_gdf point_gdf ;;
  let selected_rivers := intersect_select river_gdf point_gdf in
  match selected_rivers with
  | [] => print_if_verbose (NoFeaturesSelected new_layer_name)
  | _ :: _ =>
      save_layer_as_geojson (mkGDF (gdf_crs river_gdf) selected_rivers.*2)
        save_path new_layer_name
  end.

Definition intersect_process_layers (river_path point_path save_path : string) : prog unit :=
  let layer_name := (ospath.splitext (ospath.basename point_path)).1 in
  let river_name := (ospath.splitext (ospath.basename river_path)).1 in
  let new_layer_name := layer_name +:+ "_" +:+ river_name in
  intersect_create_new_layer river_path point_path new_layer_name save_path.

(** The two nested loops of [executor.submit] in this script. *)
Definition intersect_submit_all (files rivers : list string) (save_path : string)
  : list future :=
  flat_map (λ file,
              map (λ river, mkFuture (intersect_process_layers river file save_path) false false)
                  rivers)
           files.

(** [main] of this script up to the last [submit]. *)
Definition intersect_main_submitted
    (os_walk : string → list (string * list string * list string))
    (input_path river_path save_path : string) (w : world) : pool :=
  let files := intersect_list_files os_walk input_path in
  let rivers := intersect_list_files os_walk river_path in
  mkPool w (intersect_submit_all files rivers save_path) 0.

(** ** Paths and the files they name *)

(** In [world] a key is a file. Several paths may name one file ([d/x]
    and [./d/x], a link): [resolve] stands for the resolution of a path
    by the operating system, and [on_files resolve p] is the program [p]
    acting on the files that its paths name. *)
Fixpoint on_files {A} (resolve : string → string) (p : prog A) : prog A :=
  match p with
  | Ret a => Ret a
  | Raise e => Raise e
  | Print l k => Print l (on_files resolve k)
  | ReadFile path k => ReadFile (resolve path) (λ c, on_files resolve (k c))
  | ToFile path c k => ToFile (resolve path) c (on_files resolve k)
  end.

Definition event_on_files (resolve : string → string) (e : event) : event :=
  match e with
  | EPrint l => EPrint l
  | ERead path => ERead (resolve path)
  | EWrite path c => EWrite (resolve path) c
  end.

(** ** [os.path] on examples *)

Example basename_nested : ospath.basename "in/a/x.geojson" = "x.geojson".
Proof. reflexivity. Qed.

Example splitext_geojson : ospath.splitext "x.geojson" = ("x", ".geojson").
Proof. reflexivity. Qed.

Example splitext_leading_dot : ospath.splitext ".geojson" = (".geojson", "").
Proof. reflexivity. Qed.

Example splitext_two_dots : ospath.splitext "a.b.geojson" = ("a.b", ".geojson").
Proof. reflexivity. Qed.

Example join_plain : ospath.join "out" "x_r.geojson" = "out/x_r.geojson".
Proof. reflexivity. Qed.

Example join_slash : ospath.join "out/" "x_r.geojson" = "out/x_r.geojson".
Proof. reflexivity. Qed.

(** ** Basic facts about running programs *)

Lemma run_bind {A B} (p : prog A) (f : A → prog B) (w : world) :
  run (bind p f) w =
  match run p w with
  | (Ok a, w') => run (f a) w'
  | (Err e, w') => (Err e, w')
  end.
Proof.
  revert w; induction p as [a|e|l k IH|path k IH|path c k IH]; intros w; simpl; auto.
Qed.

Lemma run_print_if_verbose (l : line) (w : world) :
  run (print_if_verbose l) w = (Ok tt, mkWorld (fs w) (stdout w ++ printed l)).
Proof.
  unfold print_if_verbose, printed. destruct verbose; simpl; [done|].
  rewrite app_nil_r. by destruct w.
Qed.

Lemma py_max_Rmax (a b : R) : py_max a b = Rmax a b.
Proof.
  unfold py_max, Rmax. destruct (Rlt_dec a b), (Rle_dec a b); auto; lra.
Qed.

(** ** The pandas selection returns the first minimum *)

Lemma range_index_from_labels {A} (l : list A) (start : nat) :
  (range_index_from start l).*1 = seq start (length l).
Proof.
  revert start; induction l as [|x l IH]; intros start; simpl; [done|].
  by rewrite IH.
Qed.

Lemma range_index_from_rows {A} (l : list A) (start : nat) :
  (range_index_from start l).*2 = l.
Proof.
  revert start; induction l as [|x l IH]; intros start; simpl; [done|].
  by rewrite IH.
Qed.

Lemma indexed_NoDup (g : frame) : NoDup (indexed g).*1.
Proof. unfold indexed. rewrite range_index_from_labels. apply NoDup_seq. Qed.

Lemma mask_select_rows (mask : feature → bool) (df : list (nat * feature)) :
  (mask_select mask df).*2 = filter (λ f, mask f = true) df.*2.
Proof.
  unfold mask_select. induction df as [|r df IH]; [done|].
  rewrite fmap_cons, !filter_cons.
  destruct (decide (mask r.2 = true)); [rewrite fmap_cons|]; by rewrite IH.
Qed.

Lemma mask_select_NoDup (mask : feature → bool) (df : list (nat * feature)) :
  NoDup df.*1 → NoDup (mask_select mask df).*1.
Proof.
  unfold mask_select. induction df as [|r df IH]; [done|].
  rewrite fmap_cons, filter_cons. intros [Hr Hdf]%NoDup_cons.
  destruct (decide (mask r.2 = true)); [|by apply IH].
  rewrite fmap_cons. apply NoDup_cons. split; [|by apply IH].
  intros Hin. apply Hr.
  apply list_elem_of_fmap in Hin as (y & -> & Hy).
  apply list_elem_of_filter in Hy as [_ Hy].
  apply list_elem_of_fmap. by exists y.
Qed.

(** [argmin_from best s] is [best] when nothing in [s] is strictly
    smaller, and otherwise the first entry of [s] below everything before
    it and not above anything after it. *)
Lemma argmin_from_spec (s : list (nat * R)) (best : nat * R) :
  (argmin_from best s = best ∧ Forall (λ e, (best.2 <= e.2)%R) s)
  ∨ (∃ s1 s2, s = s1 ++ argmin_from best s :: s2
       ∧ ((argmin_from best s).2 < best.2)%R
       ∧ Forall (λ e, ((argmin_from best s).2 < e.2)%R) s1
       ∧ Forall (λ e, ((argmin_from best s).2 <= e.2)%R) s2).
Proof.
  revert best; induction s as [|e s IH]; intros best; simpl.
  { left. split; [done|constructor]. }
  destruct (Rlt_dec e.2 best.2) as [Hlt|Hge].
  - destruct (IH e) as [[Heq Hall]|(s1 & s2 & Hs & Hr & H1 & H2)].
    + right. exists [], s. rewrite Heq. split_and!; [done|done|constructor|done].
    + right. exists (e :: s1), s2.
      split_and!; [simpl; by f_equal|lra|constructor; [lra|done]|done].
  - destruct (IH best) as [[Heq Hall]|(s1 & s2 & Hs & Hr & H1 & H2)].
    + left. split; [done|]. constructor; [lra|done].
    + right. exists (e :: s1), s2.
      split_and!; [simpl; by f_equal|done|constructor; [lra|done]|done].
Qed.

Lemma idxmin_spec (s : list (nat * R)) :
  s ≠ [] →
  ∃ s1 e s2, s = s1 ++ e :: s2 ∧ idxmin s = Some e.1
    ∧ Forall (λ e', (e.2 < e'.2)%R) s1
    ∧ Forall (λ e', (e.2 <= e'.2)%R) s2.
Proof.
  destruct s as [|e0 s]; [done|]. intros _. simpl.
  destruct (argmin_from_spec s e0) as [[Heq Hall]|(s1 & s2 & Hs & Hr & H1 & H2)].
  - exists [], e0, s. rewrite Heq. split_and!; [done|done|constructor|done].
  - exists (e0 :: s1), (argmin_from e0 s), s2.
    split_and!; [simpl; by f_equal|done|constructor; [lra|done]|done].
Qed.

Lemma loc_first (df1 df2 : list (nat * feature)) (label : nat) (f : feature) :
  label ∉ df1.*1 → loc (df1 ++ (label, f) :: df2) label = Some f.
Proof.
  induction df1 as [|r df1 IH]; simpl.
  - by rewrite Nat.eqb_refl.
  - intros Hnot. apply not_elem_of_cons in Hnot as [Hne Hnot].
    destruct (Nat.eqb_spec r.1 label); [congruence|by apply IH].
Qed.

(** [df.loc[distances.idxmin()]] on a non-empty frame with distinct
    labels is its first row of least distance. *)
Lemma loc_idxmin (dist : geometry → R) (df : list (nat * feature)) :
  df ≠ [] → NoDup df.*1 →
  ∃ df1 r df2, df = df1 ++ r :: df2
    ∧ idxmin (geometry_apply dist df) = Some r.1
    ∧ loc df r.1 = Some r.2
    ∧ Forall (λ r', (dist (feat_geometry r.2) < dist (feat_geometry r'.2))%R) df1
    ∧ Forall (λ r', (dist (feat_geometry r.2) <= dist (feat_geometry r'.2))%R) df2.
Proof.
  intros Hne Hnd.
  destruct (idxmin_spec (geometry_apply dist df)) as (s1 & e & s2 & Hs & Hidx & H1 & H2).
  { destruct df; [done|discriminate]. }
  unfold geometry_apply in Hs.
  apply fmap_app_inv in Hs as (df1 & df' & -> & Hdf' & ->).
  symmetry in Hdf'. apply fmap_cons_inv in Hdf' as (r & df2 & -> & -> & ->).
  exists df1, r, df2. split_and!; [done|done| | |].
  - destruct r as [label f]. apply loc_first.
    rewrite fmap_app, fmap_cons in Hnd. apply NoDup_app in Hnd as (_ & Hdisj & _).
    intros Hin. apply (Hdisj _ Hin). simpl. left.
  - apply Forall_forall. intros r' Hr'. rewrite Forall_forall in H1.
    apply (H1 (r'.1, dist (feat_geometry r'.2))).
    apply list_elem_of_fmap. by exists r'.
  - apply Forall_forall. intros r' Hr'. rewrite Forall_forall in H2.
    apply (H2 (r'.1, dist (feat_geometry r'.2))).
    apply list_elem_of_fmap. by exists r'.
Qed.

(** The run of [find_nearest_river] on a numeric radius, event by event. *)
Lemma find_nearest_river_run (point : geometry) (rivers : frame) (meters : R) (w : world) :
  let radius :=
    py_max (meters / 111000) (meters / (111000 * cos (radians (point_y point)))) in
  let rivers_in_buffer :=
    mask_select (λ f, intersects (feat_geometry f) (buffer point radius)) (indexed rivers) in
  run (find_nearest_river point rivers (PyFloat meters)) w =
  (match rivers_in_buffer with
   | [] => Ok None
   | _ :: _ =>
       match idxmin (geometry_apply (λ geom, distance point (nearest_points point geom).2)
                       rivers_in_buffer) with
       | None => Err ValueError
       | Some label =>
           match loc rivers_in_buffer label with
           | None => Err KeyError
           | Some nearest_river => Ok (Some nearest_river)
           end
       end
   end,
   mkWorld (fs w)
     (stdout w ++ printed (BufferCreated radius)
        ++ printed (RiversInBuffer (length rivers_in_buffer)))).
Proof.
  intros radius rivers_in_buffer. unfold find_nearest_river. simpl.
  rewrite run_bind, run_print_if_verbose, run_bind, run_print_if_verbose. simpl.
  fold radius. fold rivers_in_buffer. rewrite <- app_assoc.
  destruct rivers_in_buffer as [|r0 df]; [done|].
  destruct (idxmin _) as [label|]; [|done].
  by destruct (loc _ _).
Qed.


(** ** The values of the converter *)






(** ** Programs that touch no file *)

Lemma all_events_mono {A} (P Q : event → Prop) (p : prog A) :
  (∀ e, P e → Q e) → all_events P p → all_events Q p.
Proof.
  intros HPQ. induction p as [a|e|l k IH|path k IH|path c k IH]; simpl; try done.
  - intros [? ?]; auto.
  - intros [? Hk]; split; auto.
  - intros [? ?]; auto.
Qed.

Lemma all_events_bind {A B} (P : event → Prop) (p : prog A) (f : A → prog B) :
  all_events P p → (∀ a, all_events P (f a)) → all_events P (bind p f).
Proof.
  intros Hp Hf. induction p as [a|e|l k IH|path k IH|path c k IH]; simpl in *; try done.
  - destruct Hp; auto.
  - destruct Hp as [? Hk]; split; auto.
  - destruct Hp; auto.
Qed.

Lemma all_events_lift {A} (P : event → Prop) (r : result A) : all_events P (lift r).
Proof. by destruct r. Qed.

Lemma all_events_print_if_verbose (P : event → Prop) (l : line) :
  (verbose = true → P (EPrint l)) → all_events P (print_if_verbose l).
Proof. unfold print_if_verbose. destruct verbose; simpl; auto. Qed.

Lemma run_is_print {A} (p : prog A) (w : world) :
  all_events is_print p →
  run p w = (value p, mkWorld (fs w) (stdout w ++ output p)).
Proof.
  unfold value, output. revert w.
  induction p as [a|e|l k IH|path k IH|path c k IH]; intros w Hp; simpl in *.
  - rewrite app_nil_r. by destruct w.
  - rewrite app_nil_r. by destruct w.
  - destruct Hp as [_ Hk].
    rewrite (IH (mkWorld (fs w) (stdout w ++ [l])) Hk).
    rewrite (IH (mkWorld ∅ [l]) Hk). simpl. by rewrite <- app_assoc.
  - by destruct Hp.
  - by destruct Hp.
Qed.

Lemma run_value_stdout {A} (p : prog A) (files : gmap string content) (out1 out2 : list line) :
  (run p (mkWorld files out1)).1 = (run p (mkWorld files out2)).1.
Proof.
  revert files out1 out2.
  induction p as [a|e|l k IH|path k IH|path c k IH]; intros files out1 out2; simpl; auto.
Qed.

Lemma value_bind {A B} (p : prog A) (f : A → prog B) :
  all_events is_print p →
  value (bind p f) = match value p with Ok a => value (f a) | Err e => Err e end.
Proof.
  intros Hp. unfold value at 1. rewrite run_bind, (run_is_print p) by done.
  destruct (value p) as [a|e]; [|done]. simpl. apply run_value_stdout.
Qed.

Lemma output_bind {A B} (p : prog A) (f : A → prog B) :
  all_events is_print p → (∀ a, all_events is_print (f a)) →
  output (bind p f) =
  output p ++ match value p with Ok a => output (f a) | Err e => [] end.
Proof.
  intros Hp Hf. unfold output at 1. rewrite run_bind, (run_is_print p) by done.
  destruct (value p) as [a|e]; simpl; [|by rewrite app_nil_r].
  by rewrite (run_is_print (f a)).
Qed.

Lemma find_nearest_river_is_print (point : geometry) (rivers : frame) (radius : pyval) :
  all_events is_print (find_nearest_river point rivers radius).
Proof.
  unfold find_nearest_river.
  apply all_events_bind; [apply all_events_lift|]. intros degrees.
  apply all_events_bind; [by apply all_events_print_if_verbose|]. intros _.
  apply all_events_bind; [by apply all_events_print_if_verbose|]. intros _.
  destruct (mask_select _ _); [done|].
  destruct (idxmin _); [|done]. by destruct (loc _ _).
Qed.

Lemma for_each_point_is_print (points : list geometry) (river_gdf : frame) (radius : pyval)
    (selected_rivers : list feature) :
  all_events is_print (for_each_point points river_gdf radius selected_rivers).
Proof.
  revert selected_rivers. induction points as [|point points IH]; intros acc; simpl; [done|].
  destruct (isinstance_Point point).
  - apply all_events_bind; [apply find_nearest_river_is_print|].
    intros [river|]; apply IH.
  - apply all_events_bind; [by apply all_events_print_if_verbose|]. intros _. apply IH.
Qed.

Lemma select_rivers_is_print (river_gdf point_gdf : frame) (radius : pyval) :
  all_events is_print (select_rivers river_gdf point_gdf radius).
Proof.
  unfold select_rivers.
  do 3 (apply all_events_bind; [by apply all_events_print_if_verbose|]; intros _).
  apply for_each_point_is_print.
Qed.

Lemma ensure_same_crs_is_print (river_gdf point_gdf : frame) :
  all_events is_print (ensure_same_crs river_gdf point_gdf).
Proof. unfold ensure_same_crs. case_bool_decide; [apply all_events_lift|done]. Qed.

(** ** The matcher and the loop, by the kind of radius *)

Lemma find_nearest_river_float (point : geometry) (rivers : frame) (meters : R) :
  value (find_nearest_river point rivers (PyFloat meters))
  = Ok (nearest_of point rivers (PyFloat meters)).
Proof.
  unfold nearest_of, value. rewrite find_nearest_river_run. simpl.
  set (df := mask_select _ _).
  destruct df as [|r0 df'] eqn:Hdf; [done|].
  destruct (loc_idxmin (λ geom, distance point (nearest_points point geom).2) df)
    as (df1 & r & df2 & _ & Hidx & Hloc & _).
  { by rewrite Hdf. }
  { subst df. apply mask_select_NoDup, indexed_NoDup. }
  rewrite Hdf in Hidx, Hloc. by rewrite Hidx, Hloc.
Qed.

Lemma find_nearest_river_str (point : geometry) (rivers : frame) (s : string) (w : world) :
  run (find_nearest_river point rivers (PyStr s)) w = (Err TypeError, w).
Proof. done. Qed.

Lemma value_print_if_verbose (l : line) : value (print_if_verbose l) = Ok tt.
Proof. unfold value. by rewrite run_print_if_verbose. Qed.

Lemma output_print_if_verbose (l : line) : output (print_if_verbose l) = printed l.
Proof. unfold output. by rewrite run_print_if_verbose. Qed.

Lemma for_each_point_float (points : list geometry) (river_gdf : frame) (meters : R)
    (selected_rivers : list feature) :
  value (for_each_point points river_gdf (PyFloat meters) selected_rivers)
  = Ok (selected_rivers ++ flat_map (turn_selects river_gdf meters) points)
  ∧ output (for_each_point points river_gdf (PyFloat meters) selected_rivers)
    = flat_map (turn_prints river_gdf (PyFloat meters)) points.
Proof.
  revert selected_rivers.
  induction points as [|point points IH]; intros acc; simpl.
  { split; [by rewrite app_nil_r|done]. }
  unfold turn_selects at 1, turn_prints at 1. destruct (isinstance_Point point).
  - rewrite value_bind, output_bind; try apply find_nearest_river_is_print.
    2:{ intros [?|]; apply for_each_point_is_print. }
    rewrite find_nearest_river_float.
    destruct (nearest_of point river_gdf (PyFloat meters)) as [river|]; simpl.
    + destruct (IH (acc ++ [river])) as [-> ->]. by rewrite <- app_assoc.
    + by destruct (IH acc) as [-> ->].
  - rewrite value_bind, output_bind; try by apply all_events_print_if_verbose.
    2:{ intros _; apply for_each_point_is_print. }
    rewrite value_print_if_verbose, output_print_if_verbose. simpl.
    by destruct (IH acc) as [-> ->].
Qed.

(** On a string radius the first Point ends the loop with [TypeError]. *)
Lemma for_each_point_str (points : list geometry) (river_gdf : frame) (s : string)
    (selected_rivers : list feature) :
  value (for_each_point points river_gdf (PyStr s) selected_rivers)
  = if existsb isinstance_Point points then Err TypeError else Ok selected_rivers.
Proof.
  revert selected_rivers.
  induction points as [|point points IH]; intros acc; simpl; [done|].
  destruct (isinstance_Point point); simpl.
  - done.
  - rewrite value_bind by (by apply all_events_print_if_verbose).
    rewrite value_print_if_verbose. apply IH.
Qed.

(** ** The run of [create_new_layer] *)

Lemma read_file_run (path : string) (w : world) :
  run (read_file path) w =
  (match fs w !! path ≫= decode with
   | Some gdf => Ok gdf
   | None => Err (DataSourceError path)
   end, w).
Proof. unfold read_file. simpl. by destruct (fs w !! path ≫= decode). Qed.

Lemma save_selected_run (river_gdf : frame) (selected_rivers : list feature)
    (new_layer_name save_path : string) (w : world) :
  ∃ out,
    run (save_selected river_gdf selected_rivers new_layer_name save_path) w =
    (Ok tt,
     mkWorld
       match selected_rivers with
       | [] => fs w
       | _ :: _ =>
           <[ospath.join save_path (new_layer_name +:+ ".geojson")
             := encode (mkGDF (gdf_crs river_gdf) selected_rivers)]> (fs w)
       end
       (stdout w ++ out)).
Proof.
  unfold save_selected. destruct selected_rivers as [|river rest].
  - eexists. by rewrite run_print_if_verbose.
  - eexists. rewrite run_bind, run_print_if_verbose. unfold save_layer_as_geojson.
    simpl. rewrite run_print_if_verbose. simpl. by rewrite <- app_assoc.
Qed.

(** The whole task: the two reads see the files as they are when the
    task runs alone; what follows touches no file until the last write. *)
Lemma create_new_layer_run (river_path point_path new_layer_name save_path : string)
    (radius : pyval) (w : world) :
  ∃ out,
    run (create_new_layer river_path point_path new_layer_name save_path radius) w =
    match fs w !! river_path ≫= decode with
    | None => (Err (DataSourceError river_path), mkWorld (fs w) (stdout w ++ out))
    | Some river_gdf =>
        match fs w !! point_path ≫= decode with
        | None => (Err (DataSourceError point_path), mkWorld (fs w) (stdout w ++ out))
        | Some point_gdf =>
            match value (ensure_same_crs river_gdf point_gdf) with
            | Err e => (Err e, mkWorld (fs w) (stdout w ++ out))
            | Ok point_gdf' =>
                match value (select_rivers river_gdf point_gdf' radius) with
                | Err e => (Err e, mkWorld (fs w) (stdout w ++ out))
                | Ok selected_rivers =>
                    (Ok tt,
                     mkWorld
                       match selected_rivers with
                       | [] => fs w
                       | _ :: _ =>
                           <[ospath.join save_path (new_layer_name +:+ ".geojson")
                             := encode (mkGDF (gdf_crs river_gdf) selected_rivers)]> (fs w)
                       end
                       (stdout w ++ out))
                end
            end
        end
    end.
Proof.
  unfold create_new_layer.
  rewrite run_bind, run_print_if_verbose, run_bind, read_file_run. cbv beta iota.
  cbn [fs stdout].
  destruct (fs w !! river_path ≫= decode) as [river_gdf|]; [|by eexists].
  rewrite run_bind, read_file_run. cbv beta iota. cbn [fs stdout].
  destruct (fs w !! point_path ≫= decode) as [point_gdf|]; [|by eexists].
  rewrite run_bind, (run_is_print (ensure_same_crs _ _)) by apply ensure_same_crs_is_print.
  cbn [fs stdout].
  destruct (value (ensure_same_crs river_gdf point_gdf)) as [point_gdf'|e].
  2:{ eexists. by rewrite <- app_assoc. }
  rewrite run_bind, (run_is_print (select_rivers _ _ _)) by apply select_rivers_is_print.
  cbn [fs stdout].
  destruct (value (select_rivers river_gdf point_gdf' radius)) as [selected|e].
  2:{ eexists. by rewrite <- !app_assoc. }
  edestruct (save_selected_run river_gdf selected new_layer_name save_path) as [out ->].
  eexists. cbn [fs stdout]. by rewrite <- !app_assoc.
Qed.

(** ** The pipeline, step by step *)

Lemma create_new_layer_loaded (river_path point_path new_layer_name save_path : string)
    (radius : pyval) (w : world) (river_gdf point_gdf : frame) :
  fs w !! river_path ≫= decode = Some river_gdf →
  fs w !! point_path ≫= decode = Some point_gdf →
  run (create_new_layer river_path point_path new_layer_name save_path radius) w =
  run (bind (ensure_same_crs river_gdf point_gdf)
         (λ points,
            bind (select_rivers river_gdf points radius)
              (λ selected_rivers,
                 save_selected river_gdf selected_rivers new_layer_name save_path)))
      (mkWorld (fs w) (stdout w ++ printed (Processing point_path river_path))).
Proof.
  intros Hriver Hpoint. unfold create_new_layer.
  rewrite run_bind, run_print_if_verbose, run_bind, read_file_run. cbn [fs stdout].
  rewrite Hriver. cbv beta iota.
  rewrite run_bind, read_file_run. cbn [fs stdout].
  rewrite Hpoint. done.
Qed.

(** C5. With both layers loaded, the task goes on with the river frame
    as it was read and with the point frame unchanged when the two CRS
    are equal, reprojected by [to_crs] into the river frame's CRS when
    they differ (and it fails when that reprojection fails). *)
Theorem crs_reconciled (river_path point_path new_layer_name save_path : string)
    (radius : pyval) (w : world) (river_gdf point_gdf : frame) :
  fs w !! river_path ≫= decode = Some river_gdf →
  fs w !! point_path ≫= decode = Some point_gdf →
  let task := create_new_layer river_path point_path new_layer_name save_path radius in
  let goes_on_with := λ points : frame,
    ∃ out, run task w =
           run (bind (select_rivers river_gdf points radius)
                  (λ selected_rivers,
                     save_selected river_gdf selected_rivers new_layer_name save_path))
               (mkWorld (fs w) (stdout w ++ out)) in
  (gdf_crs river_gdf = gdf_crs point_gdf → goes_on_with point_gdf)
  ∧ (gdf_crs river_gdf ≠ gdf_crs point_gdf →
     match to_crs point_gdf (gdf_crs river_gdf) with
     | Ok reprojected => goes_on_with reprojected
     | Err e => (run task w).1 = Err e
     end).
Proof.
  intros Hriver Hpoint task goes_on_with. subst task goes_on_with. cbv beta.
  rewrite (create_new_layer_loaded _ _ _ _ _ _ _ _ Hriver Hpoint).
  unfold ensure_same_crs. split.
  - intros Heq. rewrite bool_decide_eq_false_2 by (intros Hne; by apply Hne).
    eexists. reflexivity.
  - intros Hne. rewrite bool_decide_eq_true_2 by done.
    destruct (to_crs point_gdf (gdf_crs river_gdf)) as [reprojected|e]; simpl.
    + eexists. reflexivity.
    + done.
Qed.

(** C6. In the step that prepares and walks the points, a MultiPolygon
    goes to the matcher as its centroid, a Point as it is, and any other
    geometry is skipped: the matcher is not run on it (its only trace is
    the verbose note) and it adds nothing to the selected rivers. *)
Theorem normalization_spec (river_gdf point_gdf : frame) (meters : R) :
  (∀ geom, isinstance_Point (centroid geom) = true) →
  let step := select_rivers river_gdf point_gdf (PyFloat meters) in
  let geoms := map feat_geometry (gdf_rows point_gdf) in
  value step
  = Ok (flat_map (λ geom, match spec_normalize geom with
                          | Matched point =>
                              option_list (nearest_of point river_gdf (PyFloat meters))
                          | Skipped _ => []
                          end) geoms)
  ∧ output step
    = printed (UsingRadius (PyFloat meters))
      ++ printed (NumberOfPoints (length (gdf_rows point_gdf)))
      ++ printed (NumberOfRivers (length (gdf_rows river_gdf)))
      ++ flat_map (λ geom, match spec_normalize geom with
                           | Matched point =>
                               output (find_nearest_river point river_gdf (PyFloat meters))
                           | Skipped geom' => printed (SkippingNonPoint geom')
                           end) geoms.
Proof.
  intros Hcentroid step geoms. subst step geoms. unfold select_rivers.
  rewrite !value_bind, !output_bind;
    repeat first [ by apply all_events_print_if_verbose
                 | apply for_each_point_is_print
                 | intros _
                 | apply all_events_bind ].
  rewrite !value_print_if_verbose, !output_print_if_verbose.
  destruct (for_each_point_float
              (map feat_geometry (gdf_rows (assign_geometry centroid_of_MultiPolygon point_gdf)))
              river_gdf meters []) as [-> ->].
  assert (Hturn : ∀ geom,
    turn_selects river_gdf meters (centroid_of_MultiPolygon geom)
    = match spec_normalize geom with
      | Matched point => option_list (nearest_of point river_gdf (PyFloat meters))
      | Skipped _ => []
      end
    ∧ turn_prints river_gdf (PyFloat meters) (centroid_of_MultiPolygon geom)
      = match spec_normalize geom with
        | Matched point => output (find_nearest_river point river_gdf (PyFloat meters))
        | Skipped geom' => printed (SkippingNonPoint geom')
        end).
  { intros geom. unfold turn_selects, turn_prints, centroid_of_MultiPolygon, spec_normalize.
    destruct (isinstance_MultiPolygon geom).
    - by rewrite Hcentroid.
    - by destruct (isinstance_Point geom). }
  simpl. rewrite !map_map. simpl.
  split; [f_equal|do 3 f_equal].
  - induction (gdf_rows point_gdf) as [|r rows IH]; simpl; [done|].
    by rewrite IH, (proj1 (Hturn _)).
  - induction (gdf_rows point_gdf) as [|r rows IH]; simpl; [done|].
    by rewrite IH, (proj2 (Hturn _)).
Qed.

(** C7. When the loop collects no river, the task writes no file and
    ends without an exception, so the loop of [main] has no error to
    print for it. *)
Theorem no_match_no_output (river_path point_path save_path : string) (radius : pyval)
    (w : world) (river_gdf point_gdf point_gdf' : frame) :
  fs w !! river_path ≫= decode = Some river_gdf →
  fs w !! point_path ≫= decode = Some point_gdf →
  value (ensure_same_crs river_gdf point_gdf) = Ok point_gdf' →
  value (select_rivers river_gdf point_gdf' radius) = Ok [] →
  let outcome := run (process_layers river_path point_path save_path radius) w in
  outcome.1 = Ok tt
  ∧ fs outcome.2 = fs w
  ∧ on_completed (lift outcome.1) = [].
Proof.
  intros Hriver Hpoint Hcrs Hsel outcome. subst outcome. unfold process_layers.
  edestruct create_new_layer_run as [out ->].
  rewrite Hriver, Hpoint, Hcrs, Hsel. done.
Qed.

(** C8. When the loop collects rivers, the task writes one file: the
    frame of exactly those rivers, one per matched point in the order of
    the points and with repetitions, in the CRS of the river frame, at
    [save_path] under the name made of the two file stems. *)
Theorem matched_rivers_written (river_path point_path save_path : string) (meters : R)
    (w : world) (river_gdf point_gdf point_gdf' : frame) :
  fs w !! river_path ≫= decode = Some river_gdf →
  fs w !! point_path ≫= decode = Some point_gdf →
  value (ensure_same_crs river_gdf point_gdf) = Ok point_gdf' →
  let points :=
    map feat_geometry (gdf_rows (assign_geometry centroid_of_MultiPolygon point_gdf')) in
  let selected_rivers := flat_map (turn_selects river_gdf meters) points in
  let new_layer_name :=
    (ospath.splitext (ospath.basename point_path)).1 +:+ "_"
      +:+ (ospath.splitext (ospath.basename river_path)).1 in
  selected_rivers ≠ [] →
  ∃ out,
    run (process_layers river_path point_path save_path (PyFloat meters)) w =
    (Ok tt,
     mkWorld
       (<[ospath.join save_path (new_layer_name +:+ ".geojson")
          := encode (mkGDF (gdf_crs river_gdf) selected_rivers)]> (fs w))
       (stdout w ++ out)).
Proof.
  intros Hriver Hpoint Hcrs points selected_rivers new_layer_name Hne.
  unfold process_layers. fold new_layer_name.
  edestruct create_new_layer_run as [out ->]. exists out.
  rewrite Hriver, Hpoint, Hcrs.
  assert (value (select_rivers river_gdf point_gdf' (PyFloat meters)) = Ok selected_rivers)
    as ->.
  { unfold select_rivers.
    rewrite !value_bind;
      repeat first [ by apply all_events_print_if_verbose
                   | apply for_each_point_is_print
                   | intros _
                   | apply all_events_bind ].
    rewrite !value_print_if_verbose.
    destruct (for_each_point_float points river_gdf meters []) as [Hvalue _].
    unfold points in Hvalue. by rewrite Hvalue. }
  by destruct selected_rivers.
Qed.

(** ** One step of a program *)

Lemma step_event {A} (P : event → Prop) (p p' : prog A) (w w' : world) :
  all_events P p → step p w = Some (p', w') →
  ∃ e, P e ∧ w' = apply_event e w ∧ all_events P p'.
Proof.
  destruct p as [a|e|l k|path k|path c k]; simpl; intros Hp Hstep; try done.
  - destruct Hp as [Hl Hk]. injection Hstep as <- <-. by exists (EPrint l).
  - destruct Hp as [Hr Hk]. injection Hstep as <- <-. exists (ERead path). auto.
  - destruct Hp as [Hw Hk]. injection Hstep as <- <-. by exists (EWrite path c).
Qed.

Lemma step_run {A} (p p' : prog A) (w w' : world) :
  step p w = Some (p', w') → run p w = run p' w'.
Proof.
  destruct p as [a|e|l k|path k|path c k]; simpl; intros Hstep; try done;
    by injection Hstep as <- <-.
Qed.

Lemma step_unfinished {A} (p : prog A) (w : world) :
  finished p = false → is_Some (step p w).
Proof. destruct p; simpl; intros; try done; eauto. Qed.

(** ** Tasks with disjoint footprints do not feel each other *)

Section Isolation.

Variables reads writes : nat → string → Prop.

(** A program sees only the files in its footprint. *)
Lemma run_frame (i : nat) (p : prog unit) (w1 w2 : world) :
  all_events (footprint reads writes i) p →
  (∀ path, reads i path ∨ writes i path → fs w1 !! path = fs w2 !! path) →
  (run p w1).1 = (run p w2).1
  ∧ ∀ path, reads i path ∨ writes i path →
      fs (run p w1).2 !! path = fs (run p w2).2 !! path.
Proof.
  revert w1 w2.
  induction p as [a|e|l k IH|path k IH|path c k IH]; intros w1 w2 Hp Hagree; simpl in *.
  - done.
  - done.
  - destruct Hp as [_ Hk]. by apply IH.
  - destruct Hp as [Hr Hk]. rewrite (Hagree path) by auto. by apply IH.
  - destruct Hp as [Hw Hk]. apply IH; [done|]. simpl. intros path' Hpath'.
    destruct (decide (path = path')) as [->|Hne].
    + by rewrite !lookup_insert_eq.
    + rewrite !lookup_insert_ne by done. by apply Hagree.
Qed.

Lemma isolated_init (s0 : pool) :
  (∀ i f0, futures s0 !! i = Some f0 → all_events (footprint reads writes i) (remaining f0)) →
  isolated reads writes s0 s0.
Proof.
  intros Hfp. split_and!; [done| |done].
  intros i f f0 Hf Hf0. assert (f = f0) as -> by congruence. eauto.
Qed.

Lemma isolated_exec (max_workers : nat) (a : action) (s0 s s' : pool) :
  disjoint_footprints reads writes (length (futures s0)) →
  isolated reads writes s0 s → exec max_workers a s = Some s' → isolated reads writes s0 s'.
Proof.
  intros Hdisj (Hlen & Hthreads & Hframe) Hexec.
  destruct a as [j|j]; simpl in Hexec.
  - destruct (futures s !! j) as [fj|] eqn:Hj; [|done].
    destruct (may_work _ _ _ _); [|done].
    destruct (step (remaining fj) (shared s)) as [[p' w']|] eqn:Hstep; [|done].
    injection Hexec as <-. simpl.
    assert (j < length (futures s0)) as Hjlt.
    { rewrite <- Hlen. by eapply lookup_lt_Some. }
    destruct (lookup_lt_is_Some_2 (futures s0) j Hjlt) as [fj0 Hj0].
    destruct (Hthreads j fj fj0 Hj Hj0) as (Hfpj & Hresj & Hfilesj).
    destruct (step_event _ _ _ _ _ Hfpj Hstep) as (e & He & -> & Hfpj').
    unfold isolated. cbn [futures shared pbar]. split_and!.
    + by rewrite length_insert.
    + intros i f f0 Hf Hf0. destruct (decide (i = j)) as [->|Hij].
      * rewrite list_lookup_insert_eq in Hf by (by eapply lookup_lt_Some).
        injection Hf as <-. simpl. assert (f0 = fj0) as -> by congruence.
        rewrite <- (step_run _ _ _ _ Hstep). auto.
      * rewrite list_lookup_insert_ne in Hf by done.
        destruct (Hthreads i f f0 Hf Hf0) as (Hfpi & Hresi & Hfilesi).
        assert (i < length (futures s0)) as Hilt by (by eapply lookup_lt_Some).
        destruct (run_frame i (remaining f) (apply_event e (shared s)) (shared s) Hfpi)
          as [Hres Hfiles].
        { intros path Hpath. destruct e as [l|path'|path' c]; simpl; try done.
          destruct (Hdisj i j path' Hilt Hjlt Hij He) as [Hnr Hnw].
          rewrite lookup_insert_ne; [done|]. intros ->. tauto. }
        split_and!; [done|congruence|].
        intros path Hpath. rewrite Hfiles by auto. by apply Hfilesi.
    + intros path Hpath. rewrite <- (Hframe path Hpath).
      destruct e as [l|path'|path' c]; simpl; try done.
      rewrite lookup_insert_ne; [done|]. intros ->. by apply (Hpath j).
  - destruct (futures s !! j) as [fj|] eqn:Hj; [|done].
    destruct (finished (remaining fj) && negb (collected fj)); [|done].
    injection Hexec as <-. unfold isolated. cbn [futures shared pbar]. split_and!.
    + by rewrite length_insert.
    + intros i f f0 Hf Hf0.
      assert (∃ f1, futures s !! i = Some f1 ∧ remaining f = remaining f1)
        as (f1 & Hf1 & ->).
      { destruct (decide (i = j)) as [->|Hij].
        - rewrite list_lookup_insert_eq in Hf by (by eapply lookup_lt_Some).
          injection Hf as <-. eauto.
        - rewrite list_lookup_insert_ne in Hf by done. eauto. }
      destruct (Hthreads i f1 f0 Hf1 Hf0) as (Hfpi & Hresi & Hfilesi).
      destruct (run_frame i (remaining f1)
                  (mkWorld (fs (shared s)) (stdout (shared s) ++ on_completed (remaining fj)))
                  (shared s) Hfpi) as [Hres Hfiles]; [done|].
      split_and!; [done|congruence|].
      intros path Hpath. rewrite Hfiles by auto. by apply Hfilesi.
    + done.
Qed.

Lemma isolated_exec_all (max_workers : nat) (sched : list action) (s0 s s' : pool) :
  disjoint_footprints reads writes (length (futures s0)) →
  isolated reads writes s0 s → exec_all max_workers sched s = Some s' → isolated reads writes s0 s'.
Proof.
  intros Hdisj. revert s. induction sched as [|a sched IH]; intros s Hiso; simpl.
  - by intros [= <-].
  - destruct (exec max_workers a s) as [s1|] eqn:Hexec; [|done].
    apply IH. by eapply isolated_exec.
Qed.

(** Whatever the schedule, a task that has finished ended as it ends
    when run alone from the initial world, and left in the files it
    writes what it leaves there when run alone. *)
Lemma pool_isolation (max_workers : nat) (sched : list action) (s0 s : pool) :
  disjoint_footprints reads writes (length (futures s0)) →
  (∀ i f0, futures s0 !! i = Some f0 → all_events (footprint reads writes i) (remaining f0)) →
  exec_all max_workers sched s0 = Some s →
  (∀ i f f0, futures s !! i = Some f → futures s0 !! i = Some f0 →
     finished (remaining f) = true →
     remaining f = lift (run (remaining f0) (shared s0)).1
     ∧ ∀ path, writes i path →
         fs (shared s) !! path = fs (run (remaining f0) (shared s0)).2 !! path)
  ∧ (∀ path, (∀ i, i < length (futures s0) → ¬ writes i path) →
       fs (shared s) !! path = fs (shared s0) !! path).
Proof.
  intros Hdisj Hfp Hexec.
  destruct (isolated_exec_all _ _ _ _ _ Hdisj (isolated_init _ Hfp) Hexec)
    as (Hlen & Hthreads & Hframe).
  split; [|done]. intros i f f0 Hf Hf0 Hfin.
  destruct (Hthreads i f f0 Hf Hf0) as (_ & Hres & Hfiles).
  destruct (remaining f) as [[]|e| | |] eqn:Hrem; try done; simpl in *.
  - split; [by rewrite <- Hres|]. intros path Hpath. by rewrite <- Hfiles.
  - split; [by rewrite <- Hres|]. intros path Hpath. by rewrite <- Hfiles.
Qed.

End Isolation.

(** ** The events of one task *)

Lemma all_events_bind_returned {A B} (P : event → Prop) (p : prog A) (f : A → prog B) :
  all_events P p → (∀ a, can_return p a → all_events P (f a)) → all_events P (bind p f).
Proof.
  intros Hp Hf. induction p as [a|e|l k IH|path k IH|path c k IH]; simpl in *; try done.
  - auto.
  - destruct Hp; auto.
  - destruct Hp as [? Hk]; split; [done|]. intros c. apply IH; [done|]. eauto.
  - destruct Hp; auto.
Qed.

Lemma can_return_bind {A B} (p : prog A) (f : A → prog B) (b : B) :
  can_return (bind p f) b → ∃ a, can_return p a ∧ can_return (f a) b.
Proof.
  induction p as [a|e|l k IH|path k IH|path c k IH]; simpl; try done.
  - eauto.
  - intros [c (a & ? & ?)%IH]. eauto.
Qed.

Lemma can_return_print_if_verbose (l : line) (u : unit) :
  can_return (print_if_verbose l) u.
Proof. unfold print_if_verbose. destruct u. by destruct verbose. Qed.

(** The loop returns more than it was given only on a numeric radius. *)
Lemma for_each_point_returns (points : list geometry) (river_gdf : frame) (radius : pyval)
    (selected_rivers result : list feature) :
  can_return (for_each_point points river_gdf radius selected_rivers) result →
  is_number radius ∨ result = selected_rivers.
Proof.
  destruct radius as [s|meters]; [|by left]. intros Hcan. right.
  revert selected_rivers Hcan.
  induction points as [|point points IH]; intros acc; simpl; [done|].
  destruct (isinstance_Point point); [done|].
  intros (_ & _ & Hret)%can_return_bind. by apply IH.
Qed.

(** Every event of a task is a verbose print, a read of one of its two
    inputs, or, on a numeric radius only, the write of its output. *)
Lemma process_layers_events (P : event → Prop) (river_path point_path save_path : string)
    (radius : pyval) :
  (verbose = true → ∀ l, P (EPrint l)) →
  P (ERead river_path) → P (ERead point_path) →
  (is_number radius → ∀ c,
     P (EWrite (ospath.join save_path
                  (((ospath.splitext (ospath.basename point_path)).1 +:+ "_"
                      +:+ (ospath.splitext (ospath.basename river_path)).1)
                     +:+ ".geojson")) c)) →
  all_events P (process_layers river_path point_path save_path radius).
Proof.
  intros Hprint Hriver Hpoint Hwrite.
  assert (Hpv : ∀ l, all_events P (print_if_verbose l)).
  { intros l. apply all_events_print_if_verbose. intros Hv. by apply Hprint. }
  assert (Hmatcher : ∀ point rivers, all_events P (find_nearest_river point rivers radius)).
  { intros point rivers. unfold find_nearest_river.
    apply all_events_bind; [apply all_events_lift|]. intros degrees.
    apply all_events_bind; [apply Hpv|]. intros _.
    apply all_events_bind; [apply Hpv|]. intros _.
    destruct (mask_select _ _); [done|].
    destruct (idxmin _); [|done]. by destruct (loc _ _). }
  assert (Hloop : ∀ points rivers acc, all_events P (for_each_point points rivers radius acc)).
  { intros points rivers. induction points as [|point points IH]; intros acc; simpl; [done|].
    destruct (isinstance_Point point).
    - apply all_events_bind; [apply Hmatcher|]. intros [river|]; apply IH.
    - apply all_events_bind; [apply Hpv|]. intros _. apply IH. }
  unfold process_layers, create_new_layer.
  apply all_events_bind; [apply Hpv|]. intros _.
  apply all_events_bind.
  { unfold read_file. simpl. split; [done|]. intros c. by destruct (c ≫= decode). }
  intros river_gdf. apply all_events_bind.
  { unfold read_file. simpl. split; [done|]. intros c. by destruct (c ≫= decode). }
  intros point_gdf. apply all_events_bind.
  { unfold ensure_same_crs. case_bool_decide; [apply all_events_lift|done]. }
  intros point_gdf'. apply all_events_bind_returned.
  { unfold select_rivers. do 3 (apply all_events_bind; [apply Hpv|]; intros _). apply Hloop. }
  intros selected Hret. unfold select_rivers in Hret.
  do 3 apply can_return_bind in Hret as (_ & _ & Hret).
  apply for_each_point_returns in Hret.
  unfold save_selected. destruct selected as [|river rest]; [apply Hpv|].
  destruct Hret as [Hnum|?]; [|done].
  apply all_events_bind; [apply Hpv|]. intros _.
  unfold save_layer_as_geojson. simpl. split; [by apply Hwrite|apply Hpv].
Qed.

(** ** Invariants of the pool *)

Lemma submit_all_pairs (files rivers : list string) (save_path : string) (radius : pyval) :
  submit_all files rivers save_path radius
  = map (λ task, mkFuture (process_layers task.2 task.1 save_path radius) false false)
        (pairs files rivers).
Proof.
  unfold submit_all, pairs. induction files as [|file files IH]; simpl; [done|].
  by rewrite map_app, map_map, IH.
Qed.

(** What a pool step does to the shared world: one event of a task, or
    the error line of the loop over [as_completed]. *)
Lemma exec_shared (P : event → Prop) (max_workers : nat) (a : action) (s s' : pool) :
  Forall (λ f, all_events P (remaining f)) (futures s) →
  exec max_workers a s = Some s' →
  Forall (λ f, all_events P (remaining f)) (futures s')
  ∧ ((∃ e, P e ∧ shared s' = apply_event e (shared s))
     ∨ (∃ f, f ∈ futures s
          ∧ shared s' = mkWorld (fs (shared s))
                          (stdout (shared s) ++ on_completed (remaining f)))).
Proof.
  intros Hall Hexec. destruct a as [j|j]; simpl in Hexec.
  - destruct (futures s !! j) as [fj|] eqn:Hj; [|done].
    destruct (may_work _ _ _ _); [|done].
    destruct (step (remaining fj) (shared s)) as [[p' w']|] eqn:Hstep; [|done].
    injection Hexec as <-. cbn [futures shared].
    assert (all_events P (remaining fj)) as Hfj.
    { rewrite Forall_forall in Hall. apply Hall. by eapply list_elem_of_lookup_2. }
    destruct (step_event _ _ _ _ _ Hfj Hstep) as (e & He & -> & Hp').
    split; [|left; eauto]. by apply Forall_insert.
  - destruct (futures s !! j) as [fj|] eqn:Hj; [|done].
    destruct (finished (remaining fj) && negb (collected fj)); [|done].
    injection Hexec as <-. cbn [futures shared].
    assert (fj ∈ futures s) as Hin by (by eapply list_elem_of_lookup_2).
    split; [|right; eauto]. apply Forall_insert; [done|].
    rewrite Forall_forall in Hall. simpl. by apply Hall.
Qed.

Lemma filter_insert_length (P : future → Prop) `{∀ f, Decision (P f)}
    (fts : list future) (j : nat) (f f' : future) :
  fts !! j = Some f →
  length (filter P (<[j := f']> fts)) + (if decide (P f) then 1 else 0)
  = length (filter P fts) + (if decide (P f') then 1 else 0).
Proof.
  revert j. induction fts as [|g fts IH]; intros j Hj; [done|].
  destruct j as [|j]; simpl in *.
  - injection Hj as ->. rewrite !filter_cons.
    destruct (decide (P f)), (decide (P f')); simpl; lia.
  - rewrite !filter_cons. specialize (IH j Hj).
    destruct (decide (P g)); simpl; lia.
Qed.

Lemma exec_bookkeeping (max_workers : nat) (a : action) (s s' : pool) :
  collected_are_finished s → pbar_counts s →
  exec max_workers a s = Some s' →
  collected_are_finished s' ∧ pbar_counts s' ∧ length (futures s') = length (futures s).
Proof.
  unfold collected_are_finished, pbar_counts. intros Hcf Hpb Hexec.
  destruct a as [j|j]; simpl in Hexec.
  - destruct (futures s !! j) as [fj|] eqn:Hj; [|done].
    destruct (may_work _ _ _ _) eqn:Hmay; [|done].
    destruct (step (remaining fj) (shared s)) as [[p' w']|] eqn:Hstep; [|done].
    injection Hexec as <-. cbn [futures pbar].
    assert (collected fj = false) as Hnc.
    { rewrite Forall_forall in Hcf.
      specialize (Hcf fj (list_elem_of_lookup_2 _ _ _ Hj)).
      unfold may_work in Hmay. apply andb_prop in Hmay as [Hnf _].
      destruct (collected fj); [|done]. rewrite Hcf in Hnf; done. }
    split_and!.
    + apply Forall_insert; [done|]. simpl. by rewrite Hnc.
    + pose proof (filter_insert_length (λ f, collected f = true) (futures s) j fj
                    (mkFuture p' true (collected fj)) Hj) as Hlen.
      simpl in Hlen. rewrite Hpb.
      destruct (decide (collected fj = true)); lia.
    + by rewrite length_insert.
  - destruct (futures s !! j) as [fj|] eqn:Hj; [|done].
    destruct (finished (remaining fj) && negb (collected fj)) eqn:Hok; [|done].
    apply andb_prop in Hok as [Hfin Hnc]. apply negb_true_iff in Hnc.
    injection Hexec as <-. cbn [futures pbar]. split_and!.
    + by apply Forall_insert.
    + pose proof (filter_insert_length (λ f, collected f = true) (futures s) j fj
                    (mkFuture (remaining fj) (started fj) true) Hj) as Hlen.
      simpl in Hlen. rewrite Hpb.
      destruct (decide (collected fj = true)); [congruence|].
      destruct (decide (true = true)); [lia|done].
    + by rewrite length_insert.
Qed.

Lemma exec_all_bookkeeping (max_workers : nat) (sched : list action) (s s' : pool) :
  collected_are_finished s → pbar_counts s →
  exec_all max_workers sched s = Some s' →
  collected_are_finished s' ∧ pbar_counts s' ∧ length (futures s') = length (futures s).
Proof.
  revert s. induction sched as [|a sched IH]; intros s Hcf Hpb; simpl.
  - by intros [= <-].
  - destruct (exec max_workers a s) as [s1|] eqn:Hexec; [|done]. intros Hrest.
    destruct (exec_bookkeeping _ _ _ _ Hcf Hpb Hexec) as (Hcf1 & Hpb1 & Hlen1).
    destruct (IH s1 Hcf1 Hpb1 Hrest) as (? & ? & ?). split_and!; [done|done|congruence].
Qed.

Lemma exec_all_shared (P : event → Prop) (Q : world → Prop) (max_workers : nat)
    (sched : list action) (s s' : pool) :
  (∀ e w, P e → Q w → Q (apply_event e w)) →
  (∀ w p, Q w → Q (mkWorld (fs w) (stdout w ++ on_completed p))) →
  Forall (λ f, all_events P (remaining f)) (futures s) →
  Q (shared s) →
  exec_all max_workers sched s = Some s' → Q (shared s').
Proof.
  intros Hevent Hcollect. revert s.
  induction sched as [|a sched IH]; intros s Hall HQ; simpl.
  - by intros [= <-].
  - destruct (exec max_workers a s) as [s1|] eqn:Hexec; [|done].
    destruct (exec_shared P _ _ _ _ Hall Hexec) as [Hall1 Hshared].
    apply IH; [done|].
    destruct Hshared as [(e & He & ->)|(f & _ & ->)]; auto.
Qed.

Lemma submitted_bookkeeping (tasks : list (prog unit)) (w : world) :
  collected_are_finished (submitted tasks w) ∧ pbar_counts (submitted tasks w).
Proof.
  unfold collected_are_finished, pbar_counts, submitted. simpl. split.
  - apply Forall_fmap, Forall_forall. by intros p _.
  - induction tasks as [|p tasks IH]; [done|]. simpl. by rewrite filter_cons.
Qed.

Lemma running_none (fts : list future) :
  Forall (λ f, ¬ (started f = true ∧ finished (remaining f) = false)) fts →
  running fts = 0.
Proof.
  unfold running. induction 1 as [|f fts Hf _ IH]; [done|].
  rewrite filter_cons. destruct (decide _) as [Hyes|]; [|done].
  destruct Hf. apply andb_prop in Hyes as [? ?%negb_true_iff]. done.
Qed.

(** While a future is still to be yielded, something can happen: a
    finished task can be collected, a started task can go on, and when no
    task holds a thread the first unfinished one in the queue can start. *)
Lemma pool_progress (max_workers : nat) (s : pool) :
  0 < max_workers → all_collected s = false →
  ∃ a s', exec max_workers a s = Some s'.
Proof.
  intros Hk Hnot.
  destruct (list_find (λ f, finished (remaining f) = true ∧ collected f = false) (futures s))
    as [[j f]|] eqn:Hfind1.
  { apply list_find_Some in Hfind1 as (Hj & [Hfin Hnc] & _).
    exists (Collect j). simpl. rewrite Hj, Hfin, Hnc. eauto. }
  apply list_find_None in Hfind1.
  destruct (list_find (λ f, started f = true ∧ finished (remaining f) = false) (futures s))
    as [[j f]|] eqn:Hfind2.
  { apply list_find_Some in Hfind2 as (Hj & [Hst Hnf] & _).
    exists (Work j). simpl. rewrite Hj. unfold may_work. rewrite Hnf, Hst. simpl.
    destruct (step_unfinished (remaining f) (shared s) Hnf) as [[p' w'] ->]. eauto. }
  apply list_find_None in Hfind2.
  destruct (list_find (λ f, finished (remaining f) = false) (futures s))
    as [[j f]|] eqn:Hfind3.
  { apply list_find_Some in Hfind3 as (Hj & Hnf & Hfirst).
    exists (Work j). simpl. rewrite Hj. unfold may_work. rewrite Hnf.
    rewrite (running_none _ Hfind2).
    assert (forallb (λ g, started g || finished (remaining g)) (take j (futures s)) = true)
      as ->.
    { apply forallb_forall. intros g Hg. apply list_elem_of_In, elem_of_take in Hg
        as (i & Hi & Hlt).
      specialize (Hfirst i g Hi Hlt). destruct (finished (remaining g)); [|done].
      by rewrite orb_true_r. }
    assert ((0 <? max_workers) = true) as -> by (by apply Nat.ltb_lt).
    rewrite orb_true_r. simpl.
    destruct (step_unfinished (remaining f) (shared s) Hnf) as [[p' w'] ->]. eauto. }
  apply list_find_None in Hfind3. exfalso.
  unfold all_collected in Hnot. apply not_true_iff_false in Hnot. apply Hnot.
  apply forallb_forall. intros f Hf. apply list_elem_of_In in Hf.
  rewrite Forall_forall in Hfind1, Hfind3.
  specialize (Hfind1 f Hf). specialize (Hfind3 f Hf).
  destruct (collected f); [done|]. destruct (finished (remaining f)); [|done].
  by destruct Hfind1.
Qed.

(** C4, as the code has it. Whatever the schedule: a finished task,
    failed or not, can be collected, and collecting it changes no file
    and no task, and prints the exception (without the task's name) only
    when [verbose]; a step for one task leaves the other tasks as they
    were; while a future is uncollected the pool can go on; and once all
    are collected every task has finished and the bar has counted each. *)
Theorem failures_caught_and_joined (max_workers : nat) (tasks : list (prog unit))
    (w : world) (sched : list action) (s : pool) :
  exec_all max_workers sched (submitted tasks w) = Some s →
  (∀ j f, futures s !! j = Some f → finished (remaining f) = true → collected f = false →
     ∃ s', exec max_workers (Collect j) s = Some s'
       ∧ fs (shared s') = fs (shared s)
       ∧ stdout (shared s')
         = stdout (shared s)
           ++ match remaining f with
              | Raise e => if verbose then [ErrorOccurred e] else []
              | _ => []
              end
       ∧ map remaining (futures s') = map remaining (futures s))
  ∧ (∀ j s', exec max_workers (Work j) s = Some s' ∨ exec max_workers (Collect j) s = Some s' →
       ∀ i, i ≠ j → futures s' !! i = futures s !! i)
  ∧ (0 < max_workers → all_collected s = false → ∃ a s', exec max_workers a s = Some s')
  ∧ (all_collected s = true →
       Forall (λ f, finished (remaining f) = true) (futures s) ∧ pbar s = length tasks).
Proof.
  intros Hexec.
  destruct (submitted_bookkeeping tasks w) as [Hcf0 Hpb0].
  destruct (exec_all_bookkeeping _ _ _ _ Hcf0 Hpb0 Hexec) as (Hcf & Hpb & Hlen).
  split_and!.
  - intros j f Hj Hfin Hnc. eexists. simpl. rewrite Hj, Hfin, Hnc. simpl.
    split_and!; [done|done|done|].
    cbn [futures]. apply list_eq. intros i.
    rewrite !list_lookup_fmap. destruct (decide (i = j)) as [->|Hij].
    + rewrite list_lookup_insert_eq by (by eapply lookup_lt_Some). by rewrite Hj.
    + by rewrite list_lookup_insert_ne.
  - intros j s' Hstep i Hij. destruct Hstep as [Hstep|Hstep]; simpl in Hstep.
    + destruct (futures s !! j) as [fj|]; [|done].
      destruct (may_work _ _ _ _); [|done].
      destruct (step _ _) as [[p' w']|]; [|done].
      injection Hstep as <-. simpl. by rewrite list_lookup_insert_ne.
    + destruct (futures s !! j) as [fj|]; [|done].
      destruct (_ && _); [|done].
      injection Hstep as <-. simpl. by rewrite list_lookup_insert_ne.
  - apply pool_progress.
  - intros Hall. unfold all_collected in Hall.
    assert (Forall (λ f, collected f = true) (futures s)) as Hall'.
    { apply Forall_forall. intros f Hf. apply list_elem_of_In in Hf.
      by apply (proj1 (forallb_forall _ _) Hall). }
    split.
    + unfold collected_are_finished in Hcf. apply Forall_forall. intros f Hf.
      rewrite Forall_forall in Hcf, Hall'. auto.
    + unfold pbar_counts in Hpb. rewrite Hpb.
      assert (filter (λ f, collected f = true) (futures s) = futures s) as ->.
      { clear -Hall'. induction Hall' as [|f fts Hf _ IH]; [done|].
        by rewrite filter_cons, decide_True, IH. }
      rewrite Hlen. unfold submitted. simpl. by rewrite length_map.
Qed.

(** ** The batch: every task of [main] against the others *)

Lemma submit_all_lookup (files rivers : list string) (save_path : string) (radius : pyval)
    (i : nat) (f0 : future) :
  submit_all files rivers save_path radius !! i = Some f0 ↔
  ∃ task, pairs files rivers !! i = Some task
    ∧ f0 = mkFuture (process_layers task.2 task.1 save_path radius) false false.
Proof.
  rewrite submit_all_pairs, list_lookup_fmap. split.
  - intros Hi. destruct (pairs files rivers !! i) as [task|]; [|done].
    injection Hi as <-. eauto.
  - intros (task & -> & ->). done.
Qed.

(** Tasks whose outputs are distinct files, none of them an input of the
    batch, end as they end alone; on a string radius nothing is required,
    for then no task writes. *)
Lemma batch_isolation (files rivers : list string) (save_path : string) (radius : pyval)
    (w : world) (max_workers : nat) (sched : list action) (s : pool) :
  (is_number radius →
     NoDup (map (output_file save_path) (pairs files rivers))
     ∧ ∀ task task', task ∈ pairs files rivers → task' ∈ pairs files rivers →
         output_file save_path task ≠ task'.1 ∧ output_file save_path task ≠ task'.2) →
  exec_all max_workers sched (mkPool w (submit_all files rivers save_path radius) 0) = Some s →
  (∀ i f task, futures s !! i = Some f → pairs files rivers !! i = Some task →
     finished (remaining f) = true →
     remaining f = lift (run (process_layers task.2 task.1 save_path radius) w).1
     ∧ (is_number radius →
          fs (shared s) !! output_file save_path task
          = fs (run (process_layers task.2 task.1 save_path radius) w).2
              !! output_file save_path task))
  ∧ (∀ path, (is_number radius → path ∉ map (output_file save_path) (pairs files rivers)) →
       fs (shared s) !! path = fs w !! path).
Proof.
  intros Hnames Hexec.
  set (tasks := pairs files rivers) in *.
  set (reads := λ (i : nat) (path : string),
         ∃ task, tasks !! i = Some task ∧ (path = task.2 ∨ path = task.1)).
  set (writes := λ (i : nat) (path : string),
         is_number radius ∧ ∃ task, tasks !! i = Some task ∧ path = output_file save_path task).
  destruct (pool_isolation reads writes max_workers sched
              (mkPool w (submit_all files rivers save_path radius) 0) s)
    as [Hthreads Hframe]; [| |exact Hexec|].
  - intros i j path _ _ Hij (Hnum & tj & Htj & ->).
    destruct (Hnames Hnum) as [Hnd Hio]. split.
    + intros (ti & Hti & Hpath).
      destruct (Hio tj ti) as [H1 H2]; [by eapply list_elem_of_lookup_2..|].
      destruct Hpath; congruence.
    + intros (_ & ti & Hti & Heq). apply Hij.
      eapply (NoDup_lookup _ i j (output_file save_path ti) Hnd);
        rewrite list_lookup_fmap.
      * by rewrite Hti.
      * rewrite Htj. simpl. by rewrite Heq.
  - cbn [futures]. intros i f0 (task & Htask & ->)%submit_all_lookup. cbn [remaining].
    apply process_layers_events; simpl.
    + done.
    + exists task. auto.
    + exists task. auto.
    + intros Hnum c. split; [done|]. exists task. split; [done|].
      by destruct task.
  - split.
    + intros i f task Hf Htask Hfin.
      destruct (Hthreads i f (mkFuture (process_layers task.2 task.1 save_path radius) false false)
                  Hf) as [Hres Hfiles]; [|done|].
      { cbn [futures]. apply submit_all_lookup. eauto. }
      split; [done|]. intros Hnum. apply Hfiles. split; [done|]. eauto.
    + intros path Hpath. apply Hframe. intros i _ (Hnum & task & Htask & ->).
      apply (Hpath Hnum). apply list_elem_of_fmap. exists task.
      split; [done|]. by eapply list_elem_of_lookup_2.
Qed.

(** The tasks called with a radius of either kind, as a caller of
    [process_layers] other than [main] may do, over a file system in
    which every file has one spelling: when the output paths of the batch
    are distinct and none of them is an input, any two complete runs,
    whatever the number of threads, leave the same files with the same
    contents. *)
Theorem distinct_outputs_same_files (files rivers : list string) (save_path : string)
    (radius : pyval) (w : world) (max_workers1 max_workers2 : nat)
    (sched1 sched2 : list action) (s1 s2 : pool) :
  NoDup (map (output_file save_path) (pairs files rivers)) →
  (∀ task task', task ∈ pairs files rivers → task' ∈ pairs files rivers →
     output_file save_path task ≠ task'.1 ∧ output_file save_path task ≠ task'.2) →
  exec_all max_workers1 sched1 (mkPool w (submit_all files rivers save_path radius) 0) = Some s1 →
  all_collected s1 = true →
  exec_all max_workers2 sched2 (mkPool w (submit_all files rivers save_path radius) 0) = Some s2 →
  all_collected s2 = true →
  fs (shared s1) = fs (shared s2).
Proof.
  intros Hnd Hio Hexec1 Hall1 Hexec2 Hall2.
  assert (Hfinished : ∀ max_workers sched s,
    exec_all max_workers sched (mkPool w (submit_all files rivers save_path radius) 0) = Some s →
    all_collected s = true →
    ∀ i task, pairs files rivers !! i = Some task →
      ∃ f, futures s !! i = Some f ∧ finished (remaining f) = true).
  { intros max_workers sched s Hexec Hall i task Htask.
    assert (collected_are_finished (mkPool w (submit_all files rivers save_path radius) 0)
            ∧ pbar_counts (mkPool w (submit_all files rivers save_path radius) 0))
      as [Hcf0 Hpb0].
    { pose proof (submitted_bookkeeping
                    (map (λ task, process_layers task.2 task.1 save_path radius)
                         (pairs files rivers)) w) as Hbk.
      unfold submitted in Hbk. rewrite map_map in Hbk.
      rewrite submit_all_pairs. exact Hbk. }
    destruct (exec_all_bookkeeping _ _ _ _ Hcf0 Hpb0 Hexec) as (Hcf & _ & Hlen).
    cbn [futures] in Hlen.
    destruct (lookup_lt_is_Some_2 (futures s) i) as [f Hf].
    { rewrite Hlen, submit_all_pairs, length_map. by eapply lookup_lt_Some. }
    exists f. split; [done|].
    unfold collected_are_finished in Hcf. rewrite Forall_forall in Hcf.
    apply Hcf; [by eapply list_elem_of_lookup_2|].
    unfold all_collected in Hall. rewrite forallb_forall in Hall.
    apply Hall, list_elem_of_In. by eapply list_elem_of_lookup_2. }
  destruct (batch_isolation files rivers save_path radius w _ _ _ (λ _, conj Hnd Hio) Hexec1)
    as [Hthreads1 Hframe1].
  destruct (batch_isolation files rivers save_path radius w _ _ _ (λ _, conj Hnd Hio) Hexec2)
    as [Hthreads2 Hframe2].
  apply map_eq. intros path.
  destruct radius as [str|meters].
  { rewrite Hframe1, Hframe2 by (by intros []). done. }
  destruct (decide (path ∈ map (output_file save_path) (pairs files rivers))) as [Hin|Hout].
  - apply list_elem_of_fmap in Hin as (task & -> & Htask).
    apply list_elem_of_lookup_1 in Htask as [i Hi].
    destruct (Hfinished _ _ _ Hexec1 Hall1 i task Hi) as (f1 & Hf1 & Hfin1).
    destruct (Hfinished _ _ _ Hexec2 Hall2 i task Hi) as (f2 & Hf2 & Hfin2).
    destruct (Hthreads1 i f1 task Hf1 Hi Hfin1) as [_ Hout1].
    destruct (Hthreads2 i f2 task Hf2 Hi Hfin2) as [_ Hout2].
    by rewrite (Hout1 I), (Hout2 I).
  - by rewrite Hframe1, Hframe2.
Qed.


(** ** [main]: the radius of the command line *)

Lemma select_rivers_str (river_gdf point_gdf : frame) (s : string) :
  (∀ geom, isinstance_Point (centroid geom) = true) →
  Exists is_point_row (gdf_rows point_gdf) →
  value (select_rivers river_gdf point_gdf (PyStr s)) = Err TypeError.
Proof.
  intros Hcentroid Hpoint. unfold select_rivers.
  rewrite !value_bind;
    repeat first [ by apply all_events_print_if_verbose
                 | apply for_each_point_is_print
                 | intros _
                 | apply all_events_bind ].
  rewrite !value_print_if_verbose, for_each_point_str.
  assert (existsb isinstance_Point
            (map feat_geometry (gdf_rows (assign_geometry centroid_of_MultiPolygon point_gdf)))
          = true) as ->; [|done].
  apply existsb_exists. apply Exists_exists in Hpoint as (r & Hr & Hpt).
  exists (centroid_of_MultiPolygon (feat_geometry r)). split.
  - apply list_elem_of_In. simpl. rewrite map_map. simpl.
    apply list_elem_of_fmap. by exists r.
  - unfold centroid_of_MultiPolygon. by destruct (isinstance_MultiPolygon _).
Qed.

(** C3. [main] submits every task with the radius as the string argparse
    stored; [meters_to_degrees] raises [TypeError] on it; so, whatever
    the schedule, a task whose point layer holds a Point ends in an
    exception ([TypeError] when both layers load and the CRS step passes),
    no file is ever written, and without [verbose] nothing is printed. *)
Theorem cli_radius_is_a_string
    (os_walk : string → list (string * list string * list string))
    (input_path river_path save_path radius : string)
    (w : world) (max_workers : nat) (sched : list action) (s : pool) :
  (∀ geom, isinstance_Point (centroid geom) = true) →
  (∀ g c g', to_crs g c = Ok g' →
     Exists is_point_row (gdf_rows g) → Exists is_point_row (gdf_rows g')) →
  exec_all max_workers sched (main_submitted os_walk input_path river_path save_path radius w)
  = Some s →
  let tasks := pairs (list_files os_walk input_path) (list_files os_walk river_path) in
  map remaining (futures (main_submitted os_walk input_path river_path save_path radius w))
  = map (λ task, process_layers task.2 task.1 save_path (PyStr radius)) tasks
  ∧ (∀ latitude, meters_to_degrees (PyStr radius) latitude = Err TypeError)
  ∧ (∀ i f task point_gdf,
       futures s !! i = Some f → tasks !! i = Some task →
       finished (remaining f) = true →
       fs w !! task.1 ≫= decode = Some point_gdf →
       Exists is_point_row (gdf_rows point_gdf) →
       ∃ e, remaining f = Raise e
         ∧ ∀ river_gdf point_gdf',
             fs w !! task.2 ≫= decode = Some river_gdf →
             value (ensure_same_crs river_gdf point_gdf) = Ok point_gdf' →
             e = TypeError)
  ∧ fs (shared s) = fs w
  ∧ (verbose = false → stdout (main_returns s) = stdout w).
Proof.
  intros Hcentroid Hto_crs Hexec tasks. unfold main_submitted in *. cbn [futures].
  destruct (batch_isolation _ _ save_path (PyStr radius) w _ _ _ (λ H : False, match H with end)
              Hexec) as [Hthreads Hframe].
  split_and!.
  - by rewrite submit_all_pairs, map_map.
  - done.
  - intros i f task point_gdf Hf Htask Hfin Hpoint Hhas.
    destruct (Hthreads i f task Hf Htask Hfin) as [-> _].
    unfold process_layers. edestruct create_new_layer_run as [out ->].
    rewrite Hpoint.
    destruct (fs w !! task.2 ≫= decode) as [river_gdf|] eqn:Hriver.
    2:{ eexists. split; [done|]. intros ? ? [=]. }
    destruct (value (ensure_same_crs river_gdf point_gdf)) as [point_gdf'|e] eqn:Hcrs.
    2:{ eexists. split; [done|]. intros ? ? [= <-] ?. congruence. }
    rewrite select_rivers_str; [|done|].
    + exists TypeError. done.
    + unfold ensure_same_crs in Hcrs. case_bool_decide.
      * destruct (to_crs point_gdf (gdf_crs river_gdf)) as [g'|e] eqn:Hg'; [|done].
        injection Hcrs as <-. by eapply Hto_crs.
      * by injection Hcrs as <-.
  - apply map_eq. intros path. apply Hframe. by intros [].
  - intros Hquiet. unfold main_returns, printed. rewrite Hquiet. simpl.
    rewrite app_nil_r.
    apply (exec_all_shared (λ e, ¬ is_print e) (λ w', stdout w' = stdout w)
             max_workers sched
             (mkPool w (submit_all (list_files os_walk input_path) (list_files os_walk river_path)
                          save_path (PyStr radius)) 0) s); [| | |done|exact Hexec].
    + intros [l|path|path c] w' He Hw'; simpl; [by destruct He|done|done].
    + intros w' p Hw'. simpl. unfold on_completed, printed. rewrite Hquiet.
      destruct p; by rewrite app_nil_r.
    + cbn [futures]. rewrite submit_all_pairs. apply Forall_fmap, Forall_forall.
      intros task _. simpl.
      apply process_layers_events; simpl; [intros Hv; congruence|tauto|tauto|by intros []].
Qed.

(** ** A single river in the buffer is the river returned *)

Lemma nearest_of_single (point : geometry) (river : feature) (crs : option string)
    (meters : R) :
  intersects (feat_geometry river)
    (buffer point
       (Rmax (meters / 111000) (meters / (111000 * cos (radians (point_y point))))))
  = true →
  nearest_of point (mkGDF crs [river]) (PyFloat meters) = Some river.
Proof.
  intros Hin. unfold nearest_of, value. rewrite find_nearest_river_run. simpl.
  rewrite py_max_Rmax. unfold mask_select, indexed. simpl.
  by rewrite filter_cons, decide_True by done.
Qed.

(** ** Schedules that run one task to its end *)

Lemma exec_all_app (max_workers : nat) (sched1 sched2 : list action) (s : pool) :
  exec_all max_workers (sched1 ++ sched2) s
  = exec_all max_workers sched1 s ≫= exec_all max_workers sched2.
Proof.
  revert s. induction sched1 as [|a sched1 IH]; intros s; simpl; [done|].
  destruct (exec max_workers a s) as [s1|]; [apply IH|done].
Qed.

Lemma exec_all_cons (max_workers : nat) (a : action) (sched : list action) (s : pool) :
  exec_all max_workers (a :: sched) s
  = match exec max_workers a s with
    | Some s' => exec_all max_workers sched s'
    | None => None
    end.
Proof. done. Qed.

(** A task that holds a thread can be run to its end with nothing in
    between: the pool then holds what its run alone leaves. *)
Lemma work_to_end (max_workers i : nat) (p : prog unit) (s : pool) (f : future) :
  futures s !! i = Some f → remaining f = p → started f = true →
  ∃ sched,
    exec_all max_workers sched s
    = Some (mkPool (run p (shared s)).2
              (<[i := mkFuture (lift (run p (shared s)).1) true (collected f)]> (futures s))
              (pbar s)).
Proof.
  revert s f.
  assert (Hend : ∀ (q : prog unit) (s : pool) (f : future),
    futures s !! i = Some f → remaining f = q → started f = true → finished q = true →
    ∃ sched, exec_all max_workers sched s
      = Some (mkPool (run q (shared s)).2
                (<[i := mkFuture (lift (run q (shared s)).1) true (collected f)]> (futures s))
                (pbar s))).
  { intros q s [q' st c] Hi Hq Hst Hfin. simpl in *. subst q' st. exists []. simpl.
    destruct q as [[]|e| | |]; try done; simpl;
      rewrite list_insert_id by done; by destruct s. }
  assert (Hstep : ∀ (q q' : prog unit) (s : pool) (f : future) (w' : world),
    futures s !! i = Some f → remaining f = q → started f = true →
    step q (shared s) = Some (q', w') →
    exec max_workers (Work i) s
    = Some (mkPool w' (<[i := mkFuture q' true (collected f)]> (futures s)) (pbar s))).
  { intros q q' s f w' Hi Hq Hst Hstep. simpl. rewrite Hi. unfold may_work.
    rewrite Hq, Hst, Hstep.
    assert (finished q = false) as -> by (destruct q; simpl in *; done). done. }
  assert (Hgo : ∀ (q q' : prog unit) (s : pool) (f : future) (w' : world),
    futures s !! i = Some f → remaining f = q → started f = true →
    step q (shared s) = Some (q', w') →
    (∀ s1 f1, futures s1 !! i = Some f1 → remaining f1 = q' → started f1 = true →
       ∃ sched, exec_all max_workers sched s1
         = Some (mkPool (run q' (shared s1)).2
                   (<[i := mkFuture (lift (run q' (shared s1)).1) true (collected f1)]>
                      (futures s1))
                   (pbar s1))) →
    ∃ sched, exec_all max_workers sched s
      = Some (mkPool (run q (shared s)).2
                (<[i := mkFuture (lift (run q (shared s)).1) true (collected f)]> (futures s))
                (pbar s))).
  { intros q q' s f w' Hi Hq Hst Hqstep IH.
    destruct (IH (mkPool w' (<[i := mkFuture q' true (collected f)]> (futures s)) (pbar s))
                (mkFuture q' true (collected f))) as [sched Hsched]; [|done|done|].
    { simpl. apply list_lookup_insert_eq. by eapply lookup_lt_Some. }
    exists (Work i :: sched).
    rewrite exec_all_cons, (Hstep q q' s f w' Hi Hq Hst Hqstep), Hsched. simpl.
    by rewrite (step_run _ _ _ _ Hqstep), list_insert_insert_eq. }
  induction p as [a|e|l k IH|path k IH|path c k IH]; intros s f Hi Hp Hst.
  - by apply Hend.
  - by apply Hend.
  - eapply Hgo; [done..| |]; [reflexivity|]. intros s1 f1. apply IH.
  - eapply Hgo; [done..| |]; [reflexivity|]. intros s1 f1. apply IH.
  - eapply Hgo; [done..| |]; [reflexivity|]. intros s1 f1. apply IH.
Qed.

(** The first step of a task that waits in the queue. *)
Lemma work_first (max_workers i : nat) (s : pool) (f : future) (p' : prog unit) (w' : world) :
  futures s !! i = Some f →
  forallb (λ g, started g || finished (remaining g)) (take i (futures s)) = true →
  running (futures s) < max_workers →
  step (remaining f) (shared s) = Some (p', w') →
  exec max_workers (Work i) s
  = Some (mkPool w' (<[i := mkFuture p' true (collected f)]> (futures s)) (pbar s)).
Proof.
  intros Hi Hqueue Hfree Hstep. simpl. rewrite Hi. unfold may_work.
  rewrite Hqueue, Hstep.
  assert (finished (remaining f) = false) as ->
    by (destruct (remaining f); simpl in *; done).
  apply Nat.ltb_lt in Hfree as ->. simpl. by rewrite orb_true_r.
Qed.

(** A task taken from the queue and run to its end in one go. *)
Lemma work_alone (max_workers i : nat) (s : pool) (f : future) :
  futures s !! i = Some f →
  forallb (λ g, started g || finished (remaining g)) (take i (futures s)) = true →
  running (futures s) < max_workers →
  finished (remaining f) = false →
  ∃ sched,
    exec_all max_workers sched s
    = Some (mkPool (run (remaining f) (shared s)).2
              (<[i := mkFuture (lift (run (remaining f) (shared s)).1) true (collected f)]>
                 (futures s))
              (pbar s)).
Proof.
  intros Hi Hqueue Hfree Hnf.
  destruct (step_unfinished (remaining f) (shared s) Hnf) as [[p' w'] Hstep].
  pose proof (work_first _ _ _ _ _ _ Hi Hqueue Hfree Hstep) as Hfirst.
  destruct (work_to_end max_workers i p'
              (mkPool w' (<[i := mkFuture p' true (collected f)]> (futures s)) (pbar s))
              (mkFuture p' true (collected f))) as [sched Hsched]; [|done|done|].
  { simpl. apply list_lookup_insert_eq. by eapply lookup_lt_Some. }
  exists (Work i :: sched). rewrite exec_all_cons, Hfirst, Hsched. simpl.
  by rewrite (step_run _ _ _ _ Hstep), list_insert_insert_eq.
Qed.

Lemma select_rivers_float (river_gdf point_gdf : frame) (meters : R) :
  value (select_rivers river_gdf point_gdf (PyFloat meters))
  = Ok (flat_map (turn_selects river_gdf meters)
          (map feat_geometry (gdf_rows (assign_geometry centroid_of_MultiPolygon point_gdf)))).
Proof.
  unfold select_rivers.
  rewrite !value_bind;
    repeat first [ by apply all_events_print_if_verbose
                 | apply for_each_point_is_print
                 | intros _
                 | apply all_events_bind ].
  rewrite !value_print_if_verbose.
  by destruct (for_each_point_float
                 (map feat_geometry
                    (gdf_rows (assign_geometry centroid_of_MultiPolygon point_gdf)))
                 river_gdf meters []) as [-> _].
Qed.

(** ** Two tasks: one after the other, and the second overtaking *)

Lemma collect_finished (max_workers i : nat) (s : pool) (f : future) :
  futures s !! i = Some f → finished (remaining f) = true → collected f = false →
  exec max_workers (Collect i) s
  = Some (mkPool (mkWorld (fs (shared s)) (stdout (shared s) ++ on_completed (remaining f)))
            (<[i := mkFuture (remaining f) (started f) true]> (futures s))
            (S (pbar s))).
Proof. intros Hi Hfin Hnc. simpl. by rewrite Hi, Hfin, Hnc. Qed.

Lemma finished_lift (r : result unit) : finished (lift r) = true.
Proof. by destruct r. Qed.

(** With any number of threads the first task can run to its end
    before the second starts; with one thread nothing else can happen. *)
Lemma two_tasks_in_order (max_workers : nat) (p q : prog unit) (w : world) :
  0 < max_workers → finished p = false → finished q = false →
  ∃ sched s,
    exec_all max_workers sched (submitted [p; q] w) = Some s
    ∧ all_collected s = true
    ∧ fs (shared s) = fs (run q (run p w).2).2.
Proof.
  intros Hk Hp Hq.
  destruct (work_alone max_workers 0 (submitted [p; q] w) (mkFuture p false false))
    as [sched0 Hsched0]; [done|done|by simpl|done|].
  simpl in Hsched0.
  set (s1 := mkPool (run p w).2
               [mkFuture (lift (run p w).1) true false; mkFuture q false false] 0) in *.
  destruct (work_alone max_workers 1 s1 (mkFuture q false false))
    as [sched1 Hsched1]; [done| | |done|].
  { simpl. done. }
  { unfold running. simpl. rewrite !filter_cons. simpl.
    rewrite finished_lift. simpl. done. }
  simpl in Hsched1.
  set (s2 := mkPool (run q (run p w).2).2
               [mkFuture (lift (run p w).1) true false;
                mkFuture (lift (run q (run p w).2).1) true false] 0) in *.
  exists (sched0 ++ sched1 ++ [Collect 0; Collect 1]). eexists.
  rewrite exec_all_app, Hsched0. simpl. rewrite exec_all_app, Hsched1. subst s2. simpl.
  rewrite !finished_lift. simpl. rewrite !finished_lift. simpl.
  split; [reflexivity|]. done.
Qed.

(** With two threads or more the second task can run from its start to
    its end between the first event of the first task and its second. *)
Lemma two_tasks_overtaking (max_workers : nat) (p p' q : prog unit) (w w' : world) :
  1 < max_workers → step p w = Some (p', w') → finished q = false →
  ∃ sched s,
    exec_all max_workers sched (submitted [p; q] w) = Some s
    ∧ all_collected s = true
    ∧ fs (shared s) = fs (run p' (run q w').2).2.
Proof.
  intros Hk Hstep Hq.
  assert (finished p = false) as Hp by (destruct p; simpl in *; done).
  set (s1 := mkPool w' [mkFuture p' true false; mkFuture q false false] 0).
  assert (exec max_workers (Work 0) (submitted [p; q] w) = Some s1) as Hfirst.
  { apply (work_first max_workers 0 (submitted [p; q] w) (mkFuture p false false) p' w');
      [done|done| |done].
    unfold running. simpl. lia. }
  destruct (work_alone max_workers 1 s1 (mkFuture q false false))
    as [sched1 Hsched1]; [done| | |done|].
  { simpl. done. }
  { unfold running. simpl. rewrite !filter_cons. simpl.
    destruct (decide _); simpl; lia. }
  simpl in Hsched1.
  set (s2 := mkPool (run q w').2
               [mkFuture p' true false; mkFuture (lift (run q w').1) true false] 0) in *.
  destruct (work_to_end max_workers 0 p' s2 (mkFuture p' true false))
    as [sched2 Hsched2]; [done..|].
  simpl in Hsched2.
  exists (Work 0 :: sched1 ++ sched2 ++ [Collect 0; Collect 1]). eexists.
  rewrite exec_all_cons, Hfirst.
  rewrite exec_all_app, Hsched1. simpl. rewrite exec_all_app, Hsched2. simpl.
  assert (finished (lift (run p' (run q w').2).1) = true) as Hf1 by apply finished_lift.
  assert (finished (lift (run q w').1) = true) as Hf2 by apply finished_lift.
  rewrite Hf1. simpl. rewrite Hf2. simpl.
  split; [reflexivity|]. done.
Qed.

Lemma nearest_of_none (point : geometry) (river : feature) (crs : option string)
    (meters : R) :
  intersects (feat_geometry river)
    (buffer point
       (Rmax (meters / 111000) (meters / (111000 * cos (radians (point_y point))))))
  = false →
  nearest_of point (mkGDF crs [river]) (PyFloat meters) = None.
Proof.
  intros Hout. unfold nearest_of, value. rewrite find_nearest_river_run. simpl.
  rewrite py_max_Rmax. unfold mask_select, indexed. simpl.
  rewrite filter_cons, decide_False; [done|].
  intros Hin. simpl in Hin. congruence.
Qed.

(** * Further properties of the scripts *)

(** ** Strings: concatenation, slices and the last occurrence of a character *)

Lemma str_app_cons (a : ascii) (s t : string) : String a s +:+ t = String a (s +:+ t).
Proof. reflexivity. Qed.

Lemma str_app_nil_l (t : string) : "" +:+ t = t.
Proof. reflexivity. Qed.

Lemma str_app_nil_r (s : string) : s +:+ "" = s.
Proof. induction s as [|a s IH]; [done|]. by rewrite str_app_cons, IH. Qed.

Lemma str_app_assoc (s t u : string) : (s +:+ t) +:+ u = s +:+ t +:+ u.
Proof. induction s as [|a s IH]; [done|]. by rewrite !str_app_cons, IH. Qed.

Lemma str_length_app (s t : string) :
  String.length (s +:+ t) = String.length s + String.length t.
Proof. induction s as [|a s IH]; [done|]. rewrite str_app_cons. simpl. by rewrite IH. Qed.

Lemma str_contains_app (c : ascii) (s t : string) :
  str_contains c (s +:+ t) = str_contains c s || str_contains c t.
Proof.
  induction s as [|a s IH]; [done|]. rewrite str_app_cons. simpl.
  by rewrite IH, orb_assoc.
Qed.

Lemma drop_str_app (s t : string) : ospath.drop_str (String.length s) (s +:+ t) = t.
Proof. induction s as [|a s IH]; [by destruct t|]. by rewrite str_app_cons. Qed.

Lemma take_str_app (s t : string) : ospath.take_str (String.length s) (s +:+ t) = s.
Proof.
  induction s as [|a s IH]; [by destruct t|]. rewrite str_app_cons. simpl. by rewrite IH.
Qed.

Lemma take_drop_str (n : nat) (s : string) : ospath.take_str n s +:+ ospath.drop_str n s = s.
Proof.
  revert s. induction n as [|n IH]; intros [|a s]; simpl; try done.
  by rewrite str_app_cons, IH.
Qed.

Lemma str_contains_take (c : ascii) (n : nat) (s : string) :
  str_contains c s = false → str_contains c (ospath.take_str n s) = false.
Proof.
  intros Hs. rewrite <- (take_drop_str n s), str_contains_app in Hs.
  by apply orb_false_elim in Hs as [? _].
Qed.

Lemma rfind_from_app (c : ascii) (s t : string) (i last : Z) :
  ospath.rfind_from c (s +:+ t) i last
  = ospath.rfind_from c t (i + Z.of_nat (String.length s)) (ospath.rfind_from c s i last).
Proof.
  revert i last. induction s as [|a s IH]; intros i last.
  - rewrite str_app_nil_l. simpl. by rewrite Z.add_0_r.
  - rewrite str_app_cons. simpl ospath.rfind_from at 1. rewrite IH. simpl.
    f_equal. lia.
Qed.

Lemma rfind_from_absent (c : ascii) (s : string) (i last : Z) :
  str_contains c s = false → ospath.rfind_from c s i last = last.
Proof.
  revert i last. induction s as [|a s IH]; intros i last Hs; [done|].
  simpl in Hs. apply orb_false_elim in Hs as [Ha Hs]. simpl. rewrite Ha. by apply IH.
Qed.

(** [rfind] is the place of the last occurrence. *)
Lemma rfind_last (c : ascii) (s t : string) :
  str_contains c t = false →
  ospath.rfind c (s +:+ String c t) = Z.of_nat (String.length s).
Proof.
  intros Ht. unfold ospath.rfind. rewrite rfind_from_app. simpl.
  rewrite Ascii.eqb_refl. by rewrite rfind_from_absent.
Qed.

Lemma rfind_absent (c : ascii) (s : string) :
  str_contains c s = false → ospath.rfind c s = (-1)%Z.
Proof. apply rfind_from_absent. Qed.

Lemma str_last_occurrence (c : ascii) (s : string) :
  str_contains c s = false
  ∨ ∃ s1 s2, s = s1 +:+ String c s2 ∧ str_contains c s2 = false.
Proof.
  induction s as [|a s IH]; [by left|].
  destruct IH as [Hs|(s1 & s2 & -> & Hs2)].
  - destruct (Ascii.eqb a c) eqn:Ha.
    + right. apply Ascii.eqb_eq in Ha as ->. by exists "", s.
    + left. simpl. by rewrite Ha.
  - right. by exists (String a s1), s2.
Qed.

(** ** [os.path.basename], [join] and [splitext] on names without a separator *)

Lemma basename_plain (s : string) :
  str_contains ospath.sep s = false → ospath.basename s = s.
Proof. intros Hs. unfold ospath.basename. by rewrite rfind_absent. Qed.

Lemma basename_after_sep (s t : string) :
  str_contains ospath.sep t = false → ospath.basename (s +:+ String ospath.sep t) = t.
Proof.
  intros Ht. unfold ospath.basename. rewrite rfind_last by done.
  replace (Z.to_nat (Z.of_nat (String.length s) + 1)) with (String.length (s +:+ "/")).
  - change (String ospath.sep t) with ("/" +:+ t). rewrite <- str_app_assoc.
    apply drop_str_app.
  - rewrite str_length_app. simpl. lia.
Qed.

Lemma basename_has_no_sep (s : string) :
  str_contains ospath.sep (ospath.basename s) = false.
Proof.
  destruct (str_last_occurrence ospath.sep s) as [Hs|(s1 & s2 & -> & Hs2)].
  - by rewrite basename_plain.
  - by rewrite basename_after_sep.
Qed.

Lemma basename_app (s t : string) :
  str_contains ospath.sep t = false →
  ospath.basename (s +:+ t) = ospath.basename s +:+ t.
Proof.
  intros Ht. destruct (str_last_occurrence ospath.sep s) as [Hs|(s1 & s2 & -> & Hs2)].
  - rewrite !basename_plain; [done..|]. by rewrite str_contains_app, Hs, Ht.
  - rewrite str_app_assoc, str_app_cons, !basename_after_sep; [done..|].
    by rewrite str_contains_app, Hs2, Ht.
Qed.

Lemma endswith_sep_split (s : string) :
  ospath.endswith_sep s = true → ∃ s', s = s' +:+ "/".
Proof.
  induction s as [|a s IH]; [done|]. simpl. destruct s as [|b s].
  - intros ->%Ascii.eqb_eq. by exists "".
  - intros [s' ->]%IH. by exists (String a s').
Qed.

Lemma startswith_sep_contains (s : string) :
  str_contains ospath.sep s = false → ospath.startswith_sep s = false.
Proof. destruct s as [|a s]; [done|]. simpl. by intros [? _]%orb_false_elim. Qed.

(** [join] puts at most one separator between its components. *)
Lemma join_cases (a b : string) :
  ospath.startswith_sep b = false →
  ospath.join a b
  = if bool_decide (a = "") || ospath.endswith_sep a then a +:+ b else a +:+ "/" +:+ b.
Proof. intros Hb. unfold ospath.join. by rewrite Hb. Qed.

Lemma basename_join (a b : string) :
  str_contains ospath.sep b = false → ospath.basename (ospath.join a b) = b.
Proof.
  intros Hb. rewrite join_cases by by apply startswith_sep_contains.
  case_bool_decide as Ha; simpl.
  - subst a. by rewrite str_app_nil_l, basename_plain.
  - destruct (ospath.endswith_sep a) eqn:Hend.
    + apply endswith_sep_split in Hend as [a' ->].
      rewrite str_app_assoc. by apply basename_after_sep.
    + by apply basename_after_sep.
Qed.

Lemma splitext_app (p : string) : (ospath.splitext p).1 +:+ (ospath.splitext p).2 = p.
Proof.
  unfold ospath.splitext. case_bool_decide; [|apply str_app_nil_r].
  destruct (ospath.has_non_dot _); [apply take_drop_str|apply str_app_nil_r].
Qed.

(** The root [splitext] gives is the path or a slice of it from the start. *)
Lemma splitext_root_prefix (p : string) :
  ∃ n, (ospath.splitext p).1 = ospath.take_str n p.
Proof.
  unfold ospath.splitext.
  assert (p = ospath.take_str (String.length p) p) as Hp.
  { rewrite <- (str_app_nil_r p) at 3. by rewrite take_str_app. }
  case_bool_decide; [|by exists (String.length p)].
  destruct (ospath.has_non_dot _); [by eexists|by exists (String.length p)].
Qed.

(** A name with no separator, an extension with one dot, at its start. *)
Lemma splitext_name (stem ext : string) :
  str_contains ospath.sep (stem +:+ String ospath.extsep ext) = false →
  str_contains ospath.extsep ext = false →
  ospath.splitext (stem +:+ String ospath.extsep ext)
  = if ospath.has_non_dot stem then (stem, String ospath.extsep ext)
    else (stem +:+ String ospath.extsep ext, "").
Proof.
  intros Hsep Hext. unfold ospath.splitext.
  rewrite (rfind_absent ospath.sep) by done. rewrite rfind_last by done.
  rewrite bool_decide_true by lia. simpl. rewrite Nat2Z.id, Nat.sub_0_r.
  rewrite take_str_app, drop_str_app. done.
Qed.

(** ** [str.lower] and [str.endswith] *)

Lemma lower_app (s t : string) : lower (s +:+ t) = lower s +:+ lower t.
Proof. induction s as [|a s IH]; [done|]. rewrite !str_app_cons. simpl. by rewrite IH. Qed.

Lemma lower_drop_str (n : nat) (s : string) :
  lower (ospath.drop_str n s) = ospath.drop_str n (lower s).
Proof. revert s. induction n as [|n IH]; intros [|a s]; simpl; auto. Qed.

Lemma lower_length (s : string) : String.length (lower s) = String.length s.
Proof. induction s as [|a s IH]; [done|]. simpl. by rewrite IH. Qed.

(** Lowering a character neither makes a dot nor unmakes one. *)
Lemma lower_ascii_extsep (a : ascii) :
  Ascii.eqb (lower_ascii a) ospath.extsep = Ascii.eqb a ospath.extsep.
Proof. destruct a as [[] [] [] [] [] [] [] []]; vm_compute; reflexivity. Qed.

Lemma lower_contains_extsep (s : string) :
  str_contains ospath.extsep (lower s) = str_contains ospath.extsep s.
Proof.
  induction s as [|a s IH]; [done|]. simpl. by rewrite lower_ascii_extsep, IH.
Qed.

Lemma endswith_split (s suffix : string) :
  endswith s suffix = true →
  s = ospath.take_str (String.length s - String.length suffix) s +:+ suffix.
Proof.
  unfold endswith. intros [_ Heq%String.eqb_eq]%andb_true_iff.
  rewrite <- Heq at 2. by rewrite take_drop_str.
Qed.

Lemma endswith_app (s suffix : string) : endswith (s +:+ suffix) suffix = true.
Proof.
  unfold endswith. rewrite str_length_app. apply andb_true_iff. split.
  - apply Nat.leb_le. lia.
  - replace (String.length s + String.length suffix - String.length suffix)
      with (String.length s) by lia.
    rewrite drop_str_app. apply String.eqb_refl.
Qed.

(** What ends with a suffix ends, lowered, with the lowered suffix. *)
Lemma endswith_lower (s suffix : string) :
  endswith s suffix = true → endswith (lower s) (lower suffix) = true.
Proof.
  intros Hs%endswith_split. rewrite Hs, lower_app. apply endswith_app.
Qed.

(** A name that [list_files] keeps ends with a dot and seven characters
    that are no dots. *)
Lemma geojson_extension (file : string) :
  endswith (lower file) ".geojson" = true →
  ∃ ext, file = ospath.take_str (String.length file - 8) file +:+ String ospath.extsep ext
         ∧ str_contains ospath.extsep ext = false
         ∧ ospath.drop_str (String.length file - 8) file = String ospath.extsep ext.
Proof.
  unfold endswith. intros [_ Heq%String.eqb_eq]%andb_true_iff.
  rewrite lower_length, <- lower_drop_str in Heq. simpl String.length in Heq.
  destruct (ospath.drop_str (String.length file - 8) file) as [|a ext] eqn:Hdrop; [done|].
  simpl in Heq. injection Heq as Ha Hext.
  assert (a = ospath.extsep) as ->.
  { apply Ascii.eqb_eq. rewrite <- lower_ascii_extsep, Ha. done. }
  exists ext. split_and!; [|by rewrite <- lower_contains_extsep, Hext|done].
  by rewrite <- Hdrop, take_drop_str.
Qed.

(** ** The names [process_layers] makes *)

Lemma splitext_root_has_no_sep (p : string) :
  str_contains ospath.sep p = false →
  str_contains ospath.sep (ospath.splitext p).1 = false.
Proof.
  intros Hp. destruct (splitext_root_prefix p) as [n ->]. by apply str_contains_take.
Qed.

Lemma layer_file_has_no_sep (point_path river_path : string) :
  str_contains ospath.sep
    (((ospath.splitext (ospath.basename point_path)).1 +:+ "_"
        +:+ (ospath.splitext (ospath.basename river_path)).1) +:+ ".geojson") = false.
Proof.
  rewrite !str_contains_app.
  rewrite !splitext_root_has_no_sep by apply basename_has_no_sep. done.
Qed.

(** X8. The file a task writes lies directly in [save_path], whatever
    directories the two inputs were found in: its base name is the name
    made of the two stems, and it is [save_path] and that name with one
    separator between them where [save_path] does not bring its own. *)
Theorem output_file_directly_in_save_path (save_path : string) (task : string * string) :
  let name :=
    ((ospath.splitext (ospath.basename task.1)).1 +:+ "_"
       +:+ (ospath.splitext (ospath.basename task.2)).1) +:+ ".geojson" in
  ospath.basename (output_file save_path task) = name
  ∧ str_contains ospath.sep name = false
  ∧ output_file save_path task
    = if bool_decide (save_path = "") || ospath.endswith_sep save_path
      then save_path +:+ name
      else save_path +:+ "/" +:+ name.
Proof.
  intros name. pose proof (layer_file_has_no_sep task.1 task.2) as Hname.
  fold name in Hname. unfold output_file. fold name. split_and!.
  - by apply basename_join.
  - done.
  - apply join_cases. by apply startswith_sep_contains.
Qed.

(** X9. The name of the output forgets the directories of the inputs:
    files of one name found in different directories of the recursive
    walk are given the same output file. *)
Theorem output_file_ignores_directories (save_path root root' river_root river_root' : string)
    (file river : string) :
  str_contains ospath.sep file = false →
  str_contains ospath.sep river = false →
  output_file save_path (ospath.join root file, ospath.join river_root river)
  = output_file save_path (ospath.join root' file, ospath.join river_root' river).
Proof.
  intros Hfile Hriver. unfold output_file. simpl. by rewrite !basename_join.
Qed.

(** X10. For a file that [list_files] keeps, found under any root: the
    stem [process_layers] takes of its path is the file name without its
    last eight characters (the extension, in whatever case), unless only
    dots come before the extension; then it is the whole name, extension
    included. *)
Theorem listed_file_stem (root file : string) :
  str_contains ospath.sep file = false →
  endswith (lower file) ".geojson" = true →
  let stem := ospath.take_str (String.length file - 8) file in
  ospath.splitext (ospath.basename (ospath.join root file))
  = if ospath.has_non_dot stem
    then (stem, ospath.drop_str (String.length file - 8) file)
    else (file, "").
Proof.
  intros Hsep (ext & Hfile & Hext & Hdrop)%geojson_extension stem.
  rewrite basename_join by done. rewrite Hdrop. fold stem in Hfile.
  rewrite Hfile at 1. rewrite splitext_name; [|by rewrite <- Hfile|done].
  by rewrite <- Hfile.
Qed.

(** ** [list_files] in the three scripts *)

Lemma sublist_filter_impl {A} (P Q : A → Prop) `{∀ x, Decision (P x)} `{∀ x, Decision (Q x)}
    (l : list A) :
  (∀ x, P x → Q x) → sublist (filter P l) (filter Q l).
Proof.
  intros HPQ. induction l as [|x l IH]; [done|].
  rewrite !filter_cons. destruct (decide (P x)) as [HP|HP].
  - rewrite decide_True by auto. by constructor.
  - destruct (decide (Q x)); [by constructor|done].
Qed.

Lemma sublist_flat_map {A B} (f g : A → list B) (l : list A) :
  (∀ x, sublist (f x) (g x)) → sublist (flat_map f l) (flat_map g l).
Proof.
  intros Hfg. induction l as [|x l IH]; [done|]. simpl. by apply sublist_app.
Qed.

Lemma length_flat_map {A B} (f : A → list B) (l : list A) :
  length (flat_map f l) = sum_list (map (λ x, length (f x)) l).
Proof.
  induction l as [|x l IH]; [done|]. simpl. by rewrite length_app, IH.
Qed.

(** X11. The three scripts list different files of one directory tree.
    The intersection script keeps the names that end in [.geojson] as
    written, the nearest-river script those that do so in any case, the
    QGIS script every file: each list is a sublist of the next (same
    order, nothing added), the last has one path for every file of the
    walk, and a name such as [Danube.GeoJSON] tells the first two apart. *)
Theorem list_files_of_the_three_scripts
    (os_walk : string → list (string * list string * list string)) (directory : string) :
  sublist (intersect_list_files os_walk directory) (list_files os_walk directory)
  ∧ sublist (list_files os_walk directory) (qgis.list_files os_walk directory)
  ∧ length (qgis.list_files os_walk directory)
    = sum_list (map (λ entry : string * list string * list string, length entry.2)
                    (os_walk directory))
  ∧ intersect_list_files (λ _, [("maps", [], ["Danube.GeoJSON"])]) "maps" = []
  ∧ list_files (λ _, [("maps", [], ["Danube.GeoJSON"])]) "maps" = ["maps/Danube.GeoJSON"].
Proof.
  split_and!; [| | |reflexivity..].
  - apply sublist_flat_map. intros entry. apply fmap_sublist.
    apply sublist_filter_impl. intros file Hfile. by apply (endswith_lower file ".geojson").
  - apply sublist_flat_map. intros entry. apply fmap_sublist. apply sublist_filter.
  - unfold qgis.list_files. rewrite length_flat_map. f_equal.
    apply map_ext. intros entry. apply length_map.
Qed.

(** ** The radius of the buffer *)

Lemma radians_opp (x : R) : radians (- x) = (- radians x)%R.
Proof. unfold radians. lra. Qed.

Lemma cos_radians_Rabs (latitude : R) :
  cos (radians (Rabs latitude)) = cos (radians latitude).
Proof.
  unfold Rabs. destruct (Rcase_abs latitude); [|done].
  by rewrite radians_opp, cos_neg.
Qed.

Lemma Rdiv_nonneg (a b : R) : (0 <= a)%R → (0 < b)%R → (0 <= a / b)%R.
Proof.
  intros Ha Hb. unfold Rdiv. apply Rmult_le_pos; [done|].
  left. by apply Rinv_0_lt_compat.
Qed.

(** Away from the poles the cosine of the latitude is positive. *)
Lemma cos_radians_bounds (latitude : R) :
  (Rabs latitude < 90)%R → (0 < cos (radians latitude) <= 1)%R.
Proof.
  intros Hlat. pose proof PI_RGT_0 as Hpi. split; [|apply COS_bound].
  apply Rabs_def2 in Hlat as [Hlt Hgt].
  apply cos_gt_0; unfold radians; nra.
Qed.

(** X1. For a distance that is not negative and a latitude strictly
    between the poles, the longitude figure of [meters_to_degrees] is at
    least the latitude figure, so the radius [find_nearest_river] gives
    its buffer, [max(degrees_lat, degrees_lon)], is always
    [degrees_lon]. *)
Theorem buffer_radius_is_degrees_lon (meters latitude : R) :
  (0 <= meters)%R → (Rabs latitude < 90)%R →
  ∃ degrees_lat degrees_lon,
    meters_to_degrees (PyFloat meters) latitude = Ok (degrees_lat, degrees_lon)
    ∧ (0 <= degrees_lat <= degrees_lon)%R
    ∧ py_max degrees_lat degrees_lon = degrees_lon.
Proof.
  intros Hm [Hpos Hle]%cos_radians_bounds.
  set (c := cos (radians latitude)) in *.
  exists (meters / 111000)%R, (meters / (111000 * c))%R.
  assert (meters / (111000 * c) * c = meters / 111000)%R as Hc by (field; lra).
  assert (0 <= meters / 111000)%R as Hlat by (apply Rdiv_nonneg; lra).
  assert (0 <= meters / (111000 * c))%R as Hlon by (apply Rdiv_nonneg; nra).
  assert (meters / 111000 <= meters / (111000 * c))%R as Hcmp by nra.
  split_and!; [done|done|done|].
  unfold py_max. destruct (Rlt_dec _ _); lra.
Qed.

(** X2. The longitude figure depends on the latitude through its
    absolute value only, and it grows with it: of two places the one
    farther from the equator gets the larger (or an equal) radius in
    degrees for the same metres, while the latitude figure is the same. *)
Theorem degrees_lon_grows_with_latitude (meters latitude1 latitude2 : R) :
  (0 <= meters)%R → (Rabs latitude1 <= Rabs latitude2)%R → (Rabs latitude2 < 90)%R →
  ∃ degrees_lat degrees_lon1 degrees_lon2,
    meters_to_degrees (PyFloat meters) latitude1 = Ok (degrees_lat, degrees_lon1)
    ∧ meters_to_degrees (PyFloat meters) latitude2 = Ok (degrees_lat, degrees_lon2)
    ∧ (degrees_lon1 <= degrees_lon2)%R.
Proof.
  intros Hm Hle Hlt. pose proof PI_RGT_0 as Hpi.
  pose proof (Rabs_pos latitude1) as H1. pose proof (Rabs_pos latitude2) as H2.
  assert (Rabs latitude1 < 90)%R as Hlt1 by lra.
  destruct (cos_radians_bounds latitude1 Hlt1) as [Hpos1 _].
  destruct (cos_radians_bounds latitude2 Hlt) as [Hpos2 _].
  assert (cos (radians latitude2) <= cos (radians latitude1))%R as Hcos.
  { rewrite <- (cos_radians_Rabs latitude1), <- (cos_radians_Rabs latitude2).
    apply cos_decr_1; unfold radians; nra. }
  eexists _, _, _. split_and!; [reflexivity..|].
  unfold Rdiv. apply Rmult_le_compat_l; [done|].
  apply Rinv_le_contravar; nra.
Qed.

(** ** The matcher never fails on a number *)

Lemma loc_elem_of (df : list (nat * feature)) (label : nat) (f : feature) :
  loc df label = Some f → f ∈ df.*2.
Proof.
  induction df as [|r df IH]; [done|]. simpl.
  destruct (Nat.eqb r.1 label).
  - intros [= <-]. by left.
  - intros Hloc. right. by apply IH.
Qed.

Lemma indexed_rows (g : frame) : (indexed g).*2 = gdf_rows g.
Proof. apply range_index_from_rows. Qed.

Lemma rivers_in_buffer_rows (mask : feature → bool) (g : frame) :
  (mask_select mask (indexed g)).*2 = filter (λ f, mask f = true) (gdf_rows g).
Proof. by rewrite mask_select_rows, indexed_rows. Qed.

(** The selection among the rivers in the buffer always finds a row. *)
Lemma nearest_in_buffer (point : geometry) (rivers : frame) (mask : feature → bool) :
  ∃ nearest_river,
    match mask_select mask (indexed rivers) with
    | [] => Ok None
    | _ :: _ =>
        match idxmin (geometry_apply (λ geom, distance point (nearest_points point geom).2)
                        (mask_select mask (indexed rivers))) with
        | None => Err ValueError
        | Some label =>
            match loc (mask_select mask (indexed rivers)) label with
            | None => Err KeyError
            | Some nearest_river => Ok (Some nearest_river)
            end
        end
    end = Ok nearest_river
    ∧ ∀ f, nearest_river = Some f → f ∈ gdf_rows rivers ∧ mask f = true.
Proof.
  pose proof (rivers_in_buffer_rows mask rivers) as Hrows.
  destruct (mask_select mask (indexed rivers)) as [|r df] eqn:Hsel.
  { exists None. by split. }
  destruct (loc_idxmin (λ geom, distance point (nearest_points point geom).2) (r :: df))
    as (df1 & r' & df2 & Hdf & -> & Hloc & _); [done| |].
  { rewrite <- Hsel. apply mask_select_NoDup, indexed_NoDup. }
  rewrite Hloc. exists (Some r'.2). split; [done|]. intros f [= <-].
  assert (r'.2 ∈ filter (λ f, mask f = true) (gdf_rows rivers)) as Hin.
  { rewrite <- Hrows. by eapply loc_elem_of. }
  by apply list_elem_of_filter in Hin as [? ?].
Qed.


(** ** What the loop over the points selects *)

Lemma nearest_of_elem_of (point : geometry) (rivers : frame) (meters : R) (f : feature) :
  nearest_of point rivers (PyFloat meters) = Some f → f ∈ gdf_rows rivers.
Proof.
  unfold nearest_of, value. rewrite find_nearest_river_run. cbn [fst].
  edestruct nearest_in_buffer as (nearest_river & -> & Hrow).
  intros ->. by destruct (Hrow f).
Qed.

Lemma turn_selects_bound (river_gdf : frame) (meters : R) (point : geometry) :
  length (turn_selects river_gdf meters point) ≤ 1
  ∧ ∀ f, f ∈ turn_selects river_gdf meters point → f ∈ gdf_rows river_gdf.
Proof.
  unfold turn_selects. destruct (isinstance_Point point).
  - destruct (nearest_of point river_gdf (PyFloat meters)) as [f|] eqn:Hnearest; simpl.
    + split; [lia|]. intros f' ->%list_elem_of_singleton. by eapply nearest_of_elem_of.
    + split; [lia|]. by intros f' ?%elem_of_nil.
  - split; [simpl; lia|]. by intros f' ?%elem_of_nil.
Qed.

Lemma flat_map_turns (river_gdf : frame) (meters : R) (points : list geometry) :
  length (flat_map (turn_selects river_gdf meters) points) ≤ length points
  ∧ ∀ f, f ∈ flat_map (turn_selects river_gdf meters) points → f ∈ gdf_rows river_gdf.
Proof.
  induction points as [|point points [IHlen IHin]]; simpl.
  - split; [lia|]. by intros f ?%elem_of_nil.
  - destruct (turn_selects_bound river_gdf meters point) as [Hlen Hin].
    rewrite length_app. split; [lia|].
    intros f [?|?]%elem_of_app; auto.
Qed.

Lemma select_rivers_on_str (river_gdf point_gdf : frame) (s : string) :
  value (select_rivers river_gdf point_gdf (PyStr s))
  = if existsb isinstance_Point
         (map feat_geometry (gdf_rows (assign_geometry centroid_of_MultiPolygon point_gdf)))
    then Err TypeError else Ok [].
Proof.
  unfold select_rivers.
  rewrite !value_bind;
    repeat first [ by apply all_events_print_if_verbose
                 | apply for_each_point_is_print
                 | intros _
                 | apply all_events_bind ].
  by rewrite !value_print_if_verbose, for_each_point_str.
Qed.

(** X4. Whatever the radius, what the loop over the points hands on is
    made of rows of the river layer only, and of at most one row for each
    row of the point layer. *)
Theorem selected_rivers_come_from_layer (river_gdf point_gdf : frame) (radius : pyval)
    (selected_rivers : list feature) :
  value (select_rivers river_gdf point_gdf radius) = Ok selected_rivers →
  (∀ f, f ∈ selected_rivers → f ∈ gdf_rows river_gdf)
  ∧ length selected_rivers ≤ length (gdf_rows point_gdf).
Proof.
  destruct radius as [s|meters].
  - rewrite select_rivers_on_str.
    destruct (existsb _ _); [done|]. intros [= <-].
    split; [by intros f ?%elem_of_nil|simpl; lia].
  - rewrite select_rivers_float. intros [= <-].
    destruct (flat_map_turns river_gdf meters
                (map feat_geometry
                   (gdf_rows (assign_geometry centroid_of_MultiPolygon point_gdf))))
      as [Hlen Hin].
    split; [done|]. revert Hlen. simpl. by rewrite !length_map.
Qed.

(** ** One task and the files *)

(** X5. A layer that cannot be read fails the task with the error of
    that file, the river layer first: when the river file is missing or
    unreadable the point file is not looked at. In both cases no file is
    changed and only the line of [create_new_layer] about the two paths is
    printed (when verbose). *)
Theorem unreadable_layer_fails_the_task (river_path point_path save_path : string)
    (radius : pyval) (w : world) :
  let outcome := run (process_layers river_path point_path save_path radius) w in
  let unchanged := mkWorld (fs w) (stdout w ++ printed (Processing point_path river_path)) in
  (fs w !! river_path ≫= decode = None →
     outcome = (Err (DataSourceError river_path), unchanged))
  ∧ (is_Some (fs w !! river_path ≫= decode) → fs w !! point_path ≫= decode = None →
     outcome = (Err (DataSourceError point_path), unchanged)).
Proof.
  intros outcome unchanged. unfold outcome, process_layers, create_new_layer.
  rewrite run_bind, run_print_if_verbose, run_bind, read_file_run. cbv beta iota.
  cbn [fs stdout]. split.
  - by intros ->.
  - intros [river_gdf ->] Hpoint.
    rewrite run_bind, read_file_run. cbv beta iota. cbn [fs stdout]. by rewrite Hpoint.
Qed.

(** What a task does, by what the two files hold. *)
Lemma process_layers_run (river_path point_path save_path : string) (radius : pyval)
    (w : world) :
  ∃ out,
    run (process_layers river_path point_path save_path radius) w =
    match fs w !! river_path ≫= decode with
    | None => (Err (DataSourceError river_path), mkWorld (fs w) (stdout w ++ out))
    | Some river_gdf =>
        match fs w !! point_path ≫= decode with
        | None => (Err (DataSourceError point_path), mkWorld (fs w) (stdout w ++ out))
        | Some point_gdf =>
            match value (ensure_same_crs river_gdf point_gdf) with
            | Err e => (Err e, mkWorld (fs w) (stdout w ++ out))
            | Ok point_gdf' =>
                match value (select_rivers river_gdf point_gdf' radius) with
                | Err e => (Err e, mkWorld (fs w) (stdout w ++ out))
                | Ok selected_rivers =>
                    (Ok tt,
                     mkWorld
                       match selected_rivers with
                       | [] => fs w
                       | _ :: _ =>
                           <[output_file save_path (point_path, river_path)
                             := encode (mkGDF (gdf_crs river_gdf) selected_rivers)]> (fs w)
                       end
                       (stdout w ++ out))
                end
            end
        end
    end.
Proof. apply create_new_layer_run. Qed.

(** X6. The footprint of a task. Its result depends on no file but its
    two inputs: in two file systems that agree on them it ends the same
    way, and either changes nothing in both or stores the same content in
    both, at its output path and nowhere else. A task that raises has
    changed no file. *)
Theorem process_layers_footprint (river_path point_path save_path : string) (radius : pyval)
    (w1 w2 : world) :
  fs w1 !! river_path = fs w2 !! river_path →
  fs w1 !! point_path = fs w2 !! point_path →
  let task := process_layers river_path point_path save_path radius in
  let out := output_file save_path (point_path, river_path) in
  (run task w1).1 = (run task w2).1
  ∧ ((fs (run task w1).2 = fs w1 ∧ fs (run task w2).2 = fs w2)
     ∨ ∃ c, fs (run task w1).2 = <[out := c]> (fs w1)
          ∧ fs (run task w2).2 = <[out := c]> (fs w2))
  ∧ (∀ e, (run task w1).1 = Err e → fs (run task w1).2 = fs w1).
Proof.
  intros Hriver Hpoint task out. unfold task.
  destruct (process_layers_run river_path point_path save_path radius w1) as [out1 ->].
  destruct (process_layers_run river_path point_path save_path radius w2) as [out2 ->].
  rewrite <- Hriver, <- Hpoint.
  destruct (fs w1 !! river_path ≫= decode) as [river_gdf|]; [|by auto].
  destruct (fs w1 !! point_path ≫= decode) as [point_gdf|]; [|by auto].
  destruct (value (ensure_same_crs river_gdf point_gdf)) as [point_gdf'|e]; [|by auto].
  destruct (value (select_rivers river_gdf point_gdf' radius)) as [[|river rest]|e];
    [by auto| |by auto].
  split_and!; [done| |done]. right. by eexists.
Qed.

(** X7. Running a task again changes nothing more, when its output file
    is not one of its two inputs: the second run ends as the first did
    and leaves the files as the first left them. *)
Theorem process_layers_rerun (river_path point_path save_path : string) (radius : pyval)
    (w : world) :
  output_file save_path (point_path, river_path) ≠ river_path →
  output_file save_path (point_path, river_path) ≠ point_path →
  let task := process_layers river_path point_path save_path radius in
  (run task (run task w).2).1 = (run task w).1
  ∧ fs (run task (run task w).2).2 = fs (run task w).2.
Proof.
  intros Hriver Hpoint task. unfold task.
  destruct (process_layers_run river_path point_path save_path radius w) as [out1 Hrun1].
  destruct (process_layers_run river_path point_path save_path radius (run task w).2)
    as [out2 Hrun2].
  unfold task in Hrun2. rewrite Hrun2. clear Hrun2. rewrite Hrun1.
  destruct (fs w !! river_path ≫= decode) as [river_gdf|] eqn:Hr;
    cbn [fs snd fst]; [|by rewrite Hr].
  destruct (fs w !! point_path ≫= decode) as [point_gdf|] eqn:Hp;
    cbn [fs snd fst]; [|by rewrite Hr, Hp].
  destruct (value (ensure_same_crs river_gdf point_gdf)) as [point_gdf'|e] eqn:Hcrs;
    cbn [fs snd fst]; [|by rewrite Hr, Hp, Hcrs].
  destruct (value (select_rivers river_gdf point_gdf' radius)) as [[|river rest]|e] eqn:Hsel;
    cbn [fs snd fst]; [by rewrite Hr, Hp, Hcrs, Hsel| |by rewrite Hr, Hp, Hcrs, Hsel].
  rewrite !lookup_insert_ne by done. rewrite Hr, Hp, Hcrs, Hsel. cbn [fs snd fst].
  split; [done|]. apply insert_insert_eq.
Qed.


(** ** The batch of [main]: order, progress bar, empty input *)

Lemma pairs_lookup (files rivers : list string) (i j : nat) (file river : string) :
  files !! i = Some file → rivers !! j = Some river →
  pairs files rivers !! (i * length rivers + j) = Some (file, river).
Proof.
  intros Hfile Hriver. revert i Hfile.
  induction files as [|file' files IH]; intros i Hfile; [done|].
  unfold pairs. simpl. fold (pairs files rivers). destruct i as [|i].
  - injection Hfile as ->. simpl. rewrite lookup_app_l.
    + by rewrite list_lookup_fmap, Hriver.
    + rewrite length_map. by eapply lookup_lt_Some.
  - rewrite lookup_app_r; rewrite length_map; [|simpl; lia].
    replace (S i * length rivers + j - length rivers) with (i * length rivers + j)
      by (simpl; lia).
    by apply IH.
Qed.

Lemma pairs_length (files rivers : list string) :
  length (pairs files rivers) = length files * length rivers.
Proof.
  induction files as [|file files IH]; [done|].
  unfold pairs. simpl. fold (pairs files rivers).
  by rewrite length_app, length_map, IH.
Qed.

(** X12. [main] submits one task for every pair of a point file and a
    river file, the point files outside and the river files inside: there
    are [len(files) * len(rivers)] futures, and the future at place
    [i * len(rivers) + j] is [process_layers] on river [j] and point
    file [i], with the save path and the radius of the command line. *)
Theorem tasks_submitted_point_file_major (files rivers : list string) (save_path : string)
    (radius : pyval) :
  length (submit_all files rivers save_path radius) = total_tasks files rivers
  ∧ ∀ i j file river,
      files !! i = Some file → rivers !! j = Some river →
      submit_all files rivers save_path radius !! (i * length rivers + j)
      = Some (mkFuture (process_layers river file save_path radius) false false).
Proof.
  split.
  - by rewrite submit_all_pairs, length_map, pairs_length.
  - intros i j file river Hfile Hriver. apply submit_all_lookup.
    exists (file, river). split; [by apply pairs_lookup|done].
Qed.

Lemma filter_length_all {A} (P : A → Prop) `{∀ x, Decision (P x)} (l : list A) :
  length (filter P l) ≤ length l
  ∧ (length (filter P l) = length l ↔ Forall P l).
Proof.
  induction l as [|x l [IHle IHiff]]; [by split|].
  rewrite filter_cons. destruct (decide (P x)) as [HP|HP]; simpl.
  - split; [lia|]. rewrite Forall_cons. split.
    + intros Hlen. split; [done|]. apply IHiff. lia.
    + intros [_ Hall]. f_equal. by apply IHiff.
  - split; [lia|]. rewrite Forall_cons. split; [lia|]. by intros [? _].
Qed.

Lemma main_submitted_bookkeeping
    (os_walk : string → list (string * list string * list string))
    (input_path river_path save_path radius : string) (w : world) :
  main_submitted os_walk input_path river_path save_path radius w
  = submitted (map (λ task : string * string,
                      process_layers task.2 task.1 save_path (PyStr radius))
                   (pairs (list_files os_walk input_path) (list_files os_walk river_path)))
              w.
Proof.
  unfold main_submitted, submitted. by rewrite submit_all_pairs, map_map.
Qed.

(** X13. The progress bar of [main] never passes its total
    [len(files) * len(rivers)], and it stands at the total exactly when
    the loop over [as_completed] has yielded every future. *)
Theorem progress_bar_reaches_total
    (os_walk : string → list (string * list string * list string))
    (input_path river_path save_path radius : string)
    (w : world) (max_workers : nat) (sched : list action) (s : pool) :
  exec_all max_workers sched (main_submitted os_walk input_path river_path save_path radius w)
  = Some s →
  let total := total_tasks (list_files os_walk input_path) (list_files os_walk river_path) in
  pbar s ≤ total ∧ (all_collected s = true ↔ pbar s = total).
Proof.
  rewrite main_submitted_bookkeeping. intros Hexec total.
  destruct (submitted_bookkeeping
              (map (λ task : string * string,
                      process_layers task.2 task.1 save_path (PyStr radius))
                   (pairs (list_files os_walk input_path) (list_files os_walk river_path))) w)
    as [Hcf0 Hpb0].
  destruct (exec_all_bookkeeping _ _ _ _ Hcf0 Hpb0 Hexec) as (_ & Hpb & Hlen).
  unfold submitted in Hlen. cbn [futures] in Hlen.
  rewrite !length_map, pairs_length in Hlen. fold (total_tasks (list_files os_walk input_path)
    (list_files os_walk river_path)) in Hlen. fold total in Hlen.
  unfold pbar_counts in Hpb. rewrite Hpb, <- Hlen.
  destruct (filter_length_all (λ f, collected f = true) (futures s)) as [Hle Hiff].
  split; [done|]. rewrite Hiff. unfold all_collected.
  rewrite forallb_forall, Forall_forall. split.
  - intros Hall f Hf. by apply Hall, list_elem_of_In.
  - intros Hall f Hf. by apply Hall, list_elem_of_In.
Qed.

Lemma submit_all_no_rivers (files : list string) (save_path : string) (radius : pyval) :
  submit_all files [] save_path radius = [].
Proof. induction files as [|file files IH]; [done|]. done. Qed.

(** X14. When one of the two directories holds no [.geojson] file, [main]
    submits nothing: no worker has anything to do and there is no future
    to yield, so nothing can happen in the pool; [main] leaves the files
    as they are and prints (when verbose) only its last line. *)
Theorem empty_batch
    (os_walk : string → list (string * list string * list string))
    (input_path river_path save_path radius : string) (w : world) :
  list_files os_walk input_path = [] ∨ list_files os_walk river_path = [] →
  let s0 := main_submitted os_walk input_path river_path save_path radius w in
  futures s0 = []
  ∧ all_collected s0 = true
  ∧ (∀ max_workers a, exec max_workers a s0 = None)
  ∧ main_returns s0 = mkWorld (fs w) (stdout w ++ printed FinishedCalculation).
Proof.
  intros Hempty s0.
  assert (futures s0 = []) as Hnone.
  { unfold s0, main_submitted. cbn [futures].
    destruct Hempty as [-> | ->]; [done|apply submit_all_no_rivers]. }
  split_and!; [done| | |done].
  - unfold all_collected. by rewrite Hnone.
  - intros max_workers [i|i]; unfold exec; by rewrite Hnone.
Qed.

(** ** The intersection script *)

Lemma ensure_same_crs_output (river_gdf point_gdf : frame) :
  output (ensure_same_crs river_gdf point_gdf) = [].
Proof.
  unfold ensure_same_crs. case_bool_decide; [|done].
  by destruct (to_crs point_gdf (gdf_crs river_gdf)).
Qed.

Lemma world_eta (w : world) : mkWorld (fs w) (stdout w) = w.
Proof. by destruct w. Qed.

Lemma intersect_select_rows (river_gdf point_gdf : frame) :
  (intersect_select river_gdf point_gdf).*2
  = filter (λ f, intersects (feat_geometry f)
                   (unary_union (map feat_geometry (gdf_rows point_gdf))) = true)
           (gdf_rows river_gdf).
Proof. apply rivers_in_buffer_rows. Qed.

(** What a task of the intersection script does, by what the two files hold. *)
Lemma intersect_process_layers_run (river_path point_path save_path : string) (w : world) :
  run (intersect_process_layers river_path point_path save_path) w =
  match fs w !! river_path ≫= decode with
  | None => (Err (DataSourceError river_path), w)
  | Some river_gdf =>
      match fs w !! point_path ≫= decode with
      | None => (Err (DataSourceError point_path), w)
      | Some point_gdf =>
          match value (ensure_same_crs river_gdf point_gdf) with
          | Err e => (Err e, w)
          | Ok point_gdf' =>
              (Ok tt,
               match (intersect_select river_gdf point_gdf').*2 with
               | [] =>
                   mkWorld (fs w)
                     (stdout w
                        ++ printed (NoFeaturesSelected
                                      ((ospath.splitext (ospath.basename point_path)).1 +:+ "_"
                                         +:+ (ospath.splitext (ospath.basename river_path)).1)))
               | selected_rivers =>
                   mkWorld
                     (<[output_file save_path (point_path, river_path)
                        := encode (mkGDF (gdf_crs river_gdf) selected_rivers)]> (fs w))
                     (stdout w
                        ++ printed (LayerSaved
                                      ((ospath.splitext (ospath.basename point_path)).1 +:+ "_"
                                         +:+ (ospath.splitext (ospath.basename river_path)).1)))
               end)
          end
      end
  end.
Proof.
  unfold intersect_process_layers, intersect_create_new_layer.
  rewrite run_bind, read_file_run.
  destruct (fs w !! river_path ≫= decode) as [river_gdf|]; [|done].
  rewrite run_bind, read_file_run.
  destruct (fs w !! point_path ≫= decode) as [point_gdf|]; [|done].
  rewrite run_bind, (run_is_print (ensure_same_crs _ _)) by apply ensure_same_crs_is_print.
  rewrite ensure_same_crs_output, app_nil_r, world_eta.
  destruct (value (ensure_same_crs river_gdf point_gdf)) as [point_gdf'|e]; [|done].
  destruct (intersect_select river_gdf point_gdf') as [|r rest]; simpl.
  - by rewrite run_print_if_verbose.
  - unfold save_layer_as_geojson. simpl. by rewrite run_print_if_verbose.
Qed.

Lemma intersect_process_layers_loaded (river_path point_path save_path : string) (w : world)
    (river_gdf point_gdf point_gdf' : frame) :
  fs w !! river_path ≫= decode = Some river_gdf →
  fs w !! point_path ≫= decode = Some point_gdf →
  value (ensure_same_crs river_gdf point_gdf) = Ok point_gdf' →
  run (intersect_process_layers river_path point_path save_path) w
  = (Ok tt,
     match filter (λ f, intersects (feat_geometry f)
                          (unary_union (map feat_geometry (gdf_rows point_gdf'))) = true)
                  (gdf_rows river_gdf) with
     | [] =>
         mkWorld (fs w)
           (stdout w
              ++ printed (NoFeaturesSelected
                            ((ospath.splitext (ospath.basename point_path)).1 +:+ "_"
                               +:+ (ospath.splitext (ospath.basename river_path)).1)))
     | selected_rivers =>
         mkWorld
           (<[output_file save_path (point_path, river_path)
              := encode (mkGDF (gdf_crs river_gdf) selected_rivers)]> (fs w))
           (stdout w
              ++ printed (LayerSaved
                            ((ospath.splitext (ospath.basename point_path)).1 +:+ "_"
                               +:+ (ospath.splitext (ospath.basename river_path)).1)))
     end).
Proof.
  intros Hriver Hpoint Hcrs.
  by rewrite intersect_process_layers_run, Hriver, Hpoint, Hcrs, intersect_select_rows.
Qed.

Lemma intersect_process_layers_unreadable (river_path point_path save_path : string)
    (w : world) :
  fs w !! river_path ≫= decode = None →
  run (intersect_process_layers river_path point_path save_path) w
  = (Err (DataSourceError river_path), w).
Proof. intros Hriver. by rewrite intersect_process_layers_run, Hriver. Qed.

(** X15. The intersection script, with both layers loaded and brought to
    one CRS: the rivers it keeps are the rows of the river layer whose
    geometry meets the union of the points, each once and in the order of
    the river file. If there is none the task writes no file; otherwise
    it writes one, at the path made of the two stems, holding those rows
    under the CRS of the river layer. It prints one line (when verbose)
    in either case. *)
Theorem intersect_selects_by_union (river_path point_path save_path : string) (w : world)
    (river_gdf point_gdf point_gdf' : frame) :
  fs w !! river_path ≫= decode = Some river_gdf →
  fs w !! point_path ≫= decode = Some point_gdf →
  value (ensure_same_crs river_gdf point_gdf) = Ok point_gdf' →
  let union := unary_union (map feat_geometry (gdf_rows point_gdf')) in
  let selected_rivers :=
    filter (λ f, intersects (feat_geometry f) union = true) (gdf_rows river_gdf) in
  let new_layer_name :=
    (ospath.splitext (ospath.basename point_path)).1 +:+ "_"
      +:+ (ospath.splitext (ospath.basename river_path)).1 in
  sublist selected_rivers (gdf_rows river_gdf)
  ∧ run (intersect_process_layers river_path point_path save_path) w
    = (Ok tt,
       match selected_rivers with
       | [] => mkWorld (fs w) (stdout w ++ printed (NoFeaturesSelected new_layer_name))
       | _ :: _ =>
           mkWorld
             (<[ospath.join save_path (new_layer_name +:+ ".geojson")
                := encode (mkGDF (gdf_crs river_gdf) selected_rivers)]> (fs w))
             (stdout w ++ printed (LayerSaved new_layer_name))
       end).
Proof.
  intros Hriver Hpoint Hcrs union selected_rivers new_layer_name.
  split; [apply sublist_filter|].
  rewrite intersect_process_layers_run, Hriver, Hpoint, Hcrs, intersect_select_rows.
  fold union selected_rivers new_layer_name. by destruct selected_rivers.
Qed.

(** X16. The intersection script's task fails without a trace in the
    files or on the output: an unreadable river layer gives the error of
    the river file (and the point file is not looked at), an unreadable
    point layer that of the point file, a refused reprojection the error
    of [to_crs]; in each case the world is left exactly as it was. *)
Theorem intersect_failures_leave_no_trace (river_path point_path save_path : string)
    (w : world) :
  let outcome := run (intersect_process_layers river_path point_path save_path) w in
  (fs w !! river_path ≫= decode = None → outcome = (Err (DataSourceError river_path), w))
  ∧ (is_Some (fs w !! river_path ≫= decode) → fs w !! point_path ≫= decode = None →
     outcome = (Err (DataSourceError point_path), w))
  ∧ (∀ river_gdf point_gdf e,
       fs w !! river_path ≫= decode = Some river_gdf →
       fs w !! point_path ≫= decode = Some point_gdf →
       gdf_crs river_gdf ≠ gdf_crs point_gdf →
       to_crs point_gdf (gdf_crs river_gdf) = Err e →
       outcome = (Err e, w))
  ∧ (∀ e, outcome.1 = Err e → outcome.2 = w).
Proof.
  intros outcome. unfold outcome. rewrite intersect_process_layers_run. split_and!.
  - by intros ->.
  - by intros [river_gdf ->] ->.
  - intros river_gdf point_gdf e -> -> Hne Hcrs.
    unfold ensure_same_crs. by rewrite bool_decide_true, Hcrs.
  - intros e. destruct (fs w !! river_path ≫= decode) as [river_gdf|]; [|done].
    destruct (fs w !! point_path ≫= decode) as [point_gdf|]; [|done].
    by destruct (value (ensure_same_crs river_gdf point_gdf)).
Qed.

Lemma intersect_process_layers_events (P : event → Prop)
    (river_path point_path save_path : string) :
  (verbose = true → ∀ l, P (EPrint l)) →
  P (ERead river_path) → P (ERead point_path) →
  (∀ c, P (EWrite (output_file save_path (point_path, river_path)) c)) →
  all_events P (intersect_process_layers river_path point_path save_path).
Proof.
  intros Hprint Hriver Hpoint Hwrite.
  assert (Hpv : ∀ l, all_events P (print_if_verbose l)).
  { intros l. apply all_events_print_if_verbose. intros Hv. by apply Hprint. }
  unfold intersect_process_layers, intersect_create_new_layer.
  apply all_events_bind.
  { unfold read_file. simpl. split; [done|]. intros c. by destruct (c ≫= decode). }
  intros river_gdf. apply all_events_bind.
  { unfold read_file. simpl. split; [done|]. intros c. by destruct (c ≫= decode). }
  intros point_gdf. apply all_events_bind.
  { unfold ensure_same_crs. case_bool_decide; [apply all_events_lift|done]. }
  intros point_gdf'. destruct (intersect_select river_gdf point_gdf'); [apply Hpv|].
  unfold save_layer_as_geojson. simpl. split; [apply Hwrite|apply Hpv].
Qed.

Lemma intersect_submit_all_pairs (files rivers : list string) (save_path : string) :
  intersect_submit_all files rivers save_path
  = map (λ task : string * string,
           mkFuture (intersect_process_layers task.2 task.1 save_path) false false)
        (pairs files rivers).
Proof.
  unfold intersect_submit_all, pairs.
  induction files as [|file files IH]; [done|]. simpl.
  by rewrite map_app, map_map, IH.
Qed.

(** A pool in which every future has been yielded holds finished tasks only. *)
Lemma all_collected_finished (max_workers : nat) (tasks : list (prog unit)) (w : world)
    (sched : list action) (s : pool) :
  exec_all max_workers sched (submitted tasks w) = Some s →
  all_collected s = true →
  length (futures s) = length tasks
  ∧ ∀ i f, futures s !! i = Some f → finished (remaining f) = true.
Proof.
  intros Hexec Hall.
  destruct (submitted_bookkeeping tasks w) as [Hcf0 Hpb0].
  destruct (exec_all_bookkeeping _ _ _ _ Hcf0 Hpb0 Hexec) as (Hcf & _ & Hlen).
  split; [by rewrite Hlen; unfold submitted; cbn [futures]; rewrite length_map|].
  intros i f Hf.
  unfold collected_are_finished in Hcf. rewrite Forall_forall in Hcf.
  apply Hcf; [by eapply list_elem_of_lookup_2|].
  unfold all_collected in Hall. rewrite forallb_forall in Hall.
  apply Hall, list_elem_of_In. by eapply list_elem_of_lookup_2.
Qed.

Lemma all_events_on_files {A} (P : event → Prop) (resolve : string → string) (p : prog A) :
  all_events (λ e, P (event_on_files resolve e)) p → all_events P (on_files resolve p).
Proof.
  induction p as [a|e|l k IH|path k IH|path c k IH]; simpl; try done.
  - intros [? ?]. auto.
  - intros [? Hk]. split; [done|]. intros c. apply IH, Hk.
  - intros [? ?]. auto.
Qed.

(** Where every path is the name of its file, [on_files] changes nothing. *)
Lemma run_on_files_same {A} (p : prog A) (w : world) :
  run (on_files (λ path, path) p) w = run p w.
Proof.
  revert w. induction p as [a|e|l k IH|path k IH|path c k IH]; intros w; simpl; auto.
Qed.

(** X17. The batch of the intersection script, when the output paths of
    its tasks name distinct files and none of these files is an input of
    the batch ([resolve] gives the file a path names, so that two
    spellings of one file count as one): whatever the number of threads
    and the interleaving of the tasks, once every future has been yielded
    each task has ended as it ends when run alone on the files [main]
    found, its output file holds what it writes when run alone, and
    every other file holds what it held before. The files left are thus
    the same in every complete run. *)
Theorem intersect_batch_as_if_alone (resolve : string → string) (files rivers : list string)
    (save_path : string) (w : world) (max_workers : nat) (sched : list action) (s : pool) :
  let output := λ task : string * string, resolve (output_file save_path task) in
  NoDup (map output (pairs files rivers)) →
  (∀ task task', task ∈ pairs files rivers → task' ∈ pairs files rivers →
     output task ≠ resolve task'.1 ∧ output task ≠ resolve task'.2) →
  exec_all max_workers sched
    (submitted (map (λ f, on_files resolve (remaining f))
                    (intersect_submit_all files rivers save_path)) w)
  = Some s →
  all_collected s = true →
  (∀ i task, pairs files rivers !! i = Some task →
     let alone :=
       run (on_files resolve (intersect_process_layers task.2 task.1 save_path)) w in
     ∃ f, futures s !! i = Some f
       ∧ remaining f = lift alone.1
       ∧ fs (shared s) !! output task = fs alone.2 !! output task)
  ∧ (∀ file, file ∉ map output (pairs files rivers) →
       fs (shared s) !! file = fs w !! file).
Proof.
  intros output Hnd Hio Hexec Hall.
  set (tasks := pairs files rivers) in *.
  set (reads := λ (i : nat) (file : string),
         ∃ task, tasks !! i = Some task ∧ (file = resolve task.2 ∨ file = resolve task.1)).
  set (writes := λ (i : nat) (file : string),
         ∃ task, tasks !! i = Some task ∧ file = output task).
  assert (Hsub : map (λ f, on_files resolve (remaining f))
                     (intersect_submit_all files rivers save_path)
                 = map (λ task : string * string,
                          on_files resolve (intersect_process_layers task.2 task.1 save_path))
                       tasks).
  { by rewrite intersect_submit_all_pairs, map_map. }
  rewrite Hsub in Hexec.
  assert (Hlookup : ∀ i f0,
    futures (submitted (map (λ task : string * string,
                               on_files resolve
                                 (intersect_process_layers task.2 task.1 save_path))
                            tasks) w) !! i = Some f0 ↔
    ∃ task, tasks !! i = Some task
      ∧ f0 = mkFuture (on_files resolve (intersect_process_layers task.2 task.1 save_path))
               false false).
  { intros i f0. unfold submitted. cbn [futures]. rewrite map_map, list_lookup_fmap. split.
    - intros Hi. destruct (tasks !! i) as [task|]; [|done]. injection Hi as <-. eauto.
    - intros (task & -> & ->). done. }
  destruct (pool_isolation reads writes max_workers sched
              (submitted (map (λ task : string * string,
                                 on_files resolve
                                   (intersect_process_layers task.2 task.1 save_path))
                              tasks) w) s) as [Hthreads Hframe];
    [| |exact Hexec|].
  - intros i j file _ _ Hij (tj & Htj & ->). split.
    + intros (ti & Hti & Hfile).
      destruct (Hio tj ti) as [H1 H2]; [by eapply list_elem_of_lookup_2..|].
      destruct Hfile; congruence.
    + intros (ti & Hti & Heq). apply Hij.
      eapply (NoDup_lookup _ i j (output ti) Hnd); rewrite list_lookup_fmap.
      * by rewrite Hti.
      * rewrite Htj. simpl. by rewrite Heq.
  - intros i f0 (task & Htask & ->)%Hlookup. cbn [remaining].
    apply all_events_on_files, intersect_process_layers_events; simpl.
    + done.
    + exists task. auto.
    + exists task. auto.
    + intros c. exists task. split; [done|]. unfold output. by destruct task.
  - destruct (all_collected_finished _ _ _ _ _ Hexec Hall) as [Hlen Hfin].
    rewrite length_map in Hlen. split.
    + intros i task Htask alone.
      destruct (lookup_lt_is_Some_2 (futures s) i) as [f Hf].
      { rewrite Hlen. by eapply lookup_lt_Some. }
      exists f. split; [done|].
      destruct (Hthreads i f
                  (mkFuture (on_files resolve
                               (intersect_process_layers task.2 task.1 save_path))
                     false false) Hf) as [Hres Hfiles]; [|by eapply Hfin|].
      { apply Hlookup. eauto. }
      split; [done|]. apply Hfiles. exists task. done.
    + intros file Hfile. apply Hframe. intros i _ (task & Htask & ->).
      apply Hfile. apply list_elem_of_fmap. exists task.
      split; [done|]. by eapply list_elem_of_lookup_2.
Qed.

(** ** The QGIS script: where the buffered layers are written *)

Lemma qgis_layer_name_has_no_sep (file : string) :
  str_contains ospath.sep (qgis.layer_name file +:+ ".geojson") = false.
Proof.
  unfold qgis.layer_name. rewrite str_contains_app.
  by rewrite splitext_root_has_no_sep by apply basename_has_no_sep.
Qed.

Lemma str_not_own_tail (a : ascii) (s : string) : s ≠ String a s.
Proof. intros Heq. apply (f_equal String.length) in Heq. simpl in Heq. lia. Qed.

(** X18. [save_layer_as_geojson] of the QGIS script glues the output
    path and the layer name together with no separator. What it writes to
    is the file [os.path.join] would name exactly when the output path is
    empty or ends with a separator; in general the base name of the file
    written begins with the last component of the output path, so that
    with the script's own [path/to/outputs] a layer [name] is written
    to [path/to/outputsname.geojson], beside the directory and not in it. *)
Theorem qgis_geojson_path_not_joined (output_path file : string) :
  let name := qgis.layer_name file in
  (qgis.geojson_path output_path name = ospath.join output_path (name +:+ ".geojson")
   ↔ output_path = "" ∨ ospath.endswith_sep output_path = true)
  ∧ ospath.basename (qgis.geojson_path output_path name)
    = ospath.basename output_path +:+ name +:+ ".geojson"
  ∧ ospath.basename (qgis.geojson_path "path/to/outputs" name)
    = "outputs" +:+ name +:+ ".geojson".
Proof.
  intros name. pose proof (qgis_layer_name_has_no_sep file) as Hname. fold name in Hname.
  assert (∀ a, ospath.basename (qgis.geojson_path a name)
               = ospath.basename a +:+ name +:+ ".geojson") as Hbase.
  { intros a. unfold qgis.geojson_path. rewrite str_app_assoc. by apply basename_app. }
  split_and!; [|apply Hbase|apply Hbase].
  unfold qgis.geojson_path. rewrite str_app_assoc.
  rewrite join_cases by by apply startswith_sep_contains.
  case_bool_decide as Hempty; simpl.
  { split; auto. }
  destruct (ospath.endswith_sep output_path).
  { split; auto. }
  split; [|by intros [?|?]].
  intros Heq%(inj (String.app output_path)). by apply str_not_own_tail in Heq.
Qed.

(** X19. The QGIS script lists every file and names each layer by the
    stem of its file, so files that differ in their directory or their
    extension only (the parts of one shapefile, say) are written to one
    and the same GeoJSON file. *)
Theorem qgis_same_stem_one_output (output_path root root' stem ext ext' : string) :
  ospath.has_non_dot stem = true →
  str_contains ospath.sep stem = false →
  str_contains ospath.sep ext = false → str_contains ospath.extsep ext = false →
  str_contains ospath.sep ext' = false → str_contains ospath.extsep ext' = false →
  let file := ospath.join root (stem +:+ String ospath.extsep ext) in
  let file' := ospath.join root' (stem +:+ String ospath.extsep ext') in
  qgis.layer_name file = stem
  ∧ qgis.layer_name file' = stem
  ∧ qgis.geojson_path output_path (qgis.layer_name file)
    = qgis.geojson_path output_path (qgis.layer_name file').
Proof.
  intros Hdots Hstem Hsep Hext Hsep' Hext' file file'.
  assert (∀ r e, str_contains ospath.sep e = false → str_contains ospath.extsep e = false →
                 qgis.layer_name (ospath.join r (stem +:+ String ospath.extsep e)) = stem)
    as Hname.
  { intros r e He1 He2. unfold qgis.layer_name.
    assert (str_contains ospath.sep (stem +:+ String ospath.extsep e) = false) as Hfile.
    { rewrite str_contains_app, Hstem. simpl. by rewrite He1. }
    rewrite basename_join by done. rewrite splitext_name by done. by rewrite Hdots. }
  unfold file, file'. by rewrite !Hname.
Qed.

(** ** Only the rivers in the buffer matter *)




(** ** A batch is silent unless verbose *)

Lemma intersect_submit_all_events (P : event → Prop) (files rivers : list string)
    (save_path : string) :
  (verbose = true → ∀ l, P (EPrint l)) →
  (∀ path, P (ERead path)) → (∀ path c, P (EWrite path c)) →
  Forall (λ f, all_events P (remaining f)) (intersect_submit_all files rivers save_path).
Proof.
  intros Hprint Hread Hwrite. rewrite intersect_submit_all_pairs, Forall_fmap.
  apply Forall_forall. intros task _. simpl.
  by apply intersect_process_layers_events.
Qed.

(** X21. With verbose off the intersection script prints nothing at all,
    whatever happens in the batch: no task prints, and the loop over
    [as_completed] swallows the exception of a failed task without a
    word. *)
Theorem intersect_batch_silent_unless_verbose
    (os_walk : string → list (string * list string * list string))
    (input_path river_path save_path : string)
    (w : world) (max_workers : nat) (sched : list action) (s : pool) :
  verbose = false →
  exec_all max_workers sched
    (intersect_main_submitted os_walk input_path river_path save_path w) = Some s →
  stdout (main_returns s) = stdout w.
Proof.
  intros Hquiet Hexec.
  assert (stdout (shared s) = stdout w) as Hout.
  { apply (exec_all_shared
             (λ e, match e with EPrint _ => verbose = true | _ => True end)
             (λ w', stdout w' = stdout w) max_workers sched
             (intersect_main_submitted os_walk input_path river_path save_path w) s).
    - intros [l|path|path c] w' He Hw'; simpl; [congruence|done..].
    - intros w' p Hw'. simpl. unfold on_completed, printed. rewrite Hquiet.
      rewrite <- Hw'. destruct p; apply app_nil_r.
    - unfold intersect_main_submitted. cbn [futures].
      by apply intersect_submit_all_events.
    - done.
    - done. }
  unfold main_returns, printed. rewrite Hquiet. simpl. by rewrite app_nil_r.
Qed.

(** ** When two tasks write the same file *)

Lemma str_app_inj_r (s t u : string) : s +:+ u = t +:+ u → s = t.
Proof.
  revert t. induction s as [|a s IH]; intros [|b t] Heq; [done| | |].
  - apply (f_equal String.length) in Heq. rewrite str_app_nil_l, str_app_cons in Heq.
    simpl in Heq. rewrite str_length_app in Heq. lia.
  - apply (f_equal String.length) in Heq. rewrite str_app_nil_l, str_app_cons in Heq.
    simpl in Heq. rewrite str_length_app in Heq. lia.
  - rewrite !str_app_cons in Heq. injection Heq as -> Heq. f_equal. by apply IH.
Qed.

(** A string is cut at the first occurrence of a character in one way. *)
Lemma str_cut_at_first (c : ascii) (s t s' t' : string) :
  str_contains c s = false → str_contains c s' = false →
  s +:+ String c t = s' +:+ String c t' → s = s' ∧ t = t'.
Proof.
  revert s'. induction s as [|a s IH]; intros [|a' s'] Hs Hs' Heq.
  - rewrite !str_app_nil_l in Heq. by injection Heq.
  - rewrite str_app_nil_l, str_app_cons in Heq. injection Heq as <- _.
    simpl in Hs'. by rewrite Ascii.eqb_refl in Hs'.
  - rewrite str_app_nil_l, str_app_cons in Heq. injection Heq as -> _.
    simpl in Hs. by rewrite Ascii.eqb_refl in Hs.
  - rewrite !str_app_cons in Heq. injection Heq as -> Heq.
    simpl in Hs, Hs'. apply orb_false_elim in Hs as [_ Hs].
    apply orb_false_elim in Hs' as [_ Hs'].
    destruct (IH s' Hs Hs' Heq) as [-> ->]. done.
Qed.

Lemma join_inj (a b b' : string) :
  ospath.startswith_sep b = false → ospath.startswith_sep b' = false →
  ospath.join a b = ospath.join a b' → b = b'.
Proof.
  intros Hb Hb'. rewrite !join_cases by done.
  destruct (bool_decide (a = "") || ospath.endswith_sep a).
  - by intros ?%(inj (String.app a)).
  - intros Heq%(inj (String.app a)). by injection Heq.
Qed.

(** X22. Two tasks write the same file only if their stems make the same
    name. When the stems of the two point files hold no underscore, this
    happens only for equal point stems and equal river stems; an
    underscore in a point stem can make different pairs collide, as
    [a_b] with [c] and [a] with [b_c] do. *)
Theorem outputs_collide_only_on_equal_stems (save_path : string) :
  let stem := λ path : string, (ospath.splitext (ospath.basename path)).1 in
  (∀ task task' : string * string,
     str_contains "_" (stem task.1) = false →
     str_contains "_" (stem task'.1) = false →
     output_file save_path task = output_file save_path task' →
     stem task.1 = stem task'.1 ∧ stem task.2 = stem task'.2)
  ∧ output_file save_path ("a_b.geojson", "c.geojson")
    = output_file save_path ("a.geojson", "b_c.geojson").
Proof.
  intros stem. split; [|reflexivity].
  intros task task' Hstem Hstem' Heq. unfold output_file in Heq.
  apply join_inj in Heq;
    [|apply startswith_sep_contains, layer_file_has_no_sep..].
  apply str_app_inj_r in Heq.
  by apply (str_cut_at_first "_").
Qed.

(** ** What a task prints *)

(** X23. The lines of a task that reads both layers, reconciles their
    CRS and gets through the loop over the points (when verbose; nothing
    otherwise): the two paths, the lines of the loop, then either that
    nothing was selected or the number of selected rivers, which is the
    number of rows of the layer written, and the name of the layer
    saved. *)
Theorem task_trace (river_path point_path save_path : string) (radius : pyval) (w : world)
    (river_gdf point_gdf point_gdf' : frame) (selected_rivers : list feature) :
  fs w !! river_path ≫= decode = Some river_gdf →
  fs w !! point_path ≫= decode = Some point_gdf →
  value (ensure_same_crs river_gdf point_gdf) = Ok point_gdf' →
  value (select_rivers river_gdf point_gdf' radius) = Ok selected_rivers →
  let new_layer_name :=
    (ospath.splitext (ospath.basename point_path)).1 +:+ "_"
      +:+ (ospath.splitext (ospath.basename river_path)).1 in
  stdout (run (process_layers river_path point_path save_path radius) w).2
  = stdout w
    ++ printed (Processing point_path river_path)
    ++ output (select_rivers river_gdf point_gdf' radius)
    ++ match selected_rivers with
       | [] => printed (NoFeaturesSelected new_layer_name)
       | _ :: _ =>
           printed (NumberOfSelected (length selected_rivers))
           ++ printed (LayerSaved new_layer_name)
       end.
Proof.
  intros Hriver Hpoint Hcrs Hselect new_layer_name. unfold process_layers.
  fold new_layer_name.
  rewrite (create_new_layer_loaded _ _ _ _ _ _ river_gdf point_gdf) by done.
  rewrite run_bind, (run_is_print (ensure_same_crs _ _)) by apply ensure_same_crs_is_print.
  rewrite Hcrs, ensure_same_crs_output, app_nil_r. cbn [fs stdout].
  rewrite run_bind, (run_is_print (select_rivers _ _ _)) by apply select_rivers_is_print.
  rewrite Hselect. cbn [fs stdout]. unfold save_selected.
  destruct selected_rivers as [|river rest].
  - rewrite run_print_if_verbose. cbn [snd stdout]. by rewrite <- !app_assoc.
  - rewrite run_bind, run_print_if_verbose. unfold save_layer_as_geojson.
    cbn [run fs stdout gdf_rows]. rewrite run_print_if_verbose. cbn [snd stdout].
    by rewrite <- !app_assoc.
Qed.

End Scripts.

Arguments Ret {L A} a.
Arguments Raise {L A} e.
Arguments Print {L A} l k.
Arguments ReadFile {L A} path k.
Arguments ToFile {L A} path c k.

(** ** The scripts on the planar instance *)

Module PlanarRuns.

Import Planar.

Local Abbreviation world0 := (mkWorld (L := planar) disk []).

Local Abbreviation broken_task :=
  (process_layers (L := planar) false "rivers/broken.geojson" "points/x.geojson" "out"
     (PyFloat 111000)).

(** Two river files of one stem in two directories. *)
Local Abbreviation same_stem_batch :=
  (mkPool world0
     (submit_all false ["points/x.geojson"] ["rivers/a/r.geojson"; "rivers/b/r.geojson"]
        "out" (PyFloat 111000))
     0).

(** ** Distances and buffers of the instance *)

Lemma euclid_same (p : R * R) : euclid p p = 0%R.
Proof.
  unfold euclid. replace (_ + _)%R with 0%R by lra. apply sqrt_0.
Qed.

Lemma euclid_meridian (x y1 y2 : R) : (y1 <= y2)%R → euclid (x, y1) (x, y2) = (y2 - y1)%R.
Proof.
  intros Hle. unfold euclid. simpl.
  replace (_ + _)%R with ((y2 - y1) * (y2 - y1))%R by lra.
  apply sqrt_square. lra.
Qed.

(** The radius of the buffer is positive when the metres are. *)
Lemma search_radius_positive (meters latitude : R) :
  (0 < meters)%R →
  (0 < Rmax (meters / 111000) (meters / (111000 * cos (radians latitude))))%R.
Proof.
  intros Hm. eapply Rlt_le_trans; [|apply Rmax_l].
  apply Rdiv_lt_0_compat; lra.
Qed.

(** A river at the point itself is in every buffer of positive radius. *)
Lemma meets_own_buffer (x y r : R) : (0 < r)%R → meets (Pt x y) (Disc x y r) = true.
Proof.
  intros Hr. unfold meets. simpl. rewrite euclid_same.
  destruct (Rlt_dec 0 r); [|lra]. destruct (Rle_dec 0 r); [done|lra].
Qed.

Example list_files_points : list_files walk "points" = ["points/x.geojson"].
Proof. reflexivity. Qed.

Example list_files_rivers :
  list_files walk "rivers" = ["rivers/a/r.geojson"; "rivers/b/r.geojson"].
Proof. reflexivity. Qed.

Example list_files_any_case :
  list_files (λ _, [("maps", [], ["Danube.GeoJSON"; "danube.json"])]) "maps"
  = ["maps/Danube.GeoJSON"].
Proof. reflexivity. Qed.

Example output_file_same_stem :
  output_file "out" ("points/x.geojson", "rivers/a/r.geojson") = "out/x_r.geojson"
  ∧ output_file "out" ("points/x.geojson", "rivers/b/r.geojson") = "out/x_r.geojson".
Proof. split; reflexivity. Qed.

(** ** The matcher on the small batch *)

Lemma radius_at_equator (x : R) :
  Rmax (111000 / 111000) (111000 / (111000 * cos (radians (point_y (Pt x 0))))) = 1%R.
Proof.
  simpl. unfold radians. replace (0 * PI / 180)%R with 0%R by lra. rewrite cos_0.
  replace (111000 / (111000 * 1))%R with 1%R by lra.
  replace (111000 / 111000)%R with 1%R by lra. apply Rmax_left. lra.
Qed.

Lemma town_at_river (name : string) :
  nearest_of false (Pt 0 0) (mkGDF epsg4326 [mkFeature (Pt 0 0) [("name", name)]])
    (PyFloat 111000)
  = Some (mkFeature (Pt 0 0) [("name", name)]).
Proof.
  apply (nearest_of_single (L := planar) false (Pt 0 0)
           (mkFeature (Pt 0 0) [("name", name)]) epsg4326 111000).
  apply meets_own_buffer, search_radius_positive. lra.
Qed.

Lemma euclid_parallel (x1 x2 y : R) : (x1 <= x2)%R → euclid (x2, y) (x1, y) = (x2 - x1)%R.
Proof.
  intros Hle. unfold euclid. simpl.
  replace (_ + _)%R with ((x2 - x1) * (x2 - x1))%R by lra.
  apply sqrt_square. lra.
Qed.

Lemma town_far_from_river :
  nearest_of false (Pt 0 0) rivers_far (PyFloat 111000) = None.
Proof.
  apply (nearest_of_none (L := planar) false (Pt 0 0) river_far epsg4326 111000).
  rewrite (radius_at_equator 0). simpl. unfold meets. simpl.
  rewrite euclid_parallel by lra.
  destruct (Rlt_dec 0 1); [|done]. destruct (Rle_dec (5 - 0) 1); [lra|done].
Qed.

Lemma disk_lookup :
  disk !! "points/x.geojson" = Some (Some points_layer)
  ∧ disk !! "rivers/a/r.geojson" = Some (Some rivers_a)
  ∧ disk !! "rivers/b/r.geojson" = Some (Some rivers_b)
  ∧ disk !! "rivers/c/r.geojson" = Some (Some rivers_c)
  ∧ disk !! "rivers/far.geojson" = Some (Some rivers_far)
  ∧ disk !! "rivers/broken.geojson" = Some None
  ∧ disk !! "out/x_r.geojson" = None.
Proof. split_and!; reflexivity. Qed.

(** ** The runs of the tasks of the small batch *)

(** A task on the town and on a layer of one river through the town. *)
Lemma task_writes (river_path name : string) (w : world) :
  fs w !! river_path
  = Some (Some (mkGDF epsg4326 [mkFeature (Pt 0 0) [("name", name)]])) →
  fs w !! "points/x.geojson" = Some (Some points_layer) →
  ∃ out,
    run (process_layers false river_path "points/x.geojson" "out" (PyFloat 111000)) w
    = (Ok tt,
       mkWorld
         (<[output_file "out" ("points/x.geojson", river_path)
            := Some (mkGDF epsg4326 [mkFeature (Pt 0 0) [("name", name)]])]> (fs w))
         (stdout w ++ out)).
Proof.
  intros Hriver Hpoint. unfold process_layers.
  edestruct (create_new_layer_run (L := planar) false river_path "points/x.geojson")
    as [out ->].
  exists out.
  assert (fs w !! river_path ≫= decode
          = Some (mkGDF epsg4326 [mkFeature (Pt 0 0) [("name", name)]])) as ->
    by exact (f_equal (mbind decode) Hriver).
  assert (fs w !! "points/x.geojson" ≫= decode = Some points_layer) as ->
    by exact (f_equal (mbind decode) Hpoint).
  simpl.
  rewrite (select_rivers_float (L := planar)). simpl.
  unfold turn_selects. simpl. by rewrite town_at_river.
Qed.

(** With a numeric radius, which [main] never passes, the two tasks of
    this batch both write [out/x_r.geojson]: under one thread river B is
    written last; under eight threads the second task can get through
    while the first has only read its river layer, and river A is written
    last. *)
Lemma same_stem_batch_differs : ¬ same_files_1_and_8 false same_stem_batch.
Proof.
  intros Hsame.
  set (task_a := process_layers false "rivers/a/r.geojson" "points/x.geojson" "out"
                   (PyFloat 111000)).
  set (task_b := process_layers false "rivers/b/r.geojson" "points/x.geojson" "out"
                   (PyFloat 111000)).
  assert (∃ K, task_a = ReadFile "rivers/a/r.geojson" K) as [K HK].
  { eexists. reflexivity. }
  destruct disk_lookup as (Hx & Hra & Hrb & _).
  (* what each order of the two writes leaves *)
  assert (Hab : ∀ w, fs w = disk →
            fs (run task_b (run task_a w).2).2
            = <["out/x_r.geojson" := Some rivers_b]>
                (<["out/x_r.geojson" := Some rivers_a]> disk)).
  { intros [files out0] Hw. simpl in Hw. subst files.
    destruct (task_writes "rivers/a/r.geojson" "A" (mkWorld (L := planar) disk out0))
      as [out_a Hrun_a]; [exact Hra|exact Hx|].
    fold task_a in Hrun_a. rewrite Hrun_a. cbn [snd fs stdout].
    match goal with
    | |- context [run task_b ?w1] =>
        destruct (task_writes "rivers/b/r.geojson" "B" w1) as [out_b Hrun_b]
    end.
    { cbn [fs]. rewrite lookup_insert_ne by (by vm_compute). exact Hrb. }
    { cbn [fs]. rewrite lookup_insert_ne by (by vm_compute). exact Hx. }
    fold task_b in Hrun_b. rewrite Hrun_b. done. }
  assert (Hba : ∀ w, fs w = disk →
            fs (run (K (disk !! "rivers/a/r.geojson")) (run task_b w).2).2
            = <["out/x_r.geojson" := Some rivers_a]>
                (<["out/x_r.geojson" := Some rivers_b]> disk)).
  { intros [files out0] Hw. simpl in Hw. subst files.
    destruct (task_writes "rivers/b/r.geojson" "B" (mkWorld (L := planar) disk out0))
      as [out_b Hrun_b]; [exact Hrb|exact Hx|].
    fold task_b in Hrun_b. rewrite Hrun_b. cbn [snd fs stdout].
    match goal with
    | |- context [run _ ?w1] =>
        destruct (task_writes "rivers/a/r.geojson" "A" w1) as [out_a Hrun_a]
    end.
    { cbn [fs]. rewrite lookup_insert_ne by (by vm_compute). exact Hra. }
    { cbn [fs]. rewrite lookup_insert_ne by (by vm_compute). exact Hx. }
    fold task_a in Hrun_a. rewrite HK in Hrun_a.
    change (run (ReadFile "rivers/a/r.geojson" K) ?w1)
      with (run (K (fs w1 !! "rivers/a/r.geojson")) w1) in Hrun_a.
    cbn [fs] in Hrun_a.
    rewrite lookup_insert_ne in Hrun_a by (by vm_compute).
    exact (f_equal (λ r, fs r.2) Hrun_a). }
  (* one thread: A, then B; eight threads: A reads, B runs, A goes on *)
  destruct (two_tasks_in_order false 1 task_a task_b world0)
    as (sched1 & s1 & Hrun1 & Hall1 & Hfs1); [lia|done|done|].
  destruct (two_tasks_overtaking false 8 task_a (K (disk !! "rivers/a/r.geojson")) task_b
              world0 world0) as (sched8 & s8 & Hrun8 & Hall8 & Hfs8); [lia| |done|].
  { by rewrite HK. }
  rewrite Hab in Hfs1 by done. rewrite Hba in Hfs8 by done.
  specialize (Hsame sched1 sched8 s1 s8 Hrun1 Hall1 Hrun8 Hall8).
  rewrite Hfs1, Hfs8 in Hsame.
  apply (f_equal (λ files, files !! "out/x_r.geojson")) in Hsame.
  rewrite !lookup_insert_eq in Hsame. discriminate Hsame.
Qed.

(** ** The pipeline on the small batch *)

Example spec_normalize_mixed :
  map spec_normalize (map feat_geometry (gdf_rows mixed_layer))
  = [Matched (Pt ((0 + 2) / 2) ((0 + 2) / 2)); Matched (Pt 0 0); Skipped (Disc 5 5 1)].
Proof. reflexivity. Qed.

(** The river layer in the other CRS: the town is reprojected. *)
Lemma crs_reconciled_witness :
  gdf_crs rivers_c ≠ gdf_crs points_layer
  ∧ ∃ out,
      run (create_new_layer false "rivers/c/r.geojson" "points/x.geojson" "x_r" "out"
             (PyFloat 111000)) world0
      = run (bind (select_rivers false rivers_c (mkGDF crs84 [town]) (PyFloat 111000))
               (λ selected_rivers, save_selected false rivers_c selected_rivers "x_r" "out"))
            (mkWorld (fs world0) (stdout world0 ++ out)).
Proof.
  split; [discriminate|].
  exact (proj2 (crs_reconciled false "rivers/c/r.geojson" "points/x.geojson" "x_r" "out"
                  (PyFloat 111000) world0 rivers_c points_layer eq_refl eq_refl)
               ltac:(discriminate)).
Defined.

(** A rectangle, a point and a disc against the river layer. *)
Lemma normalization_witness :
  (∀ geom : shape, is_Pt (Pt (center geom).1 (center geom).2) = true)
  ∧ value (select_rivers false rivers_a mixed_layer (PyFloat 111000))
    = Ok (flat_map (λ geom, match spec_normalize geom with
                            | Matched point =>
                                option_list (nearest_of false point rivers_a (PyFloat 111000))
                            | Skipped _ => []
                            end)
            [Rect 0 0 2 2; Pt 0 0; Disc 5 5 1]).
Proof.
  split; [done|].
  exact (proj1 (normalization_spec false rivers_a mixed_layer 111000 (λ _, eq_refl))).
Defined.

Lemma town_selects_nothing_far :
  value (select_rivers false rivers_far points_layer (PyFloat 111000)) = Ok [].
Proof.
  rewrite (select_rivers_float (L := planar)).
  change (flat_map _ _)
    with (option_list (nearest_of false (Pt 0 0) rivers_far (PyFloat 111000)) ++ []).
  by rewrite town_far_from_river.
Qed.

(** The town against the river five degrees away: no file. *)
Lemma no_match_no_output_witness :
  value (select_rivers false rivers_far points_layer (PyFloat 111000)) = Ok []
  ∧ (run (process_layers false "rivers/far.geojson" "points/x.geojson" "out"
            (PyFloat 111000)) world0).1 = Ok tt
  ∧ fs (run (process_layers false "rivers/far.geojson" "points/x.geojson" "out"
               (PyFloat 111000)) world0).2 = disk.
Proof.
  split; [exact town_selects_nothing_far|].
  destruct (no_match_no_output false "rivers/far.geojson" "points/x.geojson" "out"
              (PyFloat 111000) world0 rivers_far points_layer points_layer
              eq_refl eq_refl eq_refl town_selects_nothing_far) as (Hok & Hfs & _).
  split; [exact Hok|exact Hfs].
Defined.

Lemma town_selects_river_A :
  flat_map (turn_selects false rivers_a 111000)
    (map feat_geometry (gdf_rows (assign_geometry (centroid_of_MultiPolygon (L := planar))
                                    points_layer)))
  = [river_A].
Proof.
  change (flat_map _ _)
    with (option_list
            (nearest_of false (Pt 0 0)
               (mkGDF epsg4326 [mkFeature (Pt 0 0) [("name", "A")]]) (PyFloat 111000))
          ++ []).
  by rewrite town_at_river.
Qed.

(** The town against the river through it: [out/x_r.geojson]. *)
Lemma matched_rivers_written_witness :
  ∃ out,
    run (process_layers false "rivers/a/r.geojson" "points/x.geojson" "out" (PyFloat 111000))
        world0
    = (Ok tt,
       mkWorld (<["out/x_r.geojson" := Some (mkGDF epsg4326 [river_A])]> disk) out).
Proof.
  destruct (matched_rivers_written false "rivers/a/r.geojson" "points/x.geojson" "out" 111000
              world0 rivers_a points_layer points_layer eq_refl eq_refl eq_refl)
    as [out Hrun].
  { rewrite town_selects_river_A. discriminate. }
  exists out. rewrite Hrun, town_selects_river_A. reflexivity.
Defined.

(** ** The batch of the small disk under [main] *)

Lemma reproject_keeps_points (g : GeoDataFrame shape) (c : option string)
    (g' : GeoDataFrame shape) :
  reproject g c = Ok g' →
  Exists (is_point_row (L := planar)) (gdf_rows g) →
  Exists (is_point_row (L := planar)) (gdf_rows g').
Proof.
  unfold reproject. destruct (gdf_crs g), c; try done.
  destruct (_ && _); [|done]. by intros [= <-].
Qed.

Lemma cli_batch_run :
  exec_all false 8 [Work 0; Work 0; Work 1; Work 1; Collect 1; Collect 0]
    (main_submitted false walk "points" "rivers" "out" "5000" world0)
  = Some (mkPool world0
            [mkFuture (Raise TypeError) true true; mkFuture (Raise TypeError) true true] 2).
Proof. reflexivity. Qed.

(** [main --radius 5000] on the disk, with eight threads: both tasks
    read their two layers and end in [TypeError]; no file is written
    and nothing is printed. *)
Lemma cli_radius_is_a_string_witness :
  ∃ s,
    exec_all false 8 [Work 0; Work 0; Work 1; Work 1; Collect 1; Collect 0]
      (main_submitted false walk "points" "rivers" "out" "5000" world0) = Some s
    ∧ map remaining (futures s) = [Raise TypeError; Raise TypeError]
    ∧ fs (shared s) = disk
    ∧ stdout (main_returns false s) = [].
Proof.
  eexists. split; [exact cli_batch_run|]. split; [reflexivity|].
  destruct (cli_radius_is_a_string false walk "points" "rivers" "out" "5000" world0 8 _ _
              (λ _, eq_refl) reproject_keeps_points cli_batch_run)
    as (_ & _ & _ & Hfs & Hquiet).
  split; [exact Hfs|exact (Hquiet eq_refl)].
Defined.

(** ** A river file that cannot be read *)

Lemma broken_batch_run :
  exec_all false 8 [Work 0; Collect 0] (submitted [broken_task] world0)
  = Some (mkPool world0
            [mkFuture (Raise (DataSourceError "rivers/broken.geojson")) true true] 1).
Proof. reflexivity. Qed.

(** The batch of that one task: it fails, it is collected, and the
    batch is over with the bar at one. *)
Lemma failures_caught_and_joined_witness :
  ∃ s,
    exec_all false 8 [Work 0; Collect 0] (submitted [broken_task] world0) = Some s
    ∧ Forall (λ f, finished (remaining f) = true) (futures s)
    ∧ pbar s = 1.
Proof.
  eexists. split; [exact broken_batch_run|].
  exact (proj2 (proj2 (proj2
           (failures_caught_and_joined false 8 [broken_task] world0 [Work 0; Collect 0] _
              broken_batch_run))) eq_refl).
Defined.

(** C4, counterexample. The task fails with the error of [read_file],
    and when the batch is over nothing has been printed: without
    [verbose] the failure is recorded nowhere. *)
Lemma failure_leaves_no_record : ¬ failures_reported false (submitted [broken_task] world0).
Proof.
  intros Hreported.
  specialize (Hreported 8 [Work 0; Collect 0] _ broken_batch_run eq_refl 0 _
                (DataSourceError "rivers/broken.geojson") eq_refl eq_refl).
  by apply elem_of_nil in Hreported.
Qed.

(** ** Two river files with different stems *)

Lemma distinct_rivers_outputs :
  NoDup (map (output_file "out") (pairs ["points/x.geojson"] distinct_rivers))
  ∧ ∀ task task',
      task ∈ pairs ["points/x.geojson"] distinct_rivers →
      task' ∈ pairs ["points/x.geojson"] distinct_rivers →
      output_file "out" task ≠ task'.1 ∧ output_file "out" task ≠ task'.2.
Proof.
  split.
  - change (NoDup ["out/x_r.geojson"; "out/x_far.geojson"]).
    apply NoDup_cons. split; [|apply NoDup_singleton].
    intros Hin. apply list_elem_of_In in Hin. simpl in Hin. by destruct Hin as [[=]|[]].
  - intros task task' Htask Htask'.
    apply list_elem_of_In in Htask, Htask'. simpl in Htask, Htask'.
    destruct Htask as [<-|[<-|[]]], Htask' as [<-|[<-|[]]]; split; by vm_compute.
Qed.

(** The batch of the town against the two layers, under one thread and
    under eight with the second task overtaking: the same files. *)
Lemma distinct_outputs_same_files_witness :
  ∃ sched1 sched8 s1 s8,
    exec_all false 1 sched1
      (mkPool world0 (submit_all false ["points/x.geojson"] distinct_rivers "out"
                        (PyFloat 111000)) 0) = Some s1
    ∧ all_collected s1 = true
    ∧ exec_all false 8 sched8
        (mkPool world0 (submit_all false ["points/x.geojson"] distinct_rivers "out"
                          (PyFloat 111000)) 0) = Some s8
    ∧ all_collected s8 = true
    ∧ fs (shared s1) = fs (shared s8).
Proof.
  set (task_a := process_layers false "rivers/a/r.geojson" "points/x.geojson" "out"
                   (PyFloat 111000)).
  set (task_far := process_layers false "rivers/far.geojson" "points/x.geojson" "out"
                     (PyFloat 111000)).
  destruct (two_tasks_in_order false 1 task_a task_far world0)
    as (sched1 & s1 & Hrun1 & Hall1 & _); [lia|done|done|].
  assert (∃ K, task_a = ReadFile "rivers/a/r.geojson" K) as [K HK]
    by (eexists; reflexivity).
  destruct (two_tasks_overtaking false 8 task_a (K (disk !! "rivers/a/r.geojson")) task_far
              world0 world0) as (sched8 & s8 & Hrun8 & Hall8 & _); [lia| |done|].
  { by rewrite HK. }
  destruct distinct_rivers_outputs as [Hnd Hio].
  exists sched1, sched8, s1, s8.
  split; [exact Hrun1|]. split; [exact Hall1|]. split; [exact Hrun8|].
  split; [exact Hall8|].
  exact (distinct_outputs_same_files false ["points/x.geojson"] distinct_rivers "out"
           (PyFloat 111000) world0 1 8 sched1 sched8 s1 s8 Hnd Hio Hrun1 Hall1 Hrun8 Hall8).
Defined.

(** ** A river returned from beyond the radius *)

Lemma meridian_meters_degrees (degrees latitude : R) :
  (meters_to_degrees (PyFloat (meridian_meters degrees)) latitude)
  = Ok (degrees, (meridian_meters degrees / (111000 * cos (radians latitude)))%R).
Proof.
  unfold meters_to_degrees, meridian_meters. simpl. do 2 f_equal. lra.
Qed.

Lemma radius_at_60 :
  Rmax (111000 / 111000) (111000 / (111000 * cos (radians (point_y village)))) = 2%R.
Proof.
  simpl. unfold radians. replace (60 * PI / 180)%R with (PI / 3)%R by lra.
  rewrite cos_PI3. replace (111000 / (111000 * (1 / 2)))%R with 2%R by lra.
  replace (111000 / 111000)%R with 1%R by lra. apply Rmax_right. lra.
Qed.

(** C10. No distance is compared with the radius after the buffer: a
    river alone in the buffer is returned whatever its distance. At
    latitude 60 the buffer of a 111000 m search has a radius of two
    degrees, and the river returned lies one and a half degrees of
    latitude, 166500 m, from the point. *)
Theorem returned_river_beyond_radius :
  (∀ (lib : GeoLib) (verbose : bool) (point : geometry) (river : Feature geometry)
     (crs : option string) (meters : R),
     intersects (feat_geometry river)
       (buffer point
          (Rmax (meters / 111000) (meters / (111000 * cos (radians (point_y point))))))
     = true →
     value (find_nearest_river verbose point (mkGDF crs [river]) (PyFloat meters))
     = Ok (Some river))
  ∧ value (find_nearest_river false village (mkGDF epsg4326 [river_north]) (PyFloat 111000))
    = Ok (Some river_north)
  ∧ distance village (feat_geometry river_north) = (3 / 2)%R
  ∧ (111000 < meridian_meters (distance village (feat_geometry river_north)))%R.
Proof.
  assert (Hdist : distance village (feat_geometry river_north) = (3 / 2)%R).
  { simpl. rewrite euclid_meridian by lra. lra. }
  split_and!.
  - intros lib verbose point river crs meters Hin.
    rewrite find_nearest_river_float. f_equal. by apply nearest_of_single.
  - rewrite (find_nearest_river_float (L := planar)). f_equal.
    apply (nearest_of_single (L := planar) false village river_north epsg4326 111000).
    rewrite radius_at_60. simpl. unfold meets. simpl.
    assert (euclid (0, 123 / 2) (0, 60) = (3 / 2))%R as ->.
    { unfold euclid. simpl.
      replace (_ + _)%R with ((3 / 2) * (3 / 2))%R by lra. apply sqrt_square. lra. }
    destruct (Rlt_dec 0 2); [|lra]. destruct (Rle_dec (3 / 2) 2); [done|lra].
  - exact Hdist.
  - rewrite Hdist. unfold meridian_meters. lra.
Qed.

(** ** The converter on the cosine of the examples *)



(** ** The batch of [main] under one thread and under eight *)




(** ** The further properties on the instance *)

Lemma buffer_radius_is_degrees_lon_witness :
  ∃ degrees_lat degrees_lon,
    meters_to_degrees (PyFloat 111000) 60 = Ok (degrees_lat, degrees_lon)
    ∧ (0 <= degrees_lat <= degrees_lon)%R
    ∧ py_max degrees_lat degrees_lon = degrees_lon.
Proof.
  apply buffer_radius_is_degrees_lon; [lra|]. rewrite Rabs_pos_eq; lra.
Defined.

Lemma degrees_lon_grows_with_latitude_witness :
  ∃ degrees_lat degrees_lon1 degrees_lon2,
    meters_to_degrees (PyFloat 111000) 0 = Ok (degrees_lat, degrees_lon1)
    ∧ meters_to_degrees (PyFloat 111000) (-60) = Ok (degrees_lat, degrees_lon2)
    ∧ (degrees_lon1 <= degrees_lon2)%R.
Proof.
  apply degrees_lon_grows_with_latitude; [lra| |].
  - rewrite Rabs_R0. apply Rabs_pos.
  - rewrite Rabs_left; lra.
Defined.

Lemma town_selects_river_A_value :
  value (select_rivers false rivers_a points_layer (PyFloat 111000)) = Ok [river_A].
Proof. by rewrite select_rivers_float, town_selects_river_A. Qed.

Lemma selected_rivers_come_from_layer_witness :
  value (select_rivers false rivers_a points_layer (PyFloat 111000)) = Ok [river_A]
  ∧ (∀ f, f ∈ [river_A] → f ∈ gdf_rows rivers_a)
  ∧ length [river_A] ≤ length (gdf_rows points_layer).
Proof.
  split; [exact town_selects_river_A_value|].
  exact (selected_rivers_come_from_layer false rivers_a points_layer (PyFloat 111000)
           [river_A] town_selects_river_A_value).
Defined.

Lemma process_layers_footprint_witness :
  (run (process_layers false "rivers/a/r.geojson" "points/x.geojson" "out" (PyFloat 111000))
       world0).1
  = (run (process_layers false "rivers/a/r.geojson" "points/x.geojson" "out" (PyFloat 111000))
         (mkWorld (L := planar) (<["rivers/notes.md" := None]> disk) [])).1.
Proof.
  assert (∀ path, path ≠ "rivers/notes.md" →
            disk !! path = <["rivers/notes.md" := None]> disk !! path) as Hagree.
  { intros path Hpath. symmetry. by apply lookup_insert_ne. }
  destruct (process_layers_footprint false "rivers/a/r.geojson" "points/x.geojson" "out"
              (PyFloat 111000) world0
              (mkWorld (L := planar) (<["rivers/notes.md" := None]> disk) [])
              (Hagree "rivers/a/r.geojson" ltac:(discriminate))
              (Hagree "points/x.geojson" ltac:(discriminate)))
    as (Hsame & _ & _).
  exact Hsame.
Defined.

Lemma process_layers_rerun_witness :
  let task :=
    process_layers false "rivers/a/r.geojson" "points/x.geojson" "out" (PyFloat 111000) in
  output_file "out" ("points/x.geojson", "rivers/a/r.geojson") = "out/x_r.geojson"
  ∧ (run task (run task world0).2).1 = (run task world0).1
  ∧ fs (run task (run task world0).2).2 = fs (run task world0).2.
Proof.
  split; [reflexivity|].
  apply (process_layers_rerun false "rivers/a/r.geojson" "points/x.geojson" "out"
           (PyFloat 111000) world0); by vm_compute.
Defined.

Lemma output_file_ignores_directories_witness :
  output_file "out" (ospath.join "points" "x.geojson", ospath.join "rivers/a" "r.geojson")
  = output_file "out" (ospath.join "elsewhere" "x.geojson", ospath.join "rivers/b" "r.geojson").
Proof.
  exact (output_file_ignores_directories "out" "points" "elsewhere" "rivers/a" "rivers/b"
           "x.geojson" "r.geojson" eq_refl eq_refl).
Defined.

Lemma listed_file_stem_witness :
  ospath.splitext (ospath.basename (ospath.join "maps" "Danube.GeoJSON"))
  = ("Danube", ".GeoJSON")
  ∧ ospath.splitext (ospath.basename (ospath.join "maps" "..geojson")) = ("..geojson", "").
Proof.
  split.
  - exact (listed_file_stem "maps" "Danube.GeoJSON" eq_refl eq_refl).
  - exact (listed_file_stem "maps" "..geojson" eq_refl eq_refl).
Defined.

Lemma progress_bar_reaches_total_witness :
  ∃ s,
    exec_all false 8 [Work 0; Work 0; Work 1; Work 1; Collect 1; Collect 0]
      (main_submitted false walk "points" "rivers" "out" "5000" world0) = Some s
    ∧ pbar s ≤ 2 ∧ (all_collected s = true ↔ pbar s = 2).
Proof.
  eexists. split; [exact cli_batch_run|].
  exact (progress_bar_reaches_total false walk "points" "rivers" "out" "5000" world0 8 _ _
           cli_batch_run).
Defined.

Lemma empty_batch_witness :
  list_files walk "nowhere" = []
  ∧ futures (main_submitted false walk "nowhere" "rivers" "out" "5000" world0) = []
  ∧ main_returns false (main_submitted false walk "nowhere" "rivers" "out" "5000" world0)
    = world0.
Proof.
  split; [reflexivity|].
  destruct (empty_batch false walk "nowhere" "rivers" "out" "5000" world0
              (or_introl eq_refl)) as (Hnone & _ & _ & Hret).
  split; [exact Hnone|exact Hret].
Defined.

Lemma lake_meets_river_A :
  filter (λ f : Feature (@geometry planar),
            intersects (feat_geometry f)
              (union_of (map feat_geometry (gdf_rows lakes_layer))) = true)
         (gdf_rows rivers_a)
  = [river_A].
Proof.
  simpl gdf_rows. rewrite filter_cons, decide_True; [done|].
  simpl. apply meets_own_buffer. lra.
Qed.

Lemma intersect_selects_by_union_witness :
  run (intersect_process_layers (L := planar) false union_of "rivers/a/r.geojson" "points/lake.geojson"
         "out")
      (mkWorld (L := planar) disk_with_lake [])
  = (Ok tt,
     mkWorld (<["out/lake_r.geojson" := Some (mkGDF epsg4326 [river_A])]> disk_with_lake) []).
Proof.
  destruct (intersect_selects_by_union (L := planar) false union_of "rivers/a/r.geojson"
              "points/lake.geojson" "out" (mkWorld (L := planar) disk_with_lake [])
              rivers_a lakes_layer lakes_layer eq_refl eq_refl eq_refl) as [_ Hrun].
  rewrite Hrun.
  match goal with
  | |- context [@filter ?A ?B ?F ?P ?D ?l] => set (selected := @filter A B F P D l)
  end.
  assert (selected = [river_A]) as -> by exact lake_meets_river_A. reflexivity.
Defined.

Lemma intersect_batch_run :
  exec_all false 8 [Work 0; Work 0; Work 1; Work 1; Collect 1; Collect 0]
    (intersect_main_submitted (L := planar) false union_of walk_hamlets "points" "rivers" "out"
       (mkWorld (L := planar) disk_with_lake []))
  = Some (mkPool (mkWorld (L := planar) disk_with_lake [])
            [mkFuture (Ret tt) true true; mkFuture (Ret tt) true true] 2).
Proof. reflexivity. Qed.

Lemma lake_outputs :
  NoDup (map (λ task : string * string, output_file "out" task)
           (pairs ["points/lake.geojson"] ["rivers/a/r.geojson"; "rivers/broken.geojson"]))
  ∧ ∀ task task',
      task ∈ pairs ["points/lake.geojson"] ["rivers/a/r.geojson"; "rivers/broken.geojson"] →
      task' ∈ pairs ["points/lake.geojson"] ["rivers/a/r.geojson"; "rivers/broken.geojson"] →
      output_file "out" task ≠ task'.1 ∧ output_file "out" task ≠ task'.2.
Proof.
  split.
  - change (NoDup ["out/lake_r.geojson"; "out/lake_broken.geojson"]).
    apply NoDup_cons. split; [|apply NoDup_singleton].
    intros Hin. apply list_elem_of_In in Hin. simpl in Hin. by destruct Hin as [[=]|[]].
  - intros task task' Htask Htask'.
    apply list_elem_of_In in Htask, Htask'. simpl in Htask, Htask'.
    destruct Htask as [<-|[<-|[]]], Htask' as [<-|[<-|[]]]; split; by vm_compute.
Qed.

(** The task of the lake and river A alone: it writes river A. *)
Lemma lake_task_alone :
  run (intersect_process_layers (L := planar) false union_of "rivers/a/r.geojson"
         "points/lake.geojson" "out")
      (mkWorld (L := planar) disk_with_lake [])
  = (Ok tt,
     mkWorld (<["out/lake_r.geojson" := Some (mkGDF epsg4326 [river_A])]> disk_with_lake) []).
Proof.
  rewrite (intersect_process_layers_loaded (L := planar) false union_of "rivers/a/r.geojson"
             "points/lake.geojson" "out" (mkWorld (L := planar) disk_with_lake [])
             rivers_a lakes_layer lakes_layer eq_refl eq_refl eq_refl).
  match goal with
  | |- context [@filter ?A ?B ?F ?P ?D ?l] => set (selected := @filter A B F P D l)
  end.
  assert (selected = [river_A]) as -> by exact lake_meets_river_A. reflexivity.
Qed.

Lemma intersect_batch_as_if_alone_witness :
  ∃ sched s f0 f1,
    exec_all false 8 sched
      (submitted
         (map (λ f, on_files (λ path, path) (remaining f))
              (intersect_submit_all (L := planar) false union_of ["points/lake.geojson"]
                 ["rivers/a/r.geojson"; "rivers/broken.geojson"] "out"))
         (mkWorld (L := planar) disk_with_lake [])) = Some s
    ∧ all_collected s = true
    ∧ futures s !! 0 = Some f0 ∧ remaining f0 = Ret tt
    ∧ futures s !! 1 = Some f1
    ∧ remaining f1 = Raise (DataSourceError "rivers/broken.geojson")
    ∧ fs (shared s) !! "out/lake_r.geojson" = Some (Some (mkGDF epsg4326 [river_A]))
    ∧ fs (shared s) !! "out/lake_broken.geojson" = None
    ∧ fs (shared s) !! "rivers/a/r.geojson" = Some (Some rivers_a).
Proof.
  set (w := mkWorld (L := planar) disk_with_lake []).
  set (task_a := intersect_process_layers (L := planar) false union_of "rivers/a/r.geojson"
                   "points/lake.geojson" "out").
  set (task_broken := intersect_process_layers (L := planar) false union_of
                        "rivers/broken.geojson" "points/lake.geojson" "out").
  destruct (two_tasks_in_order false 8 (on_files (λ path, path) task_a)
              (on_files (λ path, path) task_broken) w)
    as (sched & s & Hrun & Hall & _); [lia|done|done|].
  destruct lake_outputs as [Hnd Hio].
  destruct (intersect_batch_as_if_alone (L := planar) false union_of (λ path, path)
              ["points/lake.geojson"] ["rivers/a/r.geojson"; "rivers/broken.geojson"] "out"
              w 8 sched s Hnd Hio Hrun Hall) as [Htasks Hframe].
  destruct (Htasks 0 ("points/lake.geojson", "rivers/a/r.geojson") eq_refl)
    as (f0 & Hf0 & Hend0 & Hout0).
  destruct (Htasks 1 ("points/lake.geojson", "rivers/broken.geojson") eq_refl)
    as (f1 & Hf1 & Hend1 & Hout1).
  assert (run (on_files (λ path, path) task_a) w
          = (Ok tt,
             mkWorld (<["out/lake_r.geojson" := Some (mkGDF epsg4326 [river_A])]>
                        disk_with_lake) [])) as Halone0.
  { rewrite run_on_files_same. exact lake_task_alone. }
  assert (run (on_files (λ path, path) task_broken) w
          = (Err (DataSourceError "rivers/broken.geojson"), w)) as Halone1.
  { rewrite run_on_files_same.
    exact (intersect_process_layers_unreadable (L := planar) false union_of
             "rivers/broken.geojson" "points/lake.geojson" "out" w eq_refl). }
  exists sched, s, f0, f1.
  split; [exact Hrun|]. split; [exact Hall|].
  split; [exact Hf0|]. split; [exact (eq_trans Hend0 (f_equal (λ r, lift r.1) Halone0))|].
  split; [exact Hf1|]. split; [exact (eq_trans Hend1 (f_equal (λ r, lift r.1) Halone1))|].
  split.
  { refine (eq_trans Hout0 _).
    refine (eq_trans (f_equal (λ r, fs r.2 !! "out/lake_r.geojson") Halone0) _).
    apply lookup_insert_eq. }
  split.
  { refine (eq_trans Hout1 _).
    exact (f_equal (λ r, fs r.2 !! "out/lake_broken.geojson") Halone1). }
  refine (eq_trans (Hframe "rivers/a/r.geojson" _) _); [|reflexivity].
  intros Hin. apply list_elem_of_In in Hin. simpl in Hin.
  by destruct Hin as [[=]|[[=]|[]]].
Defined.

Lemma qgis_same_stem_one_output_witness :
  qgis.layer_name (ospath.join "data" "rivers.shp") = "rivers"
  ∧ qgis.layer_name (ospath.join "data/old" "rivers.dbf") = "rivers"
  ∧ qgis.geojson_path "path/to/outputs" (qgis.layer_name (ospath.join "data" "rivers.shp"))
    = qgis.geojson_path "path/to/outputs"
        (qgis.layer_name (ospath.join "data/old" "rivers.dbf")).
Proof.
  exact (qgis_same_stem_one_output "path/to/outputs" "data" "data/old" "rivers" "shp" "dbf"
           eq_refl eq_refl eq_refl eq_refl eq_refl eq_refl).
Defined.


Lemma intersect_batch_silent_unless_verbose_witness :
  ∃ s,
    exec_all false 8 [Work 0; Work 0; Work 1; Work 1; Collect 1; Collect 0]
      (intersect_main_submitted (L := planar) false union_of walk_hamlets "points" "rivers"
         "out" (mkWorld (L := planar) disk_with_lake [])) = Some s
    ∧ stdout (main_returns false s) = [].
Proof.
  eexists. split; [exact intersect_batch_run|].
  exact (intersect_batch_silent_unless_verbose (L := planar) false union_of walk_hamlets
           "points" "rivers" "out" (mkWorld (L := planar) disk_with_lake []) 8 _ _ eq_refl
           intersect_batch_run).
Defined.

Lemma outputs_collide_only_on_equal_stems_witness :
  output_file "out" ("points/x.geojson", "rivers/a/r.geojson")
  = output_file "out" ("elsewhere/x.geojson", "rivers/b/r.geojson")
  ∧ (ospath.splitext (ospath.basename "points/x.geojson")).1
    = (ospath.splitext (ospath.basename "elsewhere/x.geojson")).1
  ∧ (ospath.splitext (ospath.basename "rivers/a/r.geojson")).1
    = (ospath.splitext (ospath.basename "rivers/b/r.geojson")).1.
Proof.
  split; [reflexivity|].
  destruct (outputs_collide_only_on_equal_stems "out") as [Hstems _].
  exact (Hstems ("points/x.geojson", "rivers/a/r.geojson")
           ("elsewhere/x.geojson", "rivers/b/r.geojson") eq_refl eq_refl eq_refl).
Defined.

Lemma task_trace_witness :
  stdout (run (process_layers false "rivers/a/r.geojson" "points/x.geojson" "out"
                 (PyFloat 111000)) world0).2
  = [] ++ printed false (Processing "points/x.geojson" "rivers/a/r.geojson")
    ++ output (select_rivers false rivers_a points_layer (PyFloat 111000))
    ++ printed false (NumberOfSelected 1) ++ printed false (LayerSaved "x_r").
Proof.
  exact (task_trace false "rivers/a/r.geojson" "points/x.geojson" "out" (PyFloat 111000)
           world0 rivers_a points_layer points_layer [river_A]
           eq_refl eq_refl eq_refl town_selects_river_A_value).
Defined.

End PlanarRuns.
